(** * debug-routes: the route analyzer and the route debugger

    A shallow embedding of the two command-line linters of the repository,
    [RouteAnalyzer] (the simple variant, route-analyzer.js) and
    [RouteDebugger] (the extended variant, bin/cli.js): the file walker, the
    relevance and skip predicates, the nine textual rules, the per-file
    analyzer, the severity aggregation and the command-line front end.

    JavaScript strings are sequences of UTF-16 code units; a file text or a
    file name is a [list N] of code units.  String constants of the program
    (issue types, severities, messages) are Rocq strings. *)

From Stdlib Require Import NArith ZArith Ascii String List Bool Lia.
From stdpp Require Import gmap strings list.

(** ** Texts *)

Definition text := list N.

(** The code units of an ASCII literal of the source. *)
Definition str (s : string) : text :=
  List.map N_of_ascii (list_ascii_of_string s).

(** Equality of two strings ([===] on strings). *)
Fixpoint text_eqb (a b : text) : bool :=
  match a, b with
  | [], [] => true
  | x :: a', y :: b' => (x =? y)%N && text_eqb a' b'
  | _, _ => false
  end.

(** [startsWith s p]: [String.prototype.startsWith]. *)
Fixpoint startsWith (s p : text) : bool :=
  match p, s with
  | [], _ => true
  | c :: p', x :: s' => (x =? c)%N && startsWith s' p'
  | _ :: _, [] => false
  end.

(** [includes s p]: [String.prototype.includes], some position of [s]
    starts with [p]. *)
Fixpoint includes (s p : text) : bool :=
  startsWith s p ||
  match s with
  | [] => false
  | _ :: s' => includes s' p
  end.

(** [Array.prototype.includes] on an array of strings. *)
Definition array_includes (l : list text) (x : text) : bool :=
  existsb (text_eqb x) l.

(** ** Regular expressions

    The fragment of ECMAScript patterns that the two programs write:
    characters, the class \s, sequence, alternation, the greedy quantifiers
    ?, * and +, and the anchor $ (no m flag: end of input only). *)

Inductive regex : Type :=
| Eps
| Chr (c : N)
| Space
| Seq (r1 r2 : regex)
| Alt (r1 r2 : regex)
| Opt (r : regex)
| Star (r : regex)
| Eos.

Definition Plus (r : regex) : regex := Seq r (Star r).

(** A literal run of characters. *)
Fixpoint Lit (w : text) : regex :=
  match w with
  | [] => Eps
  | c :: w' => Seq (Chr c) (Lit w')
  end.

(** \s: WhiteSpace and LineTerminator code units. *)
Definition isSpace (c : N) : bool :=
  (((9 <=? c) && (c <=? 13)) || (c =? 32) || (c =? 160) || (c =? 5760)
   || ((8192 <=? c) && (c <=? 8202)) || (c =? 8232) || (c =? 8233)
   || (c =? 8239) || (c =? 8287) || (c =? 12288) || (c =? 65279))%N.

(** Canonicalize of the i flag (no u flag).  An ASCII letter goes to its
    upper case.  A code unit from 128 on never canonicalizes to an ASCII one
    (the guard of Canonicalize returns it unchanged in that case), and every
    pattern written with the i flag here is made of ASCII letters, so the
    upper-case table beyond ASCII is left out: such a unit is kept. *)
Definition canonicalize (ch : N) : N :=
  (if (97 <=? ch) && (ch <=? 122) then ch - 32 else ch)%N.

Definition chr_eqb (ignoreCase : bool) (x c : N) : bool :=
  if ignoreCase then (canonicalize x =? canonicalize c)%N else (x =? c)%N.

(** The iterations of a greedy *: [body] matches one more iteration and
    continues with what follows; an iteration that consumes nothing is
    rejected, as in ECMAScript, so [length s] iterations are enough. *)
Fixpoint star_loop {A : Type}
    (body : text -> (text -> option A) -> option A)
    (k : text -> option A) (fuel : nat) (s : text) {struct fuel} : option A :=
  match fuel with
  | O => k s
  | S fuel' =>
      match body s (fun s' =>
              if (length s' <? length s) then star_loop body k fuel' s'
              else None) with
      | Some x => Some x
      | None => k s
      end
  end.

(** The backtracking matcher, in continuation-passing style: [m i r s k]
    matches [r] at the head of [s] and hands the rest of the input to [k];
    alternatives are tried left to right and quantifiers are greedy. *)
Fixpoint m {A : Type} (i : bool) (r : regex) (s : text)
    (k : text -> option A) {struct r} : option A :=
  match r with
  | Eps => k s
  | Chr c =>
      match s with
      | x :: s' => if chr_eqb i x c then k s' else None
      | [] => None
      end
  | Space =>
      match s with
      | x :: s' => if isSpace x then k s' else None
      | [] => None
      end
  | Seq r1 r2 => m i r1 s (fun s' => m i r2 s' k)
  | Alt r1 r2 =>
      match m i r1 s k with
      | Some x => Some x
      | None => m i r2 s k
      end
  | Opt r1 =>
      match m i r1 s k with
      | Some x => Some x
      | None => k s
      end
  | Star r1 => star_loop (m i r1) k (length s) s
  | Eos =>
      match s with
      | [] => k s
      | _ :: _ => None
      end
  end.

(** The rest of the input after the match that the engine finds at the head
    of [s], if any. *)
Definition match_here (i : bool) (r : regex) (s : text) : option text :=
  m i r s Some.

(** The first index from [at] on (the head of [s] has index [at]) where the
    pattern matches, with the rest after that match. *)
Fixpoint exec_from (i : bool) (r : regex) (s : text) (at_ : nat)
    : option (nat * text) :=
  match match_here i r s with
  | Some rest => Some (at_, rest)
  | None =>
      match s with
      | [] => None
      | _ :: s' => exec_from i r s' (S at_)
      end
  end.

(** A RegExp object: the pattern, its flags, and the mutable [lastIndex]. *)
Record RegExp : Type := mkRegExp {
  source : regex;
  ignoreCase : bool;
  global : bool;
  lastIndex : nat
}.

(** A regular expression literal evaluates to a fresh object. *)
Definition literal (r : regex) (i g : bool) : RegExp :=
  mkRegExp r i g 0.

Definition set_lastIndex (rx : RegExp) (n : nat) : RegExp :=
  mkRegExp (source rx) (ignoreCase rx) (global rx) n.

(** [RegExp.prototype.test]: with the g flag the search starts at
    [lastIndex], which is moved behind the match, or reset when there is
    none. *)
Definition RegExp_test (rx : RegExp) (s : text) : bool * RegExp :=
  let start := if global rx then lastIndex rx else O in
  if (length s <? start) then (false, set_lastIndex rx 0)
  else
    match exec_from (ignoreCase rx) (source rx) (drop start s) start with
    | Some (_, rest) =>
        (true, if global rx then set_lastIndex rx (length s - length rest)
               else rx)
    | None => (false, if global rx then set_lastIndex rx 0 else rx)
    end.

(** [String.prototype.search]: the index of the first match, or -1; the
    search starts at 0 whatever [lastIndex] is, and leaves it as it was. *)
Definition String_search (s : text) (rx : RegExp) : Z :=
  match exec_from (ignoreCase rx) (source rx) s 0 with
  | Some (idx, _) => Z.of_nat idx
  | None => (-1)%Z
  end.

(** The successive matches of a global pattern: after a match the scan
    resumes behind it, and one unit further when the match is empty. *)
Fixpoint matchAll (i : bool) (r : regex) (skip : nat) (s : text)
    : list text :=
  match skip with
  | S n =>
      match s with
      | [] => []
      | _ :: s' => matchAll i r n s'
      end
  | O =>
      match match_here i r s with
      | Some rest =>
          let len := length s - length rest in
          take len s ::
            match s with
            | [] => []
            | _ :: s' => matchAll i r (len - 1) s'
            end
      | None =>
          match s with
          | [] => []
          | _ :: s' => matchAll i r 0 s'
          end
      end
  end.

(** [String.prototype.match]: with the g flag, the array of all matched
    texts, or null when there is none; without it, the first match (only
    its text is kept here), or null. *)
Definition String_match (s : text) (rx : RegExp) : option (list text) :=
  if global rx then
    match matchAll (ignoreCase rx) (source rx) 0 s with
    | [] => None
    | ms => Some ms
    end
  else
    match exec_from (ignoreCase rx) (source rx) s 0 with
    | Some (idx, rest) =>
        Some [take (length s - idx - length rest) (drop idx s)]
    | None => None
    end.

(** Truthiness of a value that is an array or null. *)
Definition truthy {A : Type} (v : option A) : bool :=
  match v with Some _ => true | None => false end.

(** ** The patterns of the two programs *)

Fixpoint seqs (l : list regex) : regex :=
  match l with
  | [] => Eps
  | [r] => r
  | r :: l' => Seq r (seqs l')
  end.

Fixpoint alts (l : list regex) : regex :=
  match l with
  | [] => Eps
  | [r] => r
  | r :: l' => Alt r (alts l')
  end.

Definition L (s : string) : regex := Lit (str s).

(** /routes\.map\s*\(\s*\(\s*{\s*path\s*,\s*Component\s*}\s*\)/ *)
Definition routesMap_re : regex :=
  seqs [L "routes.map"; Star Space; L "("; Star Space; L "("; Star Space;
        L "{"; Star Space; L "path"; Star Space; L ","; Star Space;
        L "Component"; Star Space; L "}"; Star Space; L ")"].

(** /new\s+QueryClient\s*\(/ *)
Definition queryClient_re : regex :=
  seqs [L "new"; Plus Space; L "QueryClient"; Star Space; L "("].

(** /createContext|useContext|\.Provider/ *)
Definition context_re : regex :=
  alts [L "createContext"; L "useContext"; L ".Provider"].

(** /<Routes>/ *)
Definition routes_re : regex := L "<Routes>".

(** /\.map\(|\.filter\(|\.reduce\(|\.forEach\(/ *)
Definition expensive_re : regex :=
  alts [L ".map("; L ".filter("; L ".reduce("; L ".forEach("].

(** /AsyncWrapper/ *)
Definition asyncWrapper_re : regex := L "AsyncWrapper".

(** /console\.log/, /debugger/, /JSON\.parse\(JSON\.stringify/ *)
Definition consoleLog_re : regex := L "console.log".
Definition debugger_re : regex := L "debugger".
Definition jsonClone_re : regex := L "JSON.parse(JSON.stringify".

(** /route|Route/ (written with the i flag) *)
Definition routeName_re : regex := alts [L "route"; L "Route"].

(** /Routes\.tsx?$/ *)
Definition routesFile_re : regex := seqs [L "Routes.ts"; Opt (L "x"); Eos].

(** /\.(tsx?|jsx?)$/ *)
Definition scriptExt_re : regex :=
  seqs [L "."; Alt (Seq (L "ts") (Opt (L "x"))) (Seq (L "js") (Opt (L "x")));
        Eos].

(** /new\s+QueryClient/, /react-router|useNavigate|useLocation/ and
    /Shell|AsyncWrapper|useModulePathResolver/ of [extractRouteConfig]. *)
Definition newQueryClient_re : regex :=
  seqs [L "new"; Plus Space; L "QueryClient"].
Definition reactRouter_re : regex :=
  alts [L "react-router"; L "useNavigate"; L "useLocation"].
Definition shell_re : regex :=
  alts [L "Shell"; L "AsyncWrapper"; L "useModulePathResolver"].

(** ** Data model *)

Record Issue : Type := mkIssue {
  type : string;
  severity : string;
  file : text;
  message : string;
  pattern : option text;
  count : option nat;
  fix_ : option string
}.

Record Recommendation : Type := mkRecommendation {
  rec_file : option text;
  priority : option string;
  rec_message : string;
  action : option string
}.

Record FileStats : Type := mkFileStats {
  total : nat;
  analyzed : nat;
  withIssues : nat
}.

(** The per-file summary of the extended variant.  Its [componentCount] and
    [imports] fields are computed from the text alone and read by no part of
    the analysis; they are not modelled. *)
Record RouteConfig : Type := mkRouteConfig {
  rc_file : text;
  hasActivityContext : bool;
  hasBlockedNavigation : bool;
  hasMultipleQueryClients : bool;
  hasUnmemoizedRoutes : bool;
  hasReactRouter : bool;
  hasShellComponents : bool
}.

(** ** The file system

    A directory entry as [fs.readdirSync(dir, { withFileTypes: true })]
    gives it: [DirEnt] when [isDirectory()] holds, [FileEnt] for everything
    else (a symbolic link is not a directory for [isDirectory()]).
    [content] is what [fs.readFileSync(path, "utf8")] returns, [None] when
    it throws; [entries] is what [fs.readdirSync] returns for the directory,
    [None] when it throws. *)
#[local] Unset Elimination Schemes.
Inductive Dirent : Type :=
| FileEnt (name : text) (content : option text)
| DirEnt (name : text) (entries : option (list Dirent)).
#[local] Set Elimination Schemes.

Definition dirent_name (d : Dirent) : text :=
  match d with
  | FileEnt n _ => n
  | DirEnt n _ => n
  end.

(** The file system calls of a run, in order; a path is the list of the
    names below the base path. *)
Inductive FsCall : Type :=
| Readdir (p : list text)
| ReadFile (p : list text).

(** [fs.readFileSync] on an entry: a directory cannot be read as a file. *)
Definition readFileSync (d : Dirent) : option text :=
  match d with
  | FileEnt _ c => c
  | DirEnt _ _ => None
  end.

(** [path.relative(basePath, filePath)] for a file below the base path:
    the names joined by the separator (the one of POSIX). *)
Fixpoint relative (p : list text) : text :=
  match p with
  | [] => []
  | [n] => n
  | n :: p' => n ++ str "/" ++ relative p'
  end.

(** The state of an analyzer object ([this]) together with the log of its
    file system calls.  [routeConfigs] stays empty in the simple variant,
    which has no such field. *)
Record Analyzer : Type := mkAnalyzer {
  issues : list Issue;
  recommendations : list Recommendation;
  routeConfigs : list RouteConfig;
  fileStats : FileStats;
  fsLog : list FsCall
}.

Definition new_Analyzer : Analyzer :=
  mkAnalyzer [] [] [] (mkFileStats 0 0 0) [].

Definition push_recommendation (this : Analyzer) (r : Recommendation)
    : Analyzer :=
  mkAnalyzer (issues this) (recommendations this ++ [r]) (routeConfigs this)
             (fileStats this) (fsLog this).

Definition push_issues (this : Analyzer) (l : list Issue) : Analyzer :=
  mkAnalyzer (issues this ++ l) (recommendations this) (routeConfigs this)
             (fileStats this) (fsLog this).

Definition push_routeConfig (this : Analyzer) (c : RouteConfig) : Analyzer :=
  mkAnalyzer (issues this) (recommendations this) (routeConfigs this ++ [c])
             (fileStats this) (fsLog this).

Definition set_fileStats (this : Analyzer) (f : FileStats) : Analyzer :=
  mkAnalyzer (issues this) (recommendations this) (routeConfigs this)
             f (fsLog this).

Definition log_call (this : Analyzer) (c : FsCall) : Analyzer :=
  mkAnalyzer (issues this) (recommendations this) (routeConfigs this)
             (fileStats this) (fsLog this ++ [c]).

Definition incr_total (this : Analyzer) : Analyzer :=
  let f := fileStats this in
  set_fileStats this (mkFileStats (total f + 1) (analyzed f) (withIssues f)).

Definition incr_analyzed (this : Analyzer) : Analyzer :=
  let f := fileStats this in
  set_fileStats this (mkFileStats (total f) (analyzed f + 1) (withIssues f)).

Definition incr_withIssues (this : Analyzer) : Analyzer :=
  let f := fileStats this in
  set_fileStats this (mkFileStats (total f) (analyzed f) (withIssues f + 1)).

(** The skip list and the relevance test are written the same way in both
    programs. *)
Definition skipDirs : list text :=
  [str "node_modules"; str ".git"; str "dist"; str "build"; str "coverage";
   str ".next"].

(** A recommendation attached to a file by a rule. *)
Definition file_rec (filePath : text) (msg : string) : Recommendation :=
  mkRecommendation (Some filePath) None msg None.

(** ** The simple variant: class RouteAnalyzer *)

Module RouteAnalyzer.

Definition shouldSkipDirectory (dirName : text) : bool :=
  array_includes skipDirs dirName.

Definition isRelevantFile (fileName : text) : bool :=
  (truthy (String_match fileName (literal routeName_re true false))
   || truthy (String_match fileName (literal routesFile_re false false)))
  && truthy (String_match fileName (literal scriptExt_re false false)).

Definition checkDynamicRouteGeneration (content filePath : text)
    (fileIssues : list Issue) (this : Analyzer) : list Issue * Analyzer :=
  let routesMapPattern := literal routesMap_re false true in
  let matches := String_match content routesMapPattern in
  match matches with
  | Some ms =>
      let fileIssues :=
        fileIssues ++
        [mkIssue "dynamic-route-generation" "high" filePath
           "Dynamic route generation detected - may cause unmounts"
           (head ms) None None] in
      if negb (includes content (str "useMemo")) then
        (fileIssues,
         push_recommendation this
           (file_rec filePath
              "Wrap routes array in useMemo to prevent recreation"))
      else (fileIssues, this)
  | None => (fileIssues, this)
  end.

Definition checkQueryClientCreation (content filePath : text)
    (fileIssues : list Issue) (this : Analyzer) : list Issue * Analyzer :=
  let queryClientPattern := literal queryClient_re false true in
  let matches := String_match content queryClientPattern in
  match matches with
  | Some ms =>
      (fileIssues ++
       [mkIssue "query-client-creation" "medium" filePath
          "QueryClient created in route file - may cause state loss"
          None (Some (length ms)) None],
       push_recommendation this
         (file_rec filePath
            "Move QueryClient creation to module level or share instance"))
  | None => (fileIssues, this)
  end.

Definition checkContextPlacement (content filePath : text)
    (fileIssues : list Issue) (this : Analyzer) : list Issue * Analyzer :=
  let contextPattern := literal context_re false true in
  let routesPattern := literal routes_re false true in
  let '(hasContext, contextPattern) := RegExp_test contextPattern content in
  let '(hasRoutes, routesPattern) := RegExp_test routesPattern content in
  if hasContext && hasRoutes then
    let contextIndex := String_search content contextPattern in
    let routesIndex := String_search content routesPattern in
    if (contextIndex <? routesIndex)%Z
       && negb (contextIndex =? -1)%Z && negb (routesIndex =? -1)%Z then
      (fileIssues ++
       [mkIssue "context-placement" "high" filePath
          "Context may be placed above Routes - could cause unmounts"
          None None None],
       push_recommendation this
         (file_rec filePath
            "Move context provider below shell routing but above module routes"))
    else (fileIssues, this)
  else (fileIssues, this).

Definition checkBlockedNavigation (content filePath : text)
    (fileIssues : list Issue) (this : Analyzer) : list Issue * Analyzer :=
  if includes content (str "BlockedNavigation") then
    (fileIssues ++
     [mkIssue "blocked-navigation" "medium" filePath
        "BlockedNavigation component found - may interfere with routing"
        None None None],
     push_recommendation this
       (file_rec filePath
          "Review BlockedNavigation placement and when conditions"))
  else (fileIssues, this).

Definition checkActivityContext (content filePath : text)
    (fileIssues : list Issue) (this : Analyzer) : list Issue * Analyzer :=
  if includes content (str "ActivityContext") then
    (fileIssues ++
     [mkIssue "activity-context" "medium" filePath
        "ActivityContext found - may track navigation changes"
        None None None],
     push_recommendation this
       (file_rec filePath
          "Review ActivityContext usage for potential navigation interference"))
  else (fileIssues, this).

Definition checkMemoization (content filePath : text)
    (fileIssues : list Issue) (this : Analyzer) : list Issue * Analyzer :=
  let hasExpensiveCalculations :=
    fst (RegExp_test (literal expensive_re false true) content) in
  let hasUseMemo := includes content (str "useMemo") in
  let hasUseCallback := includes content (str "useCallback") in
  if hasExpensiveCalculations && negb hasUseMemo && negb hasUseCallback then
    (fileIssues ++
     [mkIssue "missing-memoization" "low" filePath
        "Expensive calculations detected without memoization"
        None None None],
     push_recommendation this
       (file_rec filePath
          "Consider memoizing expensive calculations with useMemo/useCallback"))
  else (fileIssues, this).

Definition checkAsyncWrapper (content filePath : text)
    (fileIssues : list Issue) (this : Analyzer) : list Issue * Analyzer :=
  if includes content (str "AsyncWrapper") then
    let matches := String_match content (literal asyncWrapper_re false true) in
    match matches with
    | Some ms =>
        if (1 <? length ms) then
          (fileIssues ++
           [mkIssue "multiple-async-wrappers" "medium" filePath
              "Multiple AsyncWrapper instances detected"
              None (Some (length ms)) None],
           this)
        else (fileIssues, this)
    | None => (fileIssues, this)
    end
  else (fileIssues, this).

Definition checkShellPatterns (content filePath : text)
    (fileIssues : list Issue) (this : Analyzer) : list Issue * Analyzer :=
  if includes content (str "useModulePathResolver") then
    if negb (includes content (str "useMemo"))
       || negb (includes content (str "useCallback")) then
      (fileIssues ++
       [mkIssue "unmemoized-shell-hooks" "medium" filePath
          "Shell hooks used without proper memoization"
          None None None],
       this)
    else (fileIssues, this)
  else (fileIssues, this).

Definition performancePatterns : list (RegExp * string) :=
  [(literal consoleLog_re false true,
    "Console statements found - remove for production");
   (literal debugger_re false true,
    "Debugger statements found - remove for production");
   (literal jsonClone_re false true,
    "Deep cloning with JSON methods - consider alternatives")].

Definition checkPerformancePatterns (content filePath : text)
    (fileIssues : list Issue) (this : Analyzer) : list Issue * Analyzer :=
  (fold_left
     (fun fileIssues '(pattern, message) =>
        if fst (RegExp_test pattern content) then
          fileIssues ++
          [mkIssue "performance-issue" "low" filePath message
             None None None]
        else fileIssues)
     performancePatterns fileIssues,
   this).

(** The nine checks of [analyzeRouteFile], in their order, on a fresh
    [fileIssues] array. *)
Definition runChecks (content relativePath : text) (this : Analyzer)
    : list Issue * Analyzer :=
  let fileIssues := [] in
  let '(fileIssues, this) :=
    checkDynamicRouteGeneration content relativePath fileIssues this in
  let '(fileIssues, this) :=
    checkQueryClientCreation content relativePath fileIssues this in
  let '(fileIssues, this) :=
    checkContextPlacement content relativePath fileIssues this in
  let '(fileIssues, this) :=
    checkBlockedNavigation content relativePath fileIssues this in
  let '(fileIssues, this) :=
    checkActivityContext content relativePath fileIssues this in
  let '(fileIssues, this) :=
    checkMemoization content relativePath fileIssues this in
  let '(fileIssues, this) :=
    checkAsyncWrapper content relativePath fileIssues this in
  let '(fileIssues, this) :=
    checkShellPatterns content relativePath fileIssues this in
  checkPerformancePatterns content relativePath fileIssues this.

(** [analyzeRouteFile(filePath)]: [filePath] is the path below the base
    path and [file] the entry found there.  A failed read is caught and
    logged on the console; nothing else changes. *)
Definition analyzeRouteFile (filePath : list text) (file : Dirent)
    (this : Analyzer) : Analyzer :=
  let this := log_call this (ReadFile filePath) in
  match readFileSync file with
  | Some content =>
      let relativePath := relative filePath in
      let this := incr_analyzed this in
      let '(fileIssues, this) := runChecks content relativePath this in
      let this := push_issues this fileIssues in
      if (0 <? length fileIssues) then incr_withIssues this else this
  | None => this
  end.

(** One turn of the loop of [findRouteFiles(dir)] on the entry [file], and
    through it the whole method: [findRouteFiles] on a subdirectory is
    the loop over its entries, or nothing when the directory cannot be
    read. *)
Fixpoint visit (dir : list text) (file : Dirent) (this : Analyzer)
    {struct file} : Analyzer :=
  let fullPath := dir ++ [dirent_name file] in
  match file with
  | DirEnt name entries =>
      if negb (shouldSkipDirectory name) then
        let this := log_call this (Readdir fullPath) in
        match entries with
        | Some files =>
            fold_left (fun this file => visit fullPath file this) files this
        | None => this
        end
      else if isRelevantFile name then
        analyzeRouteFile fullPath file (incr_total this)
      else this
  | FileEnt name _ =>
      if isRelevantFile name then
        analyzeRouteFile fullPath file (incr_total this)
      else this
  end.

(** [findRouteFiles(this.basePath)]: [root] is what is found at the base
    path; when it is not a directory [fs.readdirSync] throws. *)
Definition findRouteFiles (root : Dirent) (this : Analyzer) : Analyzer :=
  let this := log_call this (Readdir []) in
  match root with
  | DirEnt _ (Some files) =>
      fold_left (fun this file => visit [] file this) files this
  | _ => this
  end.

Definition getIssuesBySeverity (this : Analyzer) : gmap string nat :=
  fold_left
    (fun bySeverity issue =>
       <[severity issue := default 0 (bySeverity !! severity issue) + 1]>
         bySeverity)
    (issues this)
    (<["high" := 0]> (<["medium" := 0]> (<["low" := 0]> ∅))).

Definition getIssuesByType (this : Analyzer) : gmap string nat :=
  fold_left
    (fun byType issue =>
       <[type issue := default 0 (byType !! type issue) + 1]> byType)
    (issues this) ∅.

(** [run()], without its printing. *)
Definition run (root : Dirent) : Analyzer :=
  findRouteFiles root new_Analyzer.

End RouteAnalyzer.

(** ** The extended variant: class RouteDebugger *)

Module RouteDebugger.

Definition shouldSkipDirectory (dirName : text) : bool :=
  array_includes skipDirs dirName.

Definition isRelevantFile (fileName : text) : bool :=
  (truthy (String_match fileName (literal routeName_re true false))
   || truthy (String_match fileName (literal routesFile_re false false)))
  && truthy (String_match fileName (literal scriptExt_re false false)).

Definition extractRouteConfig (content filePath : text) : RouteConfig :=
  mkRouteConfig filePath
    (includes content (str "ActivityContext"))
    (includes content (str "BlockedNavigation"))
    (1 <? length (default []
                    (String_match content
                       (literal newQueryClient_re false true))))
    (includes content (str "routes.map")
     && negb (includes content (str "useMemo")))
    (fst (RegExp_test (literal reactRouter_re false false) content))
    (fst (RegExp_test (literal shell_re false false) content)).

Definition checkDynamicRouteGeneration (content filePath : text)
    (fileIssues : list Issue) : list Issue :=
  let routesMapPattern := literal routesMap_re false true in
  let matches := String_match content routesMapPattern in
  match matches with
  | Some ms =>
      fileIssues ++
      [mkIssue "dynamic-route-generation" "high" filePath
         "Dynamic route generation detected - may cause unmounts"
         (head ms) None
         (Some "Wrap routes array in useMemo to prevent recreation")]
  | None => fileIssues
  end.

Definition checkQueryClientCreation (content filePath : text)
    (fileIssues : list Issue) : list Issue :=
  let queryClientPattern := literal queryClient_re false true in
  let matches := String_match content queryClientPattern in
  match matches with
  | Some ms =>
      fileIssues ++
      [mkIssue "query-client-creation" "medium" filePath
         "QueryClient created in route file - may cause state loss"
         None (Some (length ms))
         (Some "Move QueryClient creation to module level or share instance")]
  | None => fileIssues
  end.

Definition checkContextPlacement (content filePath : text)
    (fileIssues : list Issue) : list Issue :=
  let contextPattern := literal context_re false true in
  let routesPattern := literal routes_re false true in
  let '(hasContext, contextPattern) := RegExp_test contextPattern content in
  let '(hasRoutes, routesPattern) := RegExp_test routesPattern content in
  if hasContext && hasRoutes then
    let contextIndex := String_search content contextPattern in
    let routesIndex := String_search content routesPattern in
    if (contextIndex <? routesIndex)%Z
       && negb (contextIndex =? -1)%Z && negb (routesIndex =? -1)%Z then
      fileIssues ++
      [mkIssue "context-placement" "high" filePath
         "Context may be placed above Routes - could cause unmounts"
         None None
         (Some "Move context provider below shell routing but above module routes")]
    else fileIssues
  else fileIssues.

Definition checkBlockedNavigation (content filePath : text)
    (fileIssues : list Issue) : list Issue :=
  if includes content (str "BlockedNavigation") then
    fileIssues ++
    [mkIssue "blocked-navigation" "medium" filePath
       "BlockedNavigation component found - may interfere with routing"
       None None
       (Some "Review BlockedNavigation placement and when conditions")]
  else fileIssues.

Definition checkActivityContext (content filePath : text)
    (fileIssues : list Issue) : list Issue :=
  if includes content (str "ActivityContext") then
    fileIssues ++
    [mkIssue "activity-context" "medium" filePath
       "ActivityContext found - may track navigation changes"
       None None
       (Some "Review ActivityContext usage for potential navigation interference")]
  else fileIssues.

Definition checkMemoization (content filePath : text)
    (fileIssues : list Issue) : list Issue :=
  let hasExpensiveCalculations :=
    fst (RegExp_test (literal expensive_re false true) content) in
  let hasUseMemo := includes content (str "useMemo") in
  let hasUseCallback := includes content (str "useCallback") in
  if hasExpensiveCalculations && negb hasUseMemo && negb hasUseCallback then
    fileIssues ++
    [mkIssue "missing-memoization" "low" filePath
       "Expensive calculations detected without memoization"
       None None
       (Some "Consider memoizing expensive calculations with useMemo/useCallback")]
  else fileIssues.

Definition checkAsyncWrapper (content filePath : text)
    (fileIssues : list Issue) : list Issue :=
  if includes content (str "AsyncWrapper") then
    let matches := String_match content (literal asyncWrapper_re false true) in
    match matches with
    | Some ms =>
        if (1 <? length ms) then
          fileIssues ++
          [mkIssue "multiple-async-wrappers" "medium" filePath
             "Multiple AsyncWrapper instances detected"
             None (Some (length ms))
             (Some "Consolidate AsyncWrapper usage to prevent conflicts")]
        else fileIssues
    | None => fileIssues
    end
  else fileIssues.

Definition checkShellPatterns (content filePath : text)
    (fileIssues : list Issue) : list Issue :=
  if includes content (str "useModulePathResolver") then
    if negb (includes content (str "useMemo"))
       || negb (includes content (str "useCallback")) then
      fileIssues ++
      [mkIssue "unmemoized-shell-hooks" "medium" filePath
         "Shell hooks used without proper memoization"
         None None
         (Some "Wrap shell hooks with useMemo/useCallback for stability")]
    else fileIssues
  else fileIssues.

Definition performancePatterns : list (RegExp * string * string) :=
  [(literal consoleLog_re false true,
    "Console statements found - remove for production", "low");
   (literal debugger_re false true,
    "Debugger statements found - remove for production", "low");
   (literal jsonClone_re false true,
    "Deep cloning with JSON methods - consider alternatives", "low")].

Definition checkPerformancePatterns (content filePath : text)
    (fileIssues : list Issue) : list Issue :=
  fold_left
    (fun fileIssues '(pattern, message, severity) =>
       if fst (RegExp_test pattern content) then
         fileIssues ++
         [mkIssue "performance-issue" severity filePath message
            None None
            (Some "Optimize performance by addressing this pattern")]
       else fileIssues)
    performancePatterns fileIssues.

(** The nine checks of [analyzeRouteFile], in their order, on a fresh
    [fileIssues] array.  None of them reads or writes [this]. *)
Definition runChecks (content relativePath : text) : list Issue :=
  let fileIssues := [] in
  let fileIssues :=
    checkDynamicRouteGeneration content relativePath fileIssues in
  let fileIssues :=
    checkQueryClientCreation content relativePath fileIssues in
  let fileIssues := checkContextPlacement content relativePath fileIssues in
  let fileIssues := checkBlockedNavigation content relativePath fileIssues in
  let fileIssues := checkActivityContext content relativePath fileIssues in
  let fileIssues := checkMemoization content relativePath fileIssues in
  let fileIssues := checkAsyncWrapper content relativePath fileIssues in
  let fileIssues := checkShellPatterns content relativePath fileIssues in
  checkPerformancePatterns content relativePath fileIssues.

Definition analyzeRouteFile (filePath : list text) (file : Dirent)
    (this : Analyzer) : Analyzer :=
  let this := log_call this (ReadFile filePath) in
  match readFileSync file with
  | Some content =>
      let relativePath := relative filePath in
      let this := incr_analyzed this in
      let routeConfig := extractRouteConfig content relativePath in
      let fileIssues := runChecks content relativePath in
      let this := push_issues this fileIssues in
      let this := push_routeConfig this routeConfig in
      if (0 <? length fileIssues) then incr_withIssues this else this
  | None => this
  end.

Fixpoint visit (dir : list text) (file : Dirent) (this : Analyzer)
    {struct file} : Analyzer :=
  let fullPath := dir ++ [dirent_name file] in
  match file with
  | DirEnt name entries =>
      if negb (shouldSkipDirectory name) then
        let this := log_call this (Readdir fullPath) in
        match entries with
        | Some files =>
            fold_left (fun this file => visit fullPath file this) files this
        | None => this
        end
      else if isRelevantFile name then analyzeRouteFile fullPath file this
      else this
  | FileEnt name _ =>
      if isRelevantFile name then analyzeRouteFile fullPath file this
      else this
  end.

Definition findRouteFiles (root : Dirent) (this : Analyzer) : Analyzer :=
  let this := log_call this (Readdir []) in
  match root with
  | DirEnt _ (Some files) =>
      fold_left (fun this file => visit [] file this) files this
  | _ => this
  end.

Definition severity_is (s : string) (i : Issue) : bool :=
  if decide (severity i = s) then true else false.

Definition generateRecommendations (this : Analyzer) : Analyzer :=
  let highIssues := List.filter (severity_is "high") (issues this) in
  let mediumIssues := List.filter (severity_is "medium") (issues this) in
  let this :=
    if (0 <? length highIssues) then
      push_recommendation this
        (mkRecommendation None (Some "high")
           "Address high-severity issues immediately to prevent route unmounting"
           (Some "Review dynamic route generation and context placement patterns"))
    else this in
  let this :=
    if (3 <? length mediumIssues) then
      push_recommendation this
        (mkRecommendation None (Some "medium")
           "Multiple medium-severity issues detected"
           (Some "Consider refactoring route structure for better stability"))
    else this in
  if (10 <? length (routeConfigs this))
     && (5 <? length (List.filter hasUnmemoizedRoutes (routeConfigs this)))
  then
    push_recommendation this
      (mkRecommendation None (Some "medium")
         "Large number of unmemoized routes detected"
         (Some "Implement useMemo wrapping for route arrays across the application"))
  else this.

Definition getIssuesBySeverity (this : Analyzer) : gmap string nat :=
  fold_left
    (fun bySeverity issue =>
       <[severity issue := default 0 (bySeverity !! severity issue) + 1]>
         bySeverity)
    (issues this)
    (<["high" := 0]> (<["medium" := 0]> (<["low" := 0]> ∅))).

Definition getIssuesByType (this : Analyzer) : gmap string nat :=
  fold_left
    (fun byType issue =>
       <[type issue := default 0 (byType !! type issue) + 1]> byType)
    (issues this) ∅.

(** The analyzer as [run()] has it when it comes to its report: after the
    walk and the global recommendations.  [mapDependencies] in between
    fills a table of its own and changes nothing else.  The report, the
    last statement of [run()], is [RouteDebuggerReport.report] below: it
    reads the analyzer, and writes to the file system only. *)
Definition run (root : Dirent) : Analyzer :=
  generateRecommendations (findRouteFiles root new_Analyzer).

End RouteDebugger.

(** ** The command line *)

(** What the front end asks of its surroundings: the working directory,
    [path.resolve], [fs.existsSync], and what lies at a resolved path; and
    for the HTML report [path.dirname], whether
    [fs.mkdirSync(dir, { recursive: true })] returns ([false]: it throws),
    and whether [fs.writeFileSync] of the report at a path returns, made
    as it is after the directory of that path was looked for. *)
Record Env : Type := mkEnv {
  cwd : text;
  resolve : text -> text;
  existsSync : text -> bool;
  at_path : text -> Dirent;
  dirname : text -> text;
  mkdirSync : text -> bool;
  writeFileSync : text -> bool
}.

(** The simple variant has neither [html] nor [output]. *)
Record Options : Type := mkOptions {
  verbose : bool;
  json : bool;
  html : bool;
  output : option text;
  help : bool
}.

(** How the process ends: the usage text and [process.exit(0)]; the
    message that the path does not exist on the error stream and
    [process.exit(1)], no analyzer having been made; a run of the analyzer
    on the target that returned; or a run that threw, which the front end
    catches: the message that the analysis failed on the error stream and
    [process.exit(1)].  [result] is the analyzer as the run left it.  What
    is printed is left out. *)
Inductive Outcome : Type :=
| Usage
| PathDoesNotExist (targetPath : text)
| Ran (options : Options) (targetPath : text) (result : Analyzer)
| AnalysisFailed (options : Options) (targetPath : text) (result : Analyzer).

(** ** The report of the extended variant *)

Module RouteDebuggerReport.

(** The calls that the report makes to the file system. *)
Inductive ReportCall : Type :=
| ExistsSync (p : text)
| MkdirSync (p : text)
| WriteFileSync (p : text).

(** [this.options.output || 'docs/index.html']: an output that is null,
    undefined or the empty string gives the default. *)
Definition outputPath_of (options : Options) : text :=
  match output options with
  | Some (c :: p) => c :: p
  | _ => str "docs/index.html"
  end.

(** [generateHTMLReport()]: the calls it makes, in order, and whether it
    returns ([false]: one of them threw).  The text that
    [createHTMLContent] builds from the analyzer is left out: building it
    does not throw. *)
Definition generateHTMLReport (env : Env) (options : Options)
    : list ReportCall * bool :=
  let outputPath := outputPath_of options in
  let outputDir := dirname env outputPath in
  if negb (existsSync env outputDir) then
    if mkdirSync env outputDir then
      ([ExistsSync outputDir; MkdirSync outputDir; WriteFileSync outputPath],
       writeFileSync env outputPath)
    else ([ExistsSync outputDir; MkdirSync outputDir], false)
  else
    ([ExistsSync outputDir; WriteFileSync outputPath],
     writeFileSync env outputPath).

(** The last statement of [run()]: the HTML report when [html] is set,
    else the JSON report when [json] is, else the results on the console.
    The last two print and return. *)
Definition report (env : Env) (options : Options) : list ReportCall * bool :=
  if html options then generateHTMLReport env options
  else if json options then ([], true)
  else ([], true).

End RouteDebuggerReport.

(** [arg.split("=")[1]] for an [arg] that contains "=": what lies between
    the first "=" and the next one. *)
Fixpoint upto_eq (s : text) : text :=
  match s with
  | [] => []
  | c :: s' => if (c =? 61)%N then [] else c :: upto_eq s'
  end.

Fixpoint after_eq (s : text) : text :=
  match s with
  | [] => []
  | c :: s' => if (c =? 61)%N then s' else after_eq s'
  end.

Definition split_eq_1 (arg : text) : text := upto_eq (after_eq arg).

Module RouteAnalyzerCli.

Definition parse_arg (env : Env) (st : Options * text) (arg : text)
    : Options * text :=
  let '(options, targetPath) := st in
  if text_eqb arg (str "--help") || text_eqb arg (str "-h") then
    (mkOptions (verbose options) (json options) (html options)
       (output options) true, targetPath)
  else if text_eqb arg (str "--verbose") || text_eqb arg (str "-v") then
    (mkOptions true (json options) (html options) (output options)
       (help options), targetPath)
  else if text_eqb arg (str "--json") || text_eqb arg (str "-j") then
    (mkOptions (verbose options) true (html options) (output options)
       (help options), targetPath)
  else if negb (startsWith arg (str "-")) then
    (options, resolve env arg)
  else (options, targetPath).

Definition parse (env : Env) (args : list text) : Options * text :=
  fold_left (parse_arg env) args
    (mkOptions false false false None false, cwd env).

(** The run of the simple variant reads and prints only, and the walk and
    the reader catch what their reads throw: the catch of the front end is
    not reached. *)
Definition main (env : Env) (args : list text) : Outcome :=
  let '(options, targetPath) := parse env args in
  if help options then Usage
  else if negb (existsSync env targetPath) then PathDoesNotExist targetPath
  else Ran options targetPath (RouteAnalyzer.run (at_path env targetPath)).

Definition exitCode (o : Outcome) : nat :=
  match o with
  | Usage => 0
  | PathDoesNotExist _ => 1
  | Ran options _ result =>
      if negb (json options) && (0 <? length (issues result)) then 1 else 0
  | AnalysisFailed _ _ _ => 1
  end.

End RouteAnalyzerCli.

Module RouteDebuggerCli.

Fixpoint parse_from (env : Env) (args : list text) (st : Options * text)
    {struct args} : Options * text :=
  let '(options, targetPath) := st in
  match args with
  | [] => st
  | arg :: rest =>
      if text_eqb arg (str "--help") || text_eqb arg (str "-h") then
        parse_from env rest
          (mkOptions (verbose options) (json options) (html options)
             (output options) true, targetPath)
      else if text_eqb arg (str "--verbose") || text_eqb arg (str "-v") then
        parse_from env rest
          (mkOptions true (json options) (html options) (output options)
             (help options), targetPath)
      else if text_eqb arg (str "--json") || text_eqb arg (str "-j") then
        parse_from env rest
          (mkOptions (verbose options) true (html options) (output options)
             (help options), targetPath)
      else if text_eqb arg (str "--html") then
        parse_from env rest
          (mkOptions (verbose options) (json options) true (output options)
             (help options), targetPath)
      else if startsWith arg (str "--output=") then
        parse_from env rest
          (mkOptions (verbose options) (json options) (html options)
             (Some (split_eq_1 arg)) (help options), targetPath)
      else if text_eqb arg (str "--output") then
        match rest with
        | next :: rest' =>
            parse_from env rest'
              (mkOptions (verbose options) (json options) (html options)
                 (Some next) (help options), targetPath)
        | [] =>
            (mkOptions (verbose options) (json options) (html options)
               None (help options), targetPath)
        end
      else if negb (startsWith arg (str "--")) && existsSync env arg then
        parse_from env rest (options, resolve env arg)
      else parse_from env rest st
  end.

Definition parse (env : Env) (args : list text) : Options * text :=
  let '(options, targetPath) :=
    parse_from env args (mkOptions false false false None false, cwd env) in
  if negb (json options) && negb (html options) then
    (mkOptions (verbose options) (json options) true (output options)
       (help options), targetPath)
  else (options, targetPath).

(** [analyzer.run()] inside the try of the front end: the walk and the
    recommendations, then the report; when the report throws, the catch. *)
Definition main (env : Env) (args : list text) : Outcome :=
  let '(options, targetPath) := parse env args in
  if help options then Usage
  else if negb (existsSync env targetPath) then PathDoesNotExist targetPath
  else
    let result := RouteDebugger.run (at_path env targetPath) in
    if snd (RouteDebuggerReport.report env options) then
      Ran options targetPath result
    else AnalysisFailed options targetPath result.

Definition exitCode (o : Outcome) : nat :=
  match o with
  | Usage => 0
  | PathDoesNotExist _ => 1
  | Ran options _ result =>
      if negb (json options) && negb (html options)
         && (0 <? length (issues result)) then 1 else 0
  | AnalysisFailed _ _ _ => 1
  end.

End RouteDebuggerCli.


(** ** Specification-level notions *)

(** What a pattern denotes: [Matches i r s s'] when [r] matches a prefix of
    [s] and leaves [s']. *)
Inductive Matches (i : bool) : regex -> text -> text -> Prop :=
| M_Eps s : Matches i Eps s s
| M_Chr c x s : chr_eqb i x c = true -> Matches i (Chr c) (x :: s) s
| M_Space x s : isSpace x = true -> Matches i Space (x :: s) s
| M_Seq r1 r2 s s1 s2 :
    Matches i r1 s s1 -> Matches i r2 s1 s2 -> Matches i (Seq r1 r2) s s2
| M_AltL r1 r2 s s' : Matches i r1 s s' -> Matches i (Alt r1 r2) s s'
| M_AltR r1 r2 s s' : Matches i r2 s s' -> Matches i (Alt r1 r2) s s'
| M_OptSome r s s' : Matches i r s s' -> Matches i (Opt r) s s'
| M_OptNone r s : Matches i (Opt r) s s
| M_StarNil r s : Matches i (Star r) s s
| M_StarCons r s s1 s2 :
    Matches i r s s1 -> length s1 < length s -> Matches i (Star r) s1 s2 ->
    Matches i (Star r) s s2
| M_Eos : Matches i Eos [] [].

(** The pattern matches at the head of [s]. *)
Definition matches_at (i : bool) (r : regex) (s : text) : Prop :=
  exists s', Matches i r s s'.

(** The pattern matches somewhere in [s]. *)
Definition matches_in (i : bool) (r : regex) (s : text) : Prop :=
  exists n, matches_at i r (drop n s).

(** The number of positions of [s] (its end included) at which [P] holds of
    the text from there on. *)
Fixpoint count_at (P : text -> bool) (s : text) : nat :=
  (if P s then 1 else 0) +
  match s with
  | [] => 0
  | _ :: s' => count_at P s'
  end.

(** The number of positions at which a pattern matches. *)
Definition occurrences (i : bool) (r : regex) (s : text) : nat :=
  count_at (fun t => truthy (match_here i r t)) s.

(** The number of positions at which a literal text occurs. *)
Definition literal_occurrences (p s : text) : nat :=
  count_at (fun t => startsWith t p) s.

(** [n] is the first index of [s] at which [P] holds. *)
Definition first_index (P : text -> bool) (s : text) (n : nat) : Prop :=
  P (drop n s) = true /\ forall j, j < n -> P (drop j s) = false.

(** A context keyword, or the router marker, starts the text. *)
Definition is_context_keyword (t : text) : bool :=
  startsWith t (str "createContext") || startsWith t (str "useContext")
  || startsWith t (str ".Provider").

Definition is_routes_marker (t : text) : bool :=
  startsWith t (str "<Routes>").

Definition context_issue (filePath : text) (fix_ : option string) : Issue :=
  mkIssue "context-placement" "high" filePath
    "Context may be placed above Routes - could cause unmounts"
    None None fix_.

(** An issue without its [fix] string. *)
Definition erase_fix (i : Issue) : Issue :=
  mkIssue (type i) (severity i) (file i) (message i) (pattern i) (count i)
    None.

(** The three severities. *)
Definition severities : list string := ["high"; "medium"; "low"].

Definition severity_ok (i : Issue) : Prop := In (severity i) severities.

(** Two issue lists that are the same but for the [fix] strings, which the
    second has throughout and the first nowhere. *)
Definition same_but_fix (simple extended : list Issue) : Prop :=
  List.map erase_fix extended = simple
  /\ Forall (fun i => fix_ i = None) simple
  /\ Forall (fun i => is_Some (fix_ i)) extended.

(** Case analysis on the tests of a rule. *)
Ltac rule_cases :=
  repeat match goal with
    | |- context [String_match ?c ?r] =>
        destruct (String_match c r) as [?|]
    | |- context [RegExp_test ?r ?c] =>
        destruct (RegExp_test r c) as [[] ?]
    | |- context [includes ?c ?p] => destruct (includes c p)
    | |- context [if ?b then _ else _] => destruct b
    end;
  simpl.

(** [this'] is [this] with more recommendations at the end, and nothing else
    changed. *)
Definition only_recommends (this this' : Analyzer) : Prop :=
  issues this' = issues this
  /\ routeConfigs this' = routeConfigs this
  /\ fileStats this' = fileStats this
  /\ fsLog this' = fsLog this
  /\ exists new, recommendations this' = recommendations this ++ new.

(** A directory name that the walker does not skip. *)
Definition not_skipped (dirName : text) : Prop :=
  array_includes skipDirs dirName = false.

(** The sum of the three counters of a [bySeverity] object. *)
Definition severity_total (bySeverity : gmap string nat) : nat :=
  default 0 (bySeverity !! "high") + default 0 (bySeverity !! "medium")
  + default 0 (bySeverity !! "low").

(** Some position of [s] (its end included) has [P] of the text from there
    on. *)
Fixpoint exists_at (P : text -> bool) (s : text) : bool :=
  P s ||
  match s with
  | [] => false
  | _ :: s' => exists_at P s'
  end.

(** [s] ends with [p]. *)
Definition endsWith (s p : text) : bool :=
  exists_at (fun t => text_eqb t p) s.

(** The lower case of an ASCII letter. *)
Definition lower (c : N) : N :=
  (if (65 <=? c) && (c <=? 90) then c + 32 else c)%N.

(** The relevance predicate as the specification words it: the name
    contains "route" whatever the case of its letters, or ends with
    "Routes", an optional "x", and ".ts" or ".tsx"; and its extension is one
    of .js, .jsx, .ts and .tsx. *)
Definition relevance_predicate (basename : text) : bool :=
  (includes (List.map lower basename) (str "route")
   || existsb (endsWith basename)
        [str "Routes.ts"; str "Routes.tsx"; str "Routesx.ts";
         str "Routesx.tsx"])
  && existsb (endsWith basename)
       [str ".js"; str ".jsx"; str ".ts"; str ".tsx"].

(** [met dir files dir' e]: the loop of [findRouteFiles] over [files], the
    entries of the directory at [dir], comes to the entry [e] in the
    directory at [dir'], through readable directories that are not
    skipped. *)
Inductive met : list text -> list Dirent -> list text -> Dirent -> Prop :=
| met_here dir files e : In e files -> met dir files dir e
| met_below dir files name sub dir' e :
    In (DirEnt name (Some sub)) files ->
    not_skipped name ->
    met (dir ++ [name]) sub dir' e ->
    met dir files dir' e.

(** What holds of every file system call of a walk: a directory is listed,
    and a file read, only below names that are not skipped, and the name of
    a file that is read is relevant. *)
Definition call_ok (relevant : text -> bool) (c : FsCall) : Prop :=
  match c with
  | Readdir p => Forall not_skipped p
  | ReadFile p =>
      exists dir name,
        p = dir ++ [name] /\ Forall not_skipped dir /\ relevant name = true
  end.


(** The matches of a pattern do not overlap: a match is not empty, and no
    match starts inside another. *)
Definition no_overlap (i : bool) (r : regex) : Prop :=
  forall s rest,
    match_here i r s = Some rest ->
    length rest < length s
    /\ forall k, 0 < k < length s - length rest ->
                 match_here i r (drop k s) = None.

(** None of the [n] first positions of [s] starts with "ne". *)
Definition no_ne_within (n : nat) (s : text) : Prop :=
  forall k, k < n -> startsWith (drop k s) (str "ne") = false.

Definition queryClient_issue (filePath : text) (n : nat)
    (fix_ : option string) : Issue :=
  mkIssue "query-client-creation" "medium" filePath
    "QueryClient created in route file - may cause state loss"
    None (Some n) fix_.

Definition has_type (ty : string) (i : Issue) : bool :=
  String.eqb (type i) ty.

Definition dynamic_issue (filePath first : text) (fix_ : option string)
    : Issue :=
  mkIssue "dynamic-route-generation" "high" filePath
    "Dynamic route generation detected - may cause unmounts"
    (Some first) None fix_.

Definition wrap_recommendation (filePath : text) : Recommendation :=
  file_rec filePath "Wrap routes array in useMemo to prevent recreation".

(** A check of the simple variant that, from the issues [f] and the
    analyzer [t], gets to [r] by appending issues that satisfy [Qi] and
    recommendations that satisfy [Qr]. *)
Definition adds (Qi : Issue -> Prop) (Qr : Recommendation -> Prop)
    (f : list Issue) (t : Analyzer) (r : list Issue * Analyzer) : Prop :=
  exists di dr,
    fst r = f ++ di /\ Forall Qi di
    /\ recommendations (snd r) = recommendations t ++ dr /\ Forall Qr dr.

(** The same for a check of the extended variant, which only appends
    issues. *)
Definition adds_issues (Qi : Issue -> Prop) (f f' : list Issue) : Prop :=
  exists di, f' = f ++ di /\ Forall Qi di.

Definition not_dynamic (i : Issue) : Prop :=
  has_type "dynamic-route-generation" i = false.

(** Nothing stands in the way of the report: no HTML report is asked for,
    or the directory of its path exists or can be made and the write of
    the file returns. *)
Definition report_ok (env : Env) (options : Options) : bool :=
  let outputPath := RouteDebuggerReport.outputPath_of options in
  let outputDir := dirname env outputPath in
  negb (html options)
  || (existsSync env outputDir || mkdirSync env outputDir)
     && writeFileSync env outputPath.

(** What comes before the last slash of a path, if it has one. *)
Fixpoint before_last_slash (p : text) : option text :=
  match p with
  | [] => None
  | c :: p' =>
      match before_last_slash p' with
      | Some d => Some (c :: d)
      | None => if (c =? 47)%N then Some [] else None
      end
  end.

(** [path.dirname] on POSIX paths that do not end with a slash. *)
Definition posix_dirname (p : text) : text :=
  match before_last_slash p with
  | None => str "."
  | Some [] => str "/"
  | Some d => d
  end.

(** A small world for examples: the working directory /work exists and is
    empty, and nothing else exists.  Directories can be made, and a file
    can be written anywhere but onto the directory /work. *)
Definition example_env : Env :=
  mkEnv (str "/work")
    (fun p => if startsWith p (str "/") then p else str "/work/" ++ p)
    (fun p => text_eqb p (str "/work") || text_eqb p (str "."))
    (fun _ => DirEnt (str "work") (Some []))
    posix_dirname
    (fun _ => true)
    (fun p => negb (text_eqb p (str "/work") || text_eqb p (str "."))).

(** ** The walk as a list of files

    What the checks of the simple variant find in a text under a path, and
    what they recommend, starting from a new analyzer. *)
Definition simple_found (content relativePath : text) : list Issue :=
  fst (RouteAnalyzer.runChecks content relativePath new_Analyzer).

Definition simple_advice (content relativePath : text)
    : list Recommendation :=
  recommendations
    (snd (RouteAnalyzer.runChecks content relativePath new_Analyzer)).

(** [this] with the recommendations [l] appended. *)
Definition add_recommendations (this : Analyzer) (l : list Recommendation)
    : Analyzer :=
  mkAnalyzer (issues this) (recommendations this ++ l) (routeConfigs this)
             (fileStats this) (fsLog this).

(** A check that appends to the issues and to the recommendations what it
    appends from nothing, whatever the issues and the analyzer it starts
    from. *)
Definition framed (rule : list Issue -> Analyzer -> list Issue * Analyzer)
    : Prop :=
  forall f t,
    rule f t
    = (f ++ fst (rule [] new_Analyzer),
       add_recommendations t (recommendations (snd (rule [] new_Analyzer)))).

(** The candidate files of a tree: the entries that are not directories and
    whose name satisfies the relevance predicate, depth first in the order
    of the listings, below directories that are readable and not skipped;
    each with its path below the base path and what reading it gives. *)
Fixpoint candidate_files (dir : list text) (file : Dirent)
    : list (list text * option text) :=
  match file with
  | FileEnt name content =>
      if relevance_predicate name then [(dir ++ [name], content)] else []
  | DirEnt name entries =>
      if array_includes skipDirs name then []
      else
        match entries with
        | Some files => flat_map (candidate_files (dir ++ [name])) files
        | None => []
        end
  end.

Definition walk_files (root : Dirent) : list (list text * option text) :=
  match root with
  | DirEnt _ (Some files) => flat_map (candidate_files []) files
  | _ => []
  end.

(** The paths of the files that were read, in order. *)
Definition reads (log : list FsCall) : list (list text) :=
  flat_map (fun c => match c with ReadFile p => [p] | Readdir _ => [] end) log.

Definition readable (x : list text * option text) : bool :=
  match snd x with Some _ => true | None => false end.

Definition simple_file_issues (x : list text * option text) : list Issue :=
  match snd x with
  | Some content => simple_found content (relative (fst x))
  | None => []
  end.

Definition simple_file_advice (x : list text * option text)
    : list Recommendation :=
  match snd x with
  | Some content => simple_advice content (relative (fst x))
  | None => []
  end.

Definition extended_file_issues (x : list text * option text) : list Issue :=
  match snd x with
  | Some content => RouteDebugger.runChecks content (relative (fst x))
  | None => []
  end.

Definition extended_file_config (x : list text * option text)
    : list RouteConfig :=
  match snd x with
  | Some content =>
      [RouteDebugger.extractRouteConfig content (relative (fst x))]
  | None => []
  end.

Definition has_issues (found : list text * option text -> list Issue)
    (x : list text * option text) : bool :=
  0 <? length (found x).

(** [this'] is [this] after the candidate files [cs] were analysed by the
    simple variant, in order; the listings of directories apart. *)
Definition simple_walked (cs : list (list text * option text))
    (this this' : Analyzer) : Prop :=
  issues this' = issues this ++ flat_map simple_file_issues cs
  /\ recommendations this'
     = recommendations this ++ flat_map simple_file_advice cs
  /\ routeConfigs this' = routeConfigs this
  /\ total (fileStats this') = total (fileStats this) + length cs
  /\ analyzed (fileStats this')
     = analyzed (fileStats this) + length (List.filter readable cs)
  /\ withIssues (fileStats this')
     = withIssues (fileStats this)
       + length (List.filter (has_issues simple_file_issues) cs)
  /\ reads (fsLog this') = reads (fsLog this) ++ List.map fst cs.

(** The same for the extended variant, which leaves [total] alone and
    collects the route configurations. *)
Definition extended_walked (cs : list (list text * option text))
    (this this' : Analyzer) : Prop :=
  issues this' = issues this ++ flat_map extended_file_issues cs
  /\ recommendations this' = recommendations this
  /\ routeConfigs this'
     = routeConfigs this ++ flat_map extended_file_config cs
  /\ total (fileStats this') = total (fileStats this)
  /\ analyzed (fileStats this')
     = analyzed (fileStats this) + length (List.filter readable cs)
  /\ withIssues (fileStats this')
     = withIssues (fileStats this)
       + length (List.filter (has_issues extended_file_issues) cs)
  /\ reads (fsLog this') = reads (fsLog this) ++ List.map fst cs.

(** ** The table of the rules

    What identifies the kind of an issue: its type, severity, message and
    fix string. *)
Definition kind_of (i : Issue) : string * string * string * option string :=
  (type i, severity i, message i, fix_ i).

(** The eleven kinds of issue of the extended variant, in the order of the
    checks. *)
Definition extended_kinds : list (string * string * string * option string) :=
  [("dynamic-route-generation", "high",
    "Dynamic route generation detected - may cause unmounts",
    Some "Wrap routes array in useMemo to prevent recreation");
   ("query-client-creation", "medium",
    "QueryClient created in route file - may cause state loss",
    Some "Move QueryClient creation to module level or share instance");
   ("context-placement", "high",
    "Context may be placed above Routes - could cause unmounts",
    Some "Move context provider below shell routing but above module routes");
   ("blocked-navigation", "medium",
    "BlockedNavigation component found - may interfere with routing",
    Some "Review BlockedNavigation placement and when conditions");
   ("activity-context", "medium",
    "ActivityContext found - may track navigation changes",
    Some "Review ActivityContext usage for potential navigation interference");
   ("missing-memoization", "low",
    "Expensive calculations detected without memoization",
    Some "Consider memoizing expensive calculations with useMemo/useCallback");
   ("multiple-async-wrappers", "medium",
    "Multiple AsyncWrapper instances detected",
    Some "Consolidate AsyncWrapper usage to prevent conflicts");
   ("unmemoized-shell-hooks", "medium",
    "Shell hooks used without proper memoization",
    Some "Wrap shell hooks with useMemo/useCallback for stability");
   ("performance-issue", "low",
    "Console statements found - remove for production",
    Some "Optimize performance by addressing this pattern");
   ("performance-issue", "low",
    "Debugger statements found - remove for production",
    Some "Optimize performance by addressing this pattern");
   ("performance-issue", "low",
    "Deep cloning with JSON methods - consider alternatives",
    Some "Optimize performance by addressing this pattern")].

(** The kinds of the simple variant: the same without the fix strings. *)
Definition simple_kinds : list (string * string * string * option string) :=
  List.map (fun k => (fst k, @None string)) extended_kinds.

(** What a check of the simple variant appends for a file at [p]: issues
    of that file, and at most as many recommendations, each for that file
    and without priority or action. *)
Definition file_advice_ok (p : text) (di : list Issue)
    (dr : list Recommendation) : Prop :=
  Forall (fun i => file i = p) di
  /\ Forall (fun r => rec_file r = Some p /\ priority r = None
                      /\ action r = None) dr
  /\ length dr <= length di.

(** A candidate file that is readable, mentions routes.map and does not
    mention useMemo. *)
Definition unmemoized (x : list text * option text) : bool :=
  match snd x with
  | Some content =>
      includes content (str "routes.map")
      && negb (includes content (str "useMemo"))
  | None => false
  end.

(** The three recommendations that [generateRecommendations] can make. *)
Definition address_high : Recommendation :=
  mkRecommendation None (Some "high")
    "Address high-severity issues immediately to prevent route unmounting"
    (Some "Review dynamic route generation and context placement patterns").

Definition refactor_medium : Recommendation :=
  mkRecommendation None (Some "medium")
    "Multiple medium-severity issues detected"
    (Some "Consider refactoring route structure for better stability").

Definition memoize_broadly : Recommendation :=
  mkRecommendation None (Some "medium")
    "Large number of unmemoized routes detected"
    (Some "Implement useMemo wrapping for route arrays across the application").

Definition asyncWrapper_issue (filePath : text) (n : nat)
    (fix_ : option string) : Issue :=
  mkIssue "multiple-async-wrappers" "medium" filePath
    "Multiple AsyncWrapper instances detected" None (Some n) fix_.

Definition memoization_issue (filePath : text) (fix_ : option string)
    : Issue :=
  mkIssue "missing-memoization" "low" filePath
    "Expensive calculations detected without memoization" None None fix_.

Definition performance_issue (filePath : text) (message : string)
    (fix_ : option string) : Issue :=
  mkIssue "performance-issue" "low" filePath message None None fix_.

(** The text mentions one of the four iteration calls. *)
Definition mentions_iteration (content : text) : bool :=
  includes content (str ".map(") || includes content (str ".filter(")
  || includes content (str ".reduce(") || includes content (str ".forEach(").

(** ** Escaping for the HTML report *)

(** [String.prototype.replace] with a global pattern and a replacement
    text without [$]: the matches are those of the scan of [matchAll], and
    each is replaced. *)
Fixpoint replaceAll (i : bool) (r : regex) (replacement : text)
    (skip : nat) (s : text) : text :=
  match skip with
  | S n =>
      match s with
      | [] => []
      | _ :: s' => replaceAll i r replacement n s'
      end
  | O =>
      match match_here i r s with
      | Some rest =>
          let len := length s - length rest in
          replacement ++
            match s with
            | [] => []
            | x :: s' =>
                (if len =? 0 then [x] else [])
                ++ replaceAll i r replacement (len - 1) s'
            end
      | None =>
          match s with
          | [] => []
          | x :: s' => x :: replaceAll i r replacement 0 s'
          end
      end
  end.

(** Without the g flag only the first match is replaced. *)
Definition String_replace (s : text) (rx : RegExp) (replacement : text)
    : text :=
  if global rx then
    replaceAll (ignoreCase rx) (source rx) replacement 0 s
  else
    match exec_from (ignoreCase rx) (source rx) s 0 with
    | Some (idx, rest) => take idx s ++ replacement ++ rest
    | None => s
    end.

(** The code unit of the double quote. *)
Definition dquote : N := 34%N.

Definition escapeHtml (text_ : text) : text :=
  let div_innerHTML := text_ in
  let s := String_replace div_innerHTML (literal (L "&") false true)
             (str "&amp;") in
  let s := String_replace s (literal (L "<") false true) (str "&lt;") in
  let s := String_replace s (literal (L ">") false true) (str "&gt;") in
  let s := String_replace s (literal (Lit [dquote]) false true)
             (str "&quot;") in
  String_replace s (literal (L "'") false true) (str "&#39;").

(** The entity that stands for a code unit in escaped text. *)
Definition escape_unit (x : N) : text :=
  if (x =? 38)%N then str "&amp;"
  else if (x =? 60)%N then str "&lt;"
  else if (x =? 62)%N then str "&gt;"
  else if (x =? 34)%N then str "&quot;"
  else if (x =? 39)%N then str "&#39;"
  else [x].

(** ** The table of dependencies

    An entry of [this.dependencies]; a field that an entry does not have is
    [None]. *)
Record Dependency : Type := mkDependency {
  dep_version : string;
  critical : bool;
  shellPatched : option bool;
  patchedComponents : option (list string);
  components : option (list string);
  dep_issue : option string;
  detected : bool
}.

(** [mapDependencies()] of the extended variant: the table it assigns to
    [this.dependencies], in the order of its keys. *)
Definition mapDependencies (this : Analyzer) : list (string * Dependency) :=
  [("react-router",
    mkDependency "6.x" true (Some true) (Some ["Switch -> ShellSwitch"])
      None None (existsb hasReactRouter (routeConfigs this)));
   ("react-router-dom",
    mkDependency "6.x" true None None
      (Some ["BrowserRouter"; "Routes"; "Route"; "Navigate"; "useNavigate";
             "useLocation"])
      None (existsb hasReactRouter (routeConfigs this)));
   ("@tanstack/react-query",
    mkDependency "5.x" false None None None
      (Some "Multiple QueryClient instances may cause state loss")
      (existsb hasMultipleQueryClients (routeConfigs this)));
   ("capitalrx-shell",
    mkDependency "latest" true None None
      (Some ["Shell"; "AsyncWrapper"; "useModulePathResolver"; "ShellSwitch"])
      None (existsb hasShellComponents (routeConfigs this)))].

(** One of the candidate files is readable and its text satisfies [P]. *)
Definition some_file (P : text -> bool)
    (cs : list (list text * option text)) : bool :=
  existsb (fun x => match snd x with Some c => P c | None => false end) cs.

Definition mentions_router (content : text) : bool :=
  includes content (str "react-router")
  || includes content (str "useNavigate")
  || includes content (str "useLocation").

Definition mentions_shell (content : text) : bool :=
  includes content (str "Shell") || includes content (str "AsyncWrapper")
  || includes content (str "useModulePathResolver").

(** ** The helper for the browser

    [analyzeRouteConfiguration] and [diagnoseUnmountIssues] of the module
    that is exported as [window.CapitalRxRouteDebugger]. *)
Module EsmTool.

(** What the analysis reads of a route: [route.path], [route.Component?.name]
    and [route.key], each a string, or [None] for undefined. *)
Record Route : Type := mkRoute {
  path : option text;
  Component_name : option text;
  key : option text
}.

(** What it reads of a module: [module.version] and [module.info?.id]. *)
Record ShellModule : Type := mkShellModule {
  version : option text;
  info_id : option text
}.

(** Truthiness of a value that is a string or undefined. *)
Definition truthy_text (v : option text) : bool :=
  match v with
  | Some (_ :: _) => true
  | _ => false
  end.

(** A value that is a string or undefined, inside a template literal. *)
Definition String_of (v : option text) : text :=
  default (str "undefined") v.

Record RouteHash : Type := mkRouteHash {
  rh_path : option text;
  componentName : option text;
  hasStableKey : bool
}.

(** The field that names what an issue is about: [route] or [module]. *)
Inductive Subject : Type :=
| route_ (v : option text)
| module_ (v : option text).

Record ConfigIssue : Type := mkConfigIssue {
  ci_type : string;
  subject : Subject;
  ci_message : text
}.

Definition analyzeRouteConfiguration (routes : list Route)
    (modules : option (list ShellModule)) : list ConfigIssue :=
  let issues := [] in
  let routeHashes :=
    List.map (fun route =>
                mkRouteHash (path route) (Component_name route)
                  (negb (negb (truthy_text (key route)))))
      routes in
  let issues :=
    fold_left
      (fun issues route =>
         let issues :=
           if negb (hasStableKey route) then
             issues ++
             [mkConfigIssue "missing-stable-key" (route_ (rh_path route))
                (str "Route " ++ String_of (rh_path route)
                 ++ str " missing stable key, may cause remounts")]
           else issues in
         if negb (truthy_text (componentName route)) then
           issues ++
           [mkConfigIssue "anonymous-component" (route_ (rh_path route))
              (str "Route " ++ String_of (rh_path route)
               ++ str " uses anonymous component, debugging difficult")]
         else issues)
      routeHashes issues in
  match modules with
  | Some modules =>
      fold_left
        (fun issues module =>
           match version module with
           | None =>
               issues ++
               [mkConfigIssue "missing-module-version"
                  (module_ (info_id module))
                  (str "Module " ++ String_of (info_id module)
                   ++ str " missing version, may cause AsyncWrapper issues")]
           | Some _ => issues
           end)
        modules issues
  | None => issues
  end.

Record Diagnosis : Type := mkDiagnosis {
  d_issues : list string;
  d_recommendations : list string;
  d_severity : string
}.

Definition note (diagnosis : Diagnosis) (issue recommendation : string)
    : Diagnosis :=
  mkDiagnosis (d_issues diagnosis ++ [issue])
    (d_recommendations diagnosis ++ [recommendation]) (d_severity diagnosis).

Definition set_severity (diagnosis : Diagnosis) (s : string) : Diagnosis :=
  mkDiagnosis (d_issues diagnosis) (d_recommendations diagnosis) s.

Definition diagnoseUnmountIssues (routeConfig : RouteConfig) : Diagnosis :=
  let diagnosis := mkDiagnosis [] [] "low" in
  let diagnosis :=
    if hasActivityContext routeConfig then
      note diagnosis "ActivityContext tracking navigation changes"
        "Move ActivityContext below module routing level"
    else diagnosis in
  let diagnosis :=
    if hasBlockedNavigation routeConfig then
      note diagnosis "BlockedNavigation intercepting navigation"
        "Check BlockedNavigation placement and when conditions"
    else diagnosis in
  let diagnosis :=
    if hasMultipleQueryClients routeConfig then
      set_severity
        (note diagnosis "Multiple QueryClient instances detected"
           "Share single QueryClient instance across routes")
        "high"
    else diagnosis in
  if hasUnmemoizedRoutes routeConfig then
    set_severity
      (note diagnosis "Route array recreated on each render"
         "Wrap routes in useMemo with stable dependencies")
      "medium"
  else diagnosis.

End EsmTool.

(** A route without a key that counts, a route whose component has no
    name, a module without a version. *)
Definition unkeyed (r : EsmTool.Route) : bool :=
  negb (EsmTool.truthy_text (EsmTool.key r)).

Definition anonymous (r : EsmTool.Route) : bool :=
  negb (EsmTool.truthy_text (EsmTool.Component_name r)).

Definition unversioned (m : EsmTool.ShellModule) : bool :=
  match EsmTool.version m with None => true | Some _ => false end.

(** The issues of one route and of one module. *)
Definition route_issues (r : EsmTool.Route) : list EsmTool.ConfigIssue :=
  (if unkeyed r then
     [EsmTool.mkConfigIssue "missing-stable-key"
        (EsmTool.route_ (EsmTool.path r))
        (str "Route " ++ EsmTool.String_of (EsmTool.path r)
         ++ str " missing stable key, may cause remounts")]
   else [])
  ++ (if anonymous r then
        [EsmTool.mkConfigIssue "anonymous-component"
           (EsmTool.route_ (EsmTool.path r))
           (str "Route " ++ EsmTool.String_of (EsmTool.path r)
            ++ str " uses anonymous component, debugging difficult")]
      else []).

Definition module_issues (m : EsmTool.ShellModule)
    : list EsmTool.ConfigIssue :=
  if unversioned m then
    [EsmTool.mkConfigIssue "missing-module-version"
       (EsmTool.module_ (EsmTool.info_id m))
       (str "Module " ++ EsmTool.String_of (EsmTool.info_id m)
        ++ str " missing version, may cause AsyncWrapper issues")]
  else [].

(** ** The calls of a walk

    The calls to the file system that visiting [file], found in [dir],
    makes: a listing for each directory that is not skipped, before the
    calls for its entries, and a read for each relevant file. *)
Fixpoint fs_calls (dir : list text) (file : Dirent) : list FsCall :=
  match file with
  | FileEnt name _ =>
      if relevance_predicate name then [ReadFile (dir ++ [name])] else []
  | DirEnt name entries =>
      if array_includes skipDirs name then []
      else
        Readdir (dir ++ [name]) ::
        match entries with
        | Some files => flat_map (fs_calls (dir ++ [name])) files
        | None => []
        end
  end.

Definition walk_calls (root : Dirent) : list FsCall :=
  Readdir [] ::
  match root with
  | DirEnt _ (Some files) => flat_map (fs_calls []) files
  | _ => []
  end.

(** ** Texts that escaping leaves alone *)

(** A code unit that [escapeHtml] does not replace. *)
Definition plain_unit (x : N) : bool :=
  negb ((x =? 38) || (x =? 60) || (x =? 62) || (x =? 34) || (x =? 39))%N.

(** A pattern (without the i flag) that matches only texts of such units. *)
Fixpoint plain_re (r : regex) : bool :=
  match r with
  | Eps | Space | Eos => true
  | Chr c => plain_unit c
  | Seq r1 r2 | Alt r1 r2 => plain_re r1 && plain_re r2
  | Opt r | Star r => plain_re r
  end.

(** ** Reading the command line *)

(** One of [flags] is among the arguments. *)
Definition has_flag (flags args : list text) : bool :=
  existsb (array_includes flags) args.

(** The arguments that do not start with a dash. *)
Definition positional (args : list text) : list text :=
  List.filter (fun a => negb (startsWith a (str "-"))) args.

(** * Properties *)

(** ** The matcher and what a pattern denotes *)

Lemma Matches_length i r s s' : Matches i r s s' -> length s' <= length s.
Proof.
  induction 1; simpl in *; lia.
Qed.

Lemma star_loop_sound {A : Type} i r1 (k : text -> option A) :
  (forall s (k' : text -> option A) x,
      m i r1 s k' = Some x -> exists s', Matches i r1 s s' /\ k' s' = Some x) ->
  forall fuel s x,
    star_loop (m i r1) k fuel s = Some x ->
    exists s', Matches i (Star r1) s s' /\ k s' = Some x.
Proof.
  intros IH. induction fuel as [|fuel IHf]; simpl; intros s x H.
  - exists s. split; [constructor | assumption].
  - destruct (m i r1 s _) as [y|] eqn:E.
    + inversion H; subst y; clear H.
      apply IH in E as (s1 & M1 & K1).
      destruct (length s1 <? length s) eqn:Hl; [|discriminate].
      apply IHf in K1 as (s2 & M2 & K2).
      exists s2. split; [|assumption].
      eapply M_StarCons; eauto. by apply Nat.ltb_lt.
    + exists s. split; [constructor | assumption].
Qed.

(** Whatever the engine finds is a match of the pattern. *)
Lemma m_sound {A : Type} i r :
  forall s (k : text -> option A) x,
    m i r s k = Some x -> exists s', Matches i r s s' /\ k s' = Some x.
Proof.
  induction r as [|c| |r1 IH1 r2 IH2|r1 IH1 r2 IH2|r1 IH1|r1 IH1|];
    simpl; intros s k x H.
  - exists s. split; [constructor | assumption].
  - destruct s as [|y s]; [discriminate|].
    destruct (chr_eqb i y c) eqn:E; [|discriminate].
    exists s. split; [by constructor | assumption].
  - destruct s as [|y s]; [discriminate|].
    destruct (isSpace y) eqn:E; [|discriminate].
    exists s. split; [by constructor | assumption].
  - apply IH1 in H as (s1 & M1 & H). apply IH2 in H as (s2 & M2 & H).
    exists s2. split; [econstructor; eauto | assumption].
  - destruct (m i r1 s k) as [y|] eqn:E.
    + inversion H; subst y. apply IH1 in E as (s1 & M1 & K1).
      exists s1. split; [by apply M_AltL | assumption].
    + apply IH2 in H as (s1 & M1 & K1).
      exists s1. split; [by apply M_AltR | assumption].
  - destruct (m i r1 s k) as [y|] eqn:E.
    + inversion H; subst y. apply IH1 in E as (s1 & M1 & K1).
      exists s1. split; [by apply M_OptSome | assumption].
    + exists s. split; [apply M_OptNone | assumption].
  - eapply star_loop_sound; eauto.
  - destruct s; [|discriminate]. exists []. split; [constructor | assumption].
Qed.

Lemma star_loop_complete {A : Type} i r1 (k : text -> option A) s' :
  (forall s t (k' : text -> option A),
      Matches i r1 s t -> is_Some (k' t) -> is_Some (m i r1 s k')) ->
  is_Some (k s') ->
  forall fuel s,
    length s <= fuel -> Matches i (Star r1) s s' ->
    is_Some (star_loop (m i r1) k fuel s).
Proof.
  intros IH Hk. induction fuel as [|fuel IHf]; simpl; intros s Hlen HM.
  - inversion HM; subst; [assumption | lia].
  - inversion HM; subst.
    + destruct (m i r1 s' _); [by eexists | assumption].
    + match goal with
      | |- is_Some (match ?e with _ => _ end) =>
          assert (Hs : is_Some e); [|destruct Hs as [y ->]; by eexists]
      end.
      eapply IH; [eassumption|].
      match goal with H : length _ < length _ |- _ =>
        pose proof H as Hlt; apply Nat.ltb_lt in H; rewrite H end.
      apply IHf; [lia | assumption].
Qed.

(** Whenever the pattern has a match after which the continuation
    succeeds, the engine succeeds. *)
Lemma m_complete {A : Type} i r :
  forall s s' (k : text -> option A),
    Matches i r s s' -> is_Some (k s') -> is_Some (m i r s k).
Proof.
  induction r as [|c| |r1 IH1 r2 IH2|r1 IH1 r2 IH2|r1 IH1|r1 IH1|];
    simpl; intros s s' k HM Hk; inversion HM; subst; try assumption.
  - match goal with H : chr_eqb _ _ _ = true |- _ => by rewrite H end.
  - match goal with H : isSpace _ = true |- _ => by rewrite H end.
  - eapply IH1; [eassumption|]. eapply IH2; eassumption.
  - assert (Hs : is_Some (m i r1 s k)) by (eapply IH1; eassumption).
    destruct Hs as [y ->]. by eexists.
  - destruct (m i r1 s k); [by eexists|]. eapply IH2; eassumption.
  - assert (Hs : is_Some (m i r1 s k)) by (eapply IH1; eassumption).
    destruct Hs as [y ->]. by eexists.
  - destruct (m i r1 s' k); [by eexists | assumption].
  - eapply star_loop_complete; eauto.
  - eapply star_loop_complete; eauto.
Qed.

(** The engine finds a match at the head of [s] exactly when the pattern
    has one there. *)
Lemma match_here_iff i r s :
  truthy (match_here i r s) = true <-> matches_at i r s.
Proof.
  unfold match_here, matches_at. split.
  - destruct (m i r s Some) as [rest|] eqn:E; [|discriminate]. intros _.
    apply m_sound in E as (s' & HM & _). by exists s'.
  - intros [s' HM].
    destruct (m_complete i r s s' Some HM) as [y ->]; [by eexists | done].
Qed.

Lemma match_here_rest i r s rest :
  match_here i r s = Some rest -> Matches i r s rest.
Proof.
  unfold match_here. intros H. apply m_sound in H as (s' & HM & E).
  by inversion E; subst.
Qed.

(** ** Scanning a text *)

Lemma exec_from_Some i r s a idx rest :
  exec_from i r s a = Some (idx, rest) ->
  exists n, idx = a + n /\ match_here i r (drop n s) = Some rest
            /\ forall j, j < n -> match_here i r (drop j s) = None.
Proof.
  revert a. induction s as [|x s IH]; simpl; intros a H.
  - destruct (match_here i r []) eqn:E; [|discriminate].
    inversion H; subst. exists 0. repeat split; [lia | done | lia].
  - destruct (match_here i r (x :: s)) eqn:E.
    + inversion H; subst. exists 0. repeat split; [lia | done | lia].
    + apply IH in H as (n & -> & Hm & Hn).
      exists (S n). repeat split; [lia | done |].
      intros [|j] Hj; [done|]. apply Hn. lia.
Qed.

Lemma exec_from_first i r s a n :
  first_index (fun t => truthy (match_here i r t)) s n ->
  exists rest, exec_from i r s a = Some (a + n, rest).
Proof.
  revert s a. induction n as [|n IH]; intros s a [Hn Hlt].
  - rewrite drop_0 in Hn.
    destruct s; simpl; destruct (match_here i r _) eqn:E;
      try discriminate; rewrite Nat.add_0_r; by eexists.
  - pose proof (Hlt 0 ltac:(lia)) as H0. rewrite drop_0 in H0.
    destruct s as [|x s].
    + simpl in Hn. rewrite H0 in Hn. discriminate.
    + simpl. destruct (match_here i r (x :: s)) eqn:E; [discriminate|].
      destruct (IH s (S a)) as [rest Hr].
      { split; [done|]. intros j Hj. apply (Hlt (S j)). lia. }
      exists rest. rewrite Hr. by replace (S a + n) with (a + S n) by lia.
Qed.

(** A fresh object tests true exactly when the pattern matches somewhere. *)
Lemma test_fresh_true i g r s n :
  first_index (fun t => truthy (match_here i r t)) s n ->
  exists rx', RegExp_test (literal r i g) s = (true, rx')
              /\ source rx' = r /\ ignoreCase rx' = i.
Proof.
  intros H. unfold RegExp_test, literal. simpl.
  replace (if g then 0 else 0) with 0 by (by destruct g).
  rewrite drop_0. simpl.
  destruct (exec_from_first i r s 0 n H) as [rest ->].
  eexists. split; [reflexivity|]. by destruct g.
Qed.

Lemma search_first s rx n :
  first_index (fun t => truthy (match_here (ignoreCase rx) (source rx) t)) s n ->
  String_search s rx = Z.of_nat n.
Proof.
  intros H. unfold String_search.
  by destruct (exec_from_first _ _ s 0 n H) as [rest ->].
Qed.

(** ** Literal patterns *)

Lemma m_Lit {A : Type} w : forall s (k : text -> option A),
  m false (Lit w) s k = if startsWith s w then k (drop (length w) s) else None.
Proof.
  induction w as [|c w IH]; intros s k; simpl.
  - by destruct s.
  - destruct s as [|x s]; [done|]. simpl.
    destruct (x =? c)%N; simpl; [apply IH | done].
Qed.

Lemma match_here_Lit w s :
  truthy (match_here false (Lit w) s) = startsWith s w.
Proof.
  unfold match_here. rewrite m_Lit. by destruct (startsWith s w).
Qed.

Lemma match_here_Alt i r1 r2 s :
  truthy (match_here i (Alt r1 r2) s)
  = truthy (match_here i r1 s) || truthy (match_here i r2 s).
Proof.
  unfold match_here. simpl. by destruct (m i r1 s Some).
Qed.

Lemma context_re_at s :
  truthy (match_here false context_re s) = is_context_keyword s.
Proof.
  change context_re
    with (Alt (L "createContext") (Alt (L "useContext") (L ".Provider"))).
  unfold is_context_keyword, L.
  rewrite !match_here_Alt, !match_here_Lit. by rewrite orb_assoc.
Qed.

Lemma routes_re_at s :
  truthy (match_here false routes_re s) = is_routes_marker s.
Proof.
  unfold routes_re, is_routes_marker, L. apply match_here_Lit.
Qed.

Lemma first_index_ext P Q s n :
  (forall t, P t = Q t) -> first_index P s n -> first_index Q s n.
Proof.
  intros E [H1 H2]. split; [by rewrite <- E|].
  intros j Hj. rewrite <- E. by apply H2.
Qed.

(** ** Context placement *)

Lemma contextPlacement_condition content ci ri :
  first_index is_context_keyword content ci ->
  first_index is_routes_marker content ri ->
  exists cp rp,
    RegExp_test (literal context_re false true) content = (true, cp)
    /\ RegExp_test (literal routes_re false true) content = (true, rp)
    /\ String_search content cp = Z.of_nat ci
    /\ String_search content rp = Z.of_nat ri.
Proof.
  intros Hc Hr.
  assert (Hc' : first_index
                  (fun t => truthy (match_here false context_re t)) content ci).
  { eapply first_index_ext; [|exact Hc]. intros t. by rewrite context_re_at. }
  assert (Hr' : first_index
                  (fun t => truthy (match_here false routes_re t)) content ri).
  { eapply first_index_ext; [|exact Hr]. intros t. by rewrite routes_re_at. }
  destruct (test_fresh_true false true _ _ _ Hc') as (cp & Ec & Sc & Ic).
  destruct (test_fresh_true false true _ _ _ Hr') as (rp & Er & Sr & Ir).
  exists cp, rp. repeat split; try assumption.
  - apply search_first. by rewrite Sc, Ic.
  - apply search_first. by rewrite Sr, Ir.
Qed.

(** C4.  For a text that contains a context keyword (createContext,
    useContext or .Provider) and the marker <Routes>, with [ci] and [ri]
    the first indices at which they occur: the context-placement check of
    either variant appends its high-severity issue when [ci < ri], and
    appends nothing otherwise, whatever occurs later in the text. *)
Theorem checkContextPlacement_first_occurrence
    (content filePath : text) (fileIssues : list Issue) (this : Analyzer)
    (ci ri : nat) :
  first_index is_context_keyword content ci ->
  first_index is_routes_marker content ri ->
  (ci < ri ->
   fst (RouteAnalyzer.checkContextPlacement content filePath fileIssues this)
   = fileIssues ++ [context_issue filePath None]
   /\ RouteDebugger.checkContextPlacement content filePath fileIssues
      = fileIssues ++
        [context_issue filePath
           (Some "Move context provider below shell routing but above module routes")])
  /\ (ri <= ci ->
      fst (RouteAnalyzer.checkContextPlacement content filePath fileIssues this)
      = fileIssues
      /\ RouteDebugger.checkContextPlacement content filePath fileIssues
         = fileIssues).
Proof.
  intros Hc Hr.
  destruct (contextPlacement_condition content ci ri Hc Hr)
    as (cp & rp & Ec & Er & Sc & Sr).
  unfold RouteAnalyzer.checkContextPlacement,
    RouteDebugger.checkContextPlacement.
  rewrite Ec, Er, Sc, Sr. simpl andb.
  assert (E1 : (Z.of_nat ci =? -1)%Z = false) by (apply Z.eqb_neq; lia).
  assert (E2 : (Z.of_nat ri =? -1)%Z = false) by (apply Z.eqb_neq; lia).
  rewrite E1, E2. simpl negb. rewrite !andb_true_r.
  split; intros H.
  - assert (E : (Z.of_nat ci <? Z.of_nat ri)%Z = true) by (apply Z.ltb_lt; lia).
    by rewrite E.
  - assert (E : (Z.of_nat ci <? Z.of_nat ri)%Z = false) by (apply Z.ltb_ge; lia).
    by rewrite E.
Qed.

(** ** The two rule sets side by side *)

Lemma same_but_fix_nil : same_but_fix [] [].
Proof. by repeat split. Qed.

Lemma same_but_fix_snoc fs fe s e :
  same_but_fix fs fe -> erase_fix e = s -> fix_ s = None ->
  is_Some (fix_ e) -> same_but_fix (fs ++ [s]) (fe ++ [e]).
Proof.
  intros (Hm & Hs & He) E1 E2 E3. repeat split.
  - rewrite List.map_app. simpl. by rewrite Hm, E1.
  - apply Forall_app. split; [assumption|]. by constructor.
  - apply Forall_app. split; [assumption|]. by constructor.
Qed.

Ltac rule_agree :=
  intros; rule_cases;
  solve [ assumption
        | apply same_but_fix_snoc;
          [assumption | reflexivity | reflexivity | by eexists] ].

Lemma checkDynamicRouteGeneration_agree c p fs fe this :
  same_but_fix fs fe ->
  same_but_fix (fst (RouteAnalyzer.checkDynamicRouteGeneration c p fs this))
               (RouteDebugger.checkDynamicRouteGeneration c p fe).
Proof.
  unfold RouteAnalyzer.checkDynamicRouteGeneration,
    RouteDebugger.checkDynamicRouteGeneration. rule_agree.
Qed.

Lemma checkQueryClientCreation_agree c p fs fe this :
  same_but_fix fs fe ->
  same_but_fix (fst (RouteAnalyzer.checkQueryClientCreation c p fs this))
               (RouteDebugger.checkQueryClientCreation c p fe).
Proof.
  unfold RouteAnalyzer.checkQueryClientCreation,
    RouteDebugger.checkQueryClientCreation. rule_agree.
Qed.

Lemma checkContextPlacement_agree c p fs fe this :
  same_but_fix fs fe ->
  same_but_fix (fst (RouteAnalyzer.checkContextPlacement c p fs this))
               (RouteDebugger.checkContextPlacement c p fe).
Proof.
  unfold RouteAnalyzer.checkContextPlacement,
    RouteDebugger.checkContextPlacement. rule_agree.
Qed.

Lemma checkBlockedNavigation_agree c p fs fe this :
  same_but_fix fs fe ->
  same_but_fix (fst (RouteAnalyzer.checkBlockedNavigation c p fs this))
               (RouteDebugger.checkBlockedNavigation c p fe).
Proof.
  unfold RouteAnalyzer.checkBlockedNavigation,
    RouteDebugger.checkBlockedNavigation. rule_agree.
Qed.

Lemma checkActivityContext_agree c p fs fe this :
  same_but_fix fs fe ->
  same_but_fix (fst (RouteAnalyzer.checkActivityContext c p fs this))
               (RouteDebugger.checkActivityContext c p fe).
Proof.
  unfold RouteAnalyzer.checkActivityContext,
    RouteDebugger.checkActivityContext. rule_agree.
Qed.

Lemma checkMemoization_agree c p fs fe this :
  same_but_fix fs fe ->
  same_but_fix (fst (RouteAnalyzer.checkMemoization c p fs this))
               (RouteDebugger.checkMemoization c p fe).
Proof.
  unfold RouteAnalyzer.checkMemoization, RouteDebugger.checkMemoization.
  rule_agree.
Qed.

Lemma checkAsyncWrapper_agree c p fs fe this :
  same_but_fix fs fe ->
  same_but_fix (fst (RouteAnalyzer.checkAsyncWrapper c p fs this))
               (RouteDebugger.checkAsyncWrapper c p fe).
Proof.
  unfold RouteAnalyzer.checkAsyncWrapper, RouteDebugger.checkAsyncWrapper.
  rule_agree.
Qed.

Lemma checkShellPatterns_agree c p fs fe this :
  same_but_fix fs fe ->
  same_but_fix (fst (RouteAnalyzer.checkShellPatterns c p fs this))
               (RouteDebugger.checkShellPatterns c p fe).
Proof.
  unfold RouteAnalyzer.checkShellPatterns, RouteDebugger.checkShellPatterns.
  rule_agree.
Qed.

Lemma checkPerformancePatterns_agree c p fs fe this :
  same_but_fix fs fe ->
  same_but_fix (fst (RouteAnalyzer.checkPerformancePatterns c p fs this))
               (RouteDebugger.checkPerformancePatterns c p fe).
Proof.
  unfold RouteAnalyzer.checkPerformancePatterns,
    RouteDebugger.checkPerformancePatterns,
    RouteAnalyzer.performancePatterns, RouteDebugger.performancePatterns.
  cbn [fold_left fst]. intros H.
  destruct (RegExp_test (literal consoleLog_re false true) c) as [[] ?];
    destruct (RegExp_test (literal debugger_re false true) c) as [[] ?];
    destruct (RegExp_test (literal jsonClone_re false true) c) as [[] ?];
    cbn [fst];
    repeat (apply same_but_fix_snoc;
            [ | reflexivity | reflexivity | by eexists]);
    assumption.
Qed.

(** The nine checks of the two variants, run on the same text and path,
    give the same issues but for the [fix] strings. *)
Lemma runChecks_agree c p this :
  same_but_fix (fst (RouteAnalyzer.runChecks c p this))
               (RouteDebugger.runChecks c p).
Proof.
  unfold RouteAnalyzer.runChecks, RouteDebugger.runChecks.
  pose proof (checkDynamicRouteGeneration_agree c p [] [] this
                same_but_fix_nil) as H1.
  destruct (RouteAnalyzer.checkDynamicRouteGeneration c p [] this)
    as [f1 t1]; cbn [fst] in H1.
  pose proof (checkQueryClientCreation_agree c p _ _ t1 H1) as H2.
  destruct (RouteAnalyzer.checkQueryClientCreation c p f1 t1)
    as [f2 t2]; cbn [fst] in H2.
  pose proof (checkContextPlacement_agree c p _ _ t2 H2) as H3.
  destruct (RouteAnalyzer.checkContextPlacement c p f2 t2)
    as [f3 t3]; cbn [fst] in H3.
  pose proof (checkBlockedNavigation_agree c p _ _ t3 H3) as H4.
  destruct (RouteAnalyzer.checkBlockedNavigation c p f3 t3)
    as [f4 t4]; cbn [fst] in H4.
  pose proof (checkActivityContext_agree c p _ _ t4 H4) as H5.
  destruct (RouteAnalyzer.checkActivityContext c p f4 t4)
    as [f5 t5]; cbn [fst] in H5.
  pose proof (checkMemoization_agree c p _ _ t5 H5) as H6.
  destruct (RouteAnalyzer.checkMemoization c p f5 t5)
    as [f6 t6]; cbn [fst] in H6.
  pose proof (checkAsyncWrapper_agree c p _ _ t6 H6) as H7.
  destruct (RouteAnalyzer.checkAsyncWrapper c p f6 t6)
    as [f7 t7]; cbn [fst] in H7.
  pose proof (checkShellPatterns_agree c p _ _ t7 H7) as H8.
  destruct (RouteAnalyzer.checkShellPatterns c p f7 t7)
    as [f8 t8]; cbn [fst] in H8.
  exact (checkPerformancePatterns_agree c p _ _ t8 H8).
Qed.

(** C10.  On every text and path the nine checks of the simple variant and
    those of the extended variant emit the same issues in the same order,
    field by field (type, severity, file, message, pattern, count); the
    issues of the extended variant carry a fix string in addition, those of
    the simple variant none. *)
Theorem simple_and_extended_rules_agree
    (content relativePath : text) (this : Analyzer) :
  List.map erase_fix (RouteDebugger.runChecks content relativePath)
  = fst (RouteAnalyzer.runChecks content relativePath this)
  /\ Forall (fun i => fix_ i = None)
       (fst (RouteAnalyzer.runChecks content relativePath this))
  /\ Forall (fun i => is_Some (fix_ i))
       (RouteDebugger.runChecks content relativePath).
Proof.
  exact (runChecks_agree content relativePath this).
Qed.

(** ** What a check of the simple variant does to the analyzer *)

Lemma only_recommends_refl this : only_recommends this this.
Proof. repeat split. exists []. by rewrite app_nil_r. Qed.

Lemma only_recommends_push this r :
  only_recommends this (push_recommendation this r).
Proof. repeat split. by exists [r]. Qed.

Lemma only_recommends_trans a b c :
  only_recommends a b -> only_recommends b c -> only_recommends a c.
Proof.
  intros (I1 & C1 & F1 & L1 & n1 & R1) (I2 & C2 & F2 & L2 & n2 & R2).
  repeat split; try congruence.
  exists (n1 ++ n2). by rewrite R2, R1, app_assoc.
Qed.

Ltac rule_state :=
  intros; rule_cases;
  solve [ apply only_recommends_refl | apply only_recommends_push ].

Lemma runChecks_only_recommends c p this :
  only_recommends this (snd (RouteAnalyzer.runChecks c p this)).
Proof.
  unfold RouteAnalyzer.runChecks.
  assert (H1 : forall f t,
             only_recommends t
               (snd (RouteAnalyzer.checkDynamicRouteGeneration c p f t)))
    by (unfold RouteAnalyzer.checkDynamicRouteGeneration; rule_state).
  assert (H2 : forall f t,
             only_recommends t
               (snd (RouteAnalyzer.checkQueryClientCreation c p f t)))
    by (unfold RouteAnalyzer.checkQueryClientCreation; rule_state).
  assert (H3 : forall f t,
             only_recommends t
               (snd (RouteAnalyzer.checkContextPlacement c p f t)))
    by (unfold RouteAnalyzer.checkContextPlacement; rule_state).
  assert (H4 : forall f t,
             only_recommends t
               (snd (RouteAnalyzer.checkBlockedNavigation c p f t)))
    by (unfold RouteAnalyzer.checkBlockedNavigation; rule_state).
  assert (H5 : forall f t,
             only_recommends t
               (snd (RouteAnalyzer.checkActivityContext c p f t)))
    by (unfold RouteAnalyzer.checkActivityContext; rule_state).
  assert (H6 : forall f t,
             only_recommends t
               (snd (RouteAnalyzer.checkMemoization c p f t)))
    by (unfold RouteAnalyzer.checkMemoization; rule_state).
  assert (H7 : forall f t,
             only_recommends t
               (snd (RouteAnalyzer.checkAsyncWrapper c p f t)))
    by (unfold RouteAnalyzer.checkAsyncWrapper; rule_state).
  assert (H8 : forall f t,
             only_recommends t
               (snd (RouteAnalyzer.checkShellPatterns c p f t)))
    by (unfold RouteAnalyzer.checkShellPatterns; rule_state).
  specialize (H1 [] this).
  destruct (RouteAnalyzer.checkDynamicRouteGeneration c p [] this) as [f1 t1].
  specialize (H2 f1 t1).
  destruct (RouteAnalyzer.checkQueryClientCreation c p f1 t1) as [f2 t2].
  specialize (H3 f2 t2).
  destruct (RouteAnalyzer.checkContextPlacement c p f2 t2) as [f3 t3].
  specialize (H4 f3 t3).
  destruct (RouteAnalyzer.checkBlockedNavigation c p f3 t3) as [f4 t4].
  specialize (H5 f4 t4).
  destruct (RouteAnalyzer.checkActivityContext c p f4 t4) as [f5 t5].
  specialize (H6 f5 t5).
  destruct (RouteAnalyzer.checkMemoization c p f5 t5) as [f6 t6].
  specialize (H7 f6 t6).
  destruct (RouteAnalyzer.checkAsyncWrapper c p f6 t6) as [f7 t7].
  specialize (H8 f7 t7).
  destruct (RouteAnalyzer.checkShellPatterns c p f7 t7) as [f8 t8].
  cbn [snd] in *.
  repeat (eapply only_recommends_trans; [eassumption|]).
  apply only_recommends_refl.
Qed.

(** The issues of the simple checks do not depend on the analyzer. *)
Lemma runChecks_issues_any_state c p this1 this2 :
  fst (RouteAnalyzer.runChecks c p this1)
  = fst (RouteAnalyzer.runChecks c p this2).
Proof.
  destruct (runChecks_agree c p this1) as (E1 & _).
  destruct (runChecks_agree c p this2) as (E2 & _).
  congruence.
Qed.

(** ** What the analysis of one file does *)

Lemma simple_analyze_unreadable p f this :
  readFileSync f = None ->
  RouteAnalyzer.analyzeRouteFile p f this = log_call this (ReadFile p).
Proof.
  intros H. unfold RouteAnalyzer.analyzeRouteFile. by rewrite H.
Qed.

Lemma simple_analyze_readable p f c this :
  readFileSync f = Some c ->
  let this' := RouteAnalyzer.analyzeRouteFile p f this in
  let found := fst (RouteAnalyzer.runChecks c (relative p) new_Analyzer) in
  issues this' = issues this ++ found
  /\ (exists new, recommendations this' = recommendations this ++ new)
  /\ routeConfigs this' = routeConfigs this
  /\ fsLog this' = fsLog this ++ [ReadFile p]
  /\ total (fileStats this') = total (fileStats this)
  /\ analyzed (fileStats this') = analyzed (fileStats this) + 1
  /\ withIssues (fileStats this')
     = withIssues (fileStats this) + (if 0 <? length found then 1 else 0).
Proof.
  intros H. unfold RouteAnalyzer.analyzeRouteFile. rewrite H. cbv zeta.
  set (t0 := incr_analyzed (log_call this (ReadFile p))).
  pose proof (runChecks_only_recommends c (relative p) t0)
    as (I & C & F & Lg & new & R).
  rewrite (runChecks_issues_any_state c (relative p) new_Analyzer t0).
  destruct (RouteAnalyzer.runChecks c (relative p) t0) as [fi t1].
  cbn [fst snd] in *.
  destruct (0 <? length fi); simpl;
    rewrite ?I, ?C, ?F, ?Lg, ?R; simpl;
    repeat split; eauto; lia.
Qed.

Lemma extended_analyze_unreadable p f this :
  readFileSync f = None ->
  RouteDebugger.analyzeRouteFile p f this = log_call this (ReadFile p).
Proof.
  intros H. unfold RouteDebugger.analyzeRouteFile. by rewrite H.
Qed.

Lemma extended_analyze_readable p f c this :
  readFileSync f = Some c ->
  let this' := RouteDebugger.analyzeRouteFile p f this in
  let found := RouteDebugger.runChecks c (relative p) in
  issues this' = issues this ++ found
  /\ recommendations this' = recommendations this
  /\ routeConfigs this'
     = routeConfigs this ++ [RouteDebugger.extractRouteConfig c (relative p)]
  /\ fsLog this' = fsLog this ++ [ReadFile p]
  /\ total (fileStats this') = total (fileStats this)
  /\ analyzed (fileStats this') = analyzed (fileStats this) + 1
  /\ withIssues (fileStats this')
     = withIssues (fileStats this) + (if 0 <? length found then 1 else 0).
Proof.
  intros H. unfold RouteDebugger.analyzeRouteFile. rewrite H. cbv zeta.
  destruct (0 <? length (RouteDebugger.runChecks c (relative p))); simpl;
    repeat split; lia.
Qed.

(** ** The walk over the directory tree *)

Lemma Dirent_ind (P : Dirent -> Prop) :
  (forall name content, P (FileEnt name content)) ->
  (forall name, P (DirEnt name None)) ->
  (forall name files, Forall P files -> P (DirEnt name (Some files))) ->
  forall d, P d.
Proof.
  intros Hf Hn Hd. fix IH 1. intros [name content | name [files|]].
  - apply Hf.
  - apply Hd. induction files as [|f files IHfiles]; constructor.
    + apply IH.
    + apply IHfiles.
  - apply Hn.
Qed.

Lemma fold_left_invariant {A B : Type} (P : A -> Prop) (step : A -> B -> A)
    (l : list B) :
  Forall (fun b => forall a, P a -> P (step a b)) l ->
  forall a, P a -> P (fold_left step l a).
Proof.
  induction 1 as [|b l Hb _ IH]; simpl; intros a Ha; [assumption|].
  apply IH. by apply Hb.
Qed.

Lemma Forall_snoc {A : Type} (P : A -> Prop) l x :
  Forall P l -> P x -> Forall P (l ++ [x]).
Proof.
  intros Hl Hx. apply Forall_app. split; [assumption | by constructor].
Qed.

Section WalkInvariant.

Variable P : Analyzer -> Prop.

(** Reading a directory below unskipped names keeps [P]. *)
Hypothesis P_readdir : forall this dir,
  Forall not_skipped dir -> P this -> P (log_call this (Readdir dir)).

Section Simple.

Hypothesis P_file : forall this dir file,
  Forall not_skipped dir ->
  RouteAnalyzer.isRelevantFile (dirent_name file) = true ->
  P this ->
  P (RouteAnalyzer.analyzeRouteFile (dir ++ [dirent_name file]) file
       (incr_total this)).

Lemma simple_visit_invariant file : forall dir this,
  Forall not_skipped dir -> P this ->
  P (RouteAnalyzer.visit dir file this).
Proof.
  induction file as [name content | name | name files IH]
    using Dirent_ind; intros dir this Hdir Hthis; simpl.
  - destruct (RouteAnalyzer.isRelevantFile name) eqn:E; [|assumption].
    by apply (P_file this dir (FileEnt name content)).
  - destruct (RouteAnalyzer.shouldSkipDirectory name) eqn:S; simpl.
    + destruct (RouteAnalyzer.isRelevantFile name) eqn:E; [|assumption].
      by apply (P_file this dir (DirEnt name None)).
    + apply P_readdir; [|assumption]. by apply Forall_snoc.
  - destruct (RouteAnalyzer.shouldSkipDirectory name) eqn:S; simpl.
    + destruct (RouteAnalyzer.isRelevantFile name) eqn:E; [|assumption].
      by apply (P_file this dir (DirEnt name (Some files))).
    + assert (Hd : Forall not_skipped (dir ++ [name]))
        by (by apply Forall_snoc).
      apply fold_left_invariant.
      * eapply Forall_impl; [exact IH|]. simpl. intros f Hf a Ha.
        by apply Hf.
      * by apply P_readdir.
Qed.

Lemma simple_findRouteFiles_invariant root this :
  P this -> P (RouteAnalyzer.findRouteFiles root this).
Proof.
  intros Hthis. unfold RouteAnalyzer.findRouteFiles.
  assert (H0 : P (log_call this (Readdir [])))
    by (by apply P_readdir).
  destruct root as [name content | name [files|]]; try assumption.
  apply fold_left_invariant; [|assumption].
  apply Forall_forall. intros f _ a Ha.
  by apply simple_visit_invariant.
Qed.

End Simple.

Section Extended.

Hypothesis P_file : forall this dir file,
  Forall not_skipped dir ->
  RouteDebugger.isRelevantFile (dirent_name file) = true ->
  P this ->
  P (RouteDebugger.analyzeRouteFile (dir ++ [dirent_name file]) file
       this).

Lemma extended_visit_invariant file : forall dir this,
  Forall not_skipped dir -> P this ->
  P (RouteDebugger.visit dir file this).
Proof.
  induction file as [name content | name | name files IH]
    using Dirent_ind; intros dir this Hdir Hthis; simpl.
  - destruct (RouteDebugger.isRelevantFile name) eqn:E; [|assumption].
    by apply (P_file this dir (FileEnt name content)).
  - destruct (RouteDebugger.shouldSkipDirectory name) eqn:S; simpl.
    + destruct (RouteDebugger.isRelevantFile name) eqn:E; [|assumption].
      by apply (P_file this dir (DirEnt name None)).
    + apply P_readdir; [|assumption]. by apply Forall_snoc.
  - destruct (RouteDebugger.shouldSkipDirectory name) eqn:S; simpl.
    + destruct (RouteDebugger.isRelevantFile name) eqn:E; [|assumption].
      by apply (P_file this dir (DirEnt name (Some files))).
    + assert (Hd : Forall not_skipped (dir ++ [name]))
        by (by apply Forall_snoc).
      apply fold_left_invariant.
      * eapply Forall_impl; [exact IH|]. simpl. intros f Hf a Ha.
        by apply Hf.
      * by apply P_readdir.
Qed.

Lemma extended_findRouteFiles_invariant root this :
  P this -> P (RouteDebugger.findRouteFiles root this).
Proof.
  intros Hthis. unfold RouteDebugger.findRouteFiles.
  assert (H0 : P (log_call this (Readdir [])))
    by (by apply P_readdir).
  destruct root as [name content | name [files|]]; try assumption.
  apply fold_left_invariant; [|assumption].
  apply Forall_forall. intros f _ a Ha.
  by apply extended_visit_invariant.
Qed.

End Extended.

End WalkInvariant.

(** ** Severities *)

Ltac rule_severity :=
  intros; rule_cases; try assumption;
  (apply Forall_snoc;
   [assumption | unfold severity_ok, severities; simpl; tauto]).

Lemma extended_runChecks_severity c p :
  Forall severity_ok (RouteDebugger.runChecks c p).
Proof.
  unfold RouteDebugger.runChecks.
  assert (H1 : forall f, Forall severity_ok f ->
             Forall severity_ok
               (RouteDebugger.checkDynamicRouteGeneration c p f))
    by (unfold RouteDebugger.checkDynamicRouteGeneration; rule_severity).
  assert (H2 : forall f, Forall severity_ok f ->
             Forall severity_ok (RouteDebugger.checkQueryClientCreation c p f))
    by (unfold RouteDebugger.checkQueryClientCreation; rule_severity).
  assert (H3 : forall f, Forall severity_ok f ->
             Forall severity_ok (RouteDebugger.checkContextPlacement c p f))
    by (unfold RouteDebugger.checkContextPlacement; rule_severity).
  assert (H4 : forall f, Forall severity_ok f ->
             Forall severity_ok (RouteDebugger.checkBlockedNavigation c p f))
    by (unfold RouteDebugger.checkBlockedNavigation; rule_severity).
  assert (H5 : forall f, Forall severity_ok f ->
             Forall severity_ok (RouteDebugger.checkActivityContext c p f))
    by (unfold RouteDebugger.checkActivityContext; rule_severity).
  assert (H6 : forall f, Forall severity_ok f ->
             Forall severity_ok (RouteDebugger.checkMemoization c p f))
    by (unfold RouteDebugger.checkMemoization; rule_severity).
  assert (H7 : forall f, Forall severity_ok f ->
             Forall severity_ok (RouteDebugger.checkAsyncWrapper c p f))
    by (unfold RouteDebugger.checkAsyncWrapper; rule_severity).
  assert (H8 : forall f, Forall severity_ok f ->
             Forall severity_ok (RouteDebugger.checkShellPatterns c p f))
    by (unfold RouteDebugger.checkShellPatterns; rule_severity).
  assert (H9 : forall f, Forall severity_ok f ->
             Forall severity_ok (RouteDebugger.checkPerformancePatterns c p f)).
  { intros f Hf. unfold RouteDebugger.checkPerformancePatterns,
      RouteDebugger.performancePatterns. cbn [fold_left].
    destruct (RegExp_test (literal consoleLog_re false true) c) as [[] ?];
      destruct (RegExp_test (literal debugger_re false true) c) as [[] ?];
      destruct (RegExp_test (literal jsonClone_re false true) c) as [[] ?];
      cbn [fst];
      repeat (apply Forall_snoc;
              [|unfold severity_ok, severities; simpl; tauto]);
      assumption. }
  apply H9, H8, H7, H6, H5, H4, H3, H2, H1. constructor.
Qed.

Lemma simple_runChecks_severity c p this :
  Forall severity_ok (fst (RouteAnalyzer.runChecks c p this)).
Proof.
  destruct (runChecks_agree c p this) as (<- & _).
  apply Forall_map. eapply Forall_impl; [apply extended_runChecks_severity|].
  by intros [].
Qed.

Lemma generateRecommendations_keeps this :
  issues (RouteDebugger.generateRecommendations this) = issues this
  /\ fileStats (RouteDebugger.generateRecommendations this) = fileStats this
  /\ routeConfigs (RouteDebugger.generateRecommendations this)
     = routeConfigs this
  /\ fsLog (RouteDebugger.generateRecommendations this) = fsLog this.
Proof.
  unfold RouteDebugger.generateRecommendations.
  repeat match goal with
         | |- context [if ?b then _ else _] => destruct b
         end; by simpl.
Qed.

Lemma simple_run_severity root :
  Forall severity_ok (issues (RouteAnalyzer.run root)).
Proof.
  unfold RouteAnalyzer.run.
  apply (simple_findRouteFiles_invariant
           (fun this => Forall severity_ok (issues this))).
  - by intros.
  - intros this dir file _ _ H.
    destruct (readFileSync file) as [c|] eqn:E.
    + destruct (simple_analyze_readable (dir ++ [dirent_name file]) _ _
                  (incr_total this) E) as (-> & _).
      apply Forall_app. split; [assumption|].
      apply simple_runChecks_severity.
    + by rewrite simple_analyze_unreadable.
  - constructor.
Qed.

Lemma extended_run_severity root :
  Forall severity_ok (issues (RouteDebugger.run root)).
Proof.
  unfold RouteDebugger.run.
  destruct (generateRecommendations_keeps
              (RouteDebugger.findRouteFiles root new_Analyzer)) as (-> & _).
  apply (extended_findRouteFiles_invariant
           (fun this => Forall severity_ok (issues this))).
  - by intros.
  - intros this dir file _ _ H.
    destruct (readFileSync file) as [c|] eqn:E.
    + destruct (extended_analyze_readable (dir ++ [dirent_name file]) _ _
                  this E) as (-> & _).
      apply Forall_app. split; [assumption|].
      apply extended_runChecks_severity.
    + by rewrite extended_analyze_unreadable.
  - constructor.
Qed.

Lemma severity_total_step (bySeverity : gmap string nat) (i : Issue) :
  severity_ok i ->
  severity_total
    (<[severity i := default 0 (bySeverity !! severity i) + 1]> bySeverity)
  = severity_total bySeverity + 1.
Proof.
  unfold severity_ok, severities, severity_total. simpl.
  intros [<- | [<- | [<- | []]]];
    rewrite ?lookup_insert_eq, ?lookup_insert_ne by done; simpl; lia.
Qed.

Lemma severity_total_fold (l : list Issue) :
  Forall severity_ok l ->
  forall bySeverity : gmap string nat,
    severity_total
      (fold_left
         (fun bySeverity issue =>
            <[severity issue := default 0 (bySeverity !! severity issue) + 1]>
              bySeverity)
         l bySeverity)
    = severity_total bySeverity + length l.
Proof.
  induction 1 as [|i l Hi _ IH]; intros bySeverity; simpl; [lia|].
  rewrite IH, severity_total_step by assumption. lia.
Qed.

Lemma severity_total_initial :
  severity_total (<["high" := 0]> (<["medium" := 0]> (<["low" := 0]> ∅))) = 0.
Proof.
  unfold severity_total.
  by rewrite ?lookup_insert_eq, ?lookup_insert_ne, ?lookup_insert_eq by done.
Qed.

(** C6.  After a run of either variant every issue has one of the three
    severities high, medium and low, and the three counters of
    [getIssuesBySeverity] add up to the number of issues. *)
Theorem issuesBySeverity_accounts_for_every_issue (root : Dirent) :
  let simple := RouteAnalyzer.run root in
  let extended := RouteDebugger.run root in
  Forall severity_ok (issues simple)
  /\ Forall severity_ok (issues extended)
  /\ severity_total (RouteAnalyzer.getIssuesBySeverity simple)
     = length (issues simple)
  /\ severity_total (RouteDebugger.getIssuesBySeverity extended)
     = length (issues extended).
Proof.
  cbv zeta.
  pose proof (simple_run_severity root) as Hs.
  pose proof (extended_run_severity root) as He.
  repeat split; try assumption.
  - unfold RouteAnalyzer.getIssuesBySeverity.
    by rewrite severity_total_fold, severity_total_initial.
  - unfold RouteDebugger.getIssuesBySeverity.
    by rewrite severity_total_fold, severity_total_initial.
Qed.

Lemma checkContextPlacement_first_occurrence_witness :
  let content := str "<Routes> useContext and later .Provider" in
  first_index is_context_keyword content 9
  /\ first_index is_routes_marker content 0
  /\ fst (RouteAnalyzer.checkContextPlacement content (str "AppRoutes.tsx")
            [] new_Analyzer) = []
  /\ RouteDebugger.checkContextPlacement content (str "AppRoutes.tsx") [] = [].
Proof.
  cbv zeta.
  assert (Hc : first_index is_context_keyword
                 (str "<Routes> useContext and later .Provider") 9).
  { split; [reflexivity|]. intros j Hj.
    do 9 (destruct j as [|j]; [reflexivity|]). lia. }
  assert (Hr : first_index is_routes_marker
                 (str "<Routes> useContext and later .Provider") 0).
  { split; [reflexivity|]. intros j Hj. lia. }
  split; [exact Hc|]. split; [exact Hr|].
  apply (proj2 (checkContextPlacement_first_occurrence
                  (str "<Routes> useContext and later .Provider")
                  (str "AppRoutes.tsx") [] new_Analyzer 9 0 Hc Hr)).
  lia.
Defined.

(** ** Determinism of the rule set *)

(** A pattern object with the g flag carries state from one [test] to the
    next: used twice on the same text, the same object answers true and
    then false.  The checks evaluate their pattern literals anew at every
    call, so no such object outlives a call. *)
Example global_test_is_stateful :
  let rx := literal debugger_re false true in
  let '(first, rx') := RegExp_test rx (str "debugger") in
  let '(second, _) := RegExp_test rx' (str "debugger") in
  first = true /\ lastIndex rx' = 8 /\ second = false.
Proof. vm_compute. by repeat split. Qed.

(** C9.  Analysing the same text under the same path twice appends the
    same ordered list of issues twice, in either variant, and that list is
    what the nine checks give on the text and the path from any analyzer
    state whatever: nothing is carried from one evaluation to the next. *)
Theorem rule_evaluation_is_deterministic
    (content name : text) (filePath : list text) (this any : Analyzer) :
  let file := FileEnt name (Some content) in
  let simple1 := RouteAnalyzer.analyzeRouteFile filePath file this in
  let simple2 := RouteAnalyzer.analyzeRouteFile filePath file simple1 in
  let extended1 := RouteDebugger.analyzeRouteFile filePath file this in
  let extended2 := RouteDebugger.analyzeRouteFile filePath file extended1 in
  let found_simple :=
    fst (RouteAnalyzer.runChecks content (relative filePath) any) in
  let found_extended := RouteDebugger.runChecks content (relative filePath) in
  issues simple1 = issues this ++ found_simple
  /\ issues simple2 = issues simple1 ++ found_simple
  /\ issues extended1 = issues this ++ found_extended
  /\ issues extended2 = issues extended1 ++ found_extended.
Proof.
  cbv zeta.
  rewrite (runChecks_issues_any_state content (relative filePath) any
             new_Analyzer).
  assert (E : readFileSync (FileEnt name (Some content)) = Some content)
    by reflexivity.
  repeat split.
  - by destruct (simple_analyze_readable filePath _ _ this E) as (-> & _).
  - by destruct (simple_analyze_readable filePath _ _
                   (RouteAnalyzer.analyzeRouteFile filePath
                      (FileEnt name (Some content)) this) E) as (-> & _).
  - by destruct (extended_analyze_readable filePath _ _ this E) as (-> & _).
  - by destruct (extended_analyze_readable filePath _ _
                   (RouteDebugger.analyzeRouteFile filePath
                      (FileEnt name (Some content)) this) E) as (-> & _).
Qed.

(** ** The file statistics *)

Lemma simple_fileStats_invariant root :
  let f := fileStats (RouteAnalyzer.run root) in
  analyzed f <= total f /\ withIssues f <= analyzed f.
Proof.
  cbv zeta. unfold RouteAnalyzer.run.
  apply (simple_findRouteFiles_invariant
           (fun this => analyzed (fileStats this) <= total (fileStats this)
                        /\ withIssues (fileStats this)
                           <= analyzed (fileStats this))).
  - by intros.
  - intros this dir file _ _ [H1 H2].
    destruct (readFileSync file) as [c|] eqn:E.
    + destruct (simple_analyze_readable (dir ++ [dirent_name file]) _ _
                  (incr_total this) E) as (_ & _ & _ & _ & -> & -> & ->).
      simpl. destruct (0 <? _); lia.
    + rewrite simple_analyze_unreadable by assumption. simpl. lia.
  - simpl. lia.
Qed.

Lemma extended_fileStats_invariant root :
  let f := fileStats (RouteDebugger.run root) in
  total f = 0 /\ withIssues f <= analyzed f.
Proof.
  cbv zeta. unfold RouteDebugger.run.
  destruct (generateRecommendations_keeps
              (RouteDebugger.findRouteFiles root new_Analyzer))
    as (_ & -> & _).
  apply (extended_findRouteFiles_invariant
           (fun this => total (fileStats this) = 0
                        /\ withIssues (fileStats this)
                           <= analyzed (fileStats this))).
  - by intros.
  - intros this dir file _ _ [H1 H2].
    destruct (readFileSync file) as [c|] eqn:E.
    + destruct (extended_analyze_readable (dir ++ [dirent_name file]) _ _
                  this E) as (_ & _ & _ & _ & -> & -> & ->).
      destruct (0 <? _); lia.
    + rewrite extended_analyze_unreadable by assumption. simpl. lia.
  - simpl. lia.
Qed.

(** C1.  The extended variant never counts a candidate file: on a
    directory that holds the one readable file routes.js its run ends with
    [analyzed = 1] and [total = 0], so that [analyzed <= total] fails,
    where the simple variant ends with [total = 1]. *)
Theorem extended_total_is_never_counted :
  let root := DirEnt (str "project") (Some [FileEnt (str "routes.js")
                                              (Some (str "export {}"))]) in
  fileStats (RouteDebugger.run root) = mkFileStats 0 1 0
  /\ ~ (analyzed (fileStats (RouteDebugger.run root))
        <= total (fileStats (RouteDebugger.run root)))
  /\ fileStats (RouteAnalyzer.run root) = mkFileStats 1 1 0.
Proof.
  cbv zeta.
  assert (E : fileStats
                (RouteDebugger.run
                   (DirEnt (str "project")
                      (Some [FileEnt (str "routes.js")
                               (Some (str "export {}"))])))
              = mkFileStats 0 1 0) by (vm_compute; reflexivity).
  rewrite E. simpl. split; [reflexivity|]. split; [lia|].
  vm_compute. reflexivity.
Qed.

(** ** Texts *)

Lemma text_eqb_eq a b : text_eqb a b = true <-> a = b.
Proof.
  revert b. induction a as [|x a IH]; intros [|y b]; simpl; split;
    try done.
  - intros H. apply andb_true_iff in H as [H1 H2].
    apply N.eqb_eq in H1. apply IH in H2. by subst.
  - intros H. inversion H; subst. rewrite N.eqb_refl. simpl. by apply IH.
Qed.

Lemma startsWith_app s p : startsWith s p = true <-> exists rest, s = p ++ rest.
Proof.
  revert s. induction p as [|c p IH]; intros s.
  - split; [|by destruct s]. intros _. by exists s.
  - destruct s as [|x s]; cbn [startsWith].
    + split; [done|]. by intros [rest H].
    + rewrite andb_true_iff, N.eqb_eq, IH. split.
      * intros [-> [rest ->]]. by exists rest.
      * intros [rest H]. inversion H; subst. split; [done | by exists rest].
Qed.

Lemma startsWith_map f s p :
  startsWith s p = true -> startsWith (List.map f s) (List.map f p) = true.
Proof.
  rewrite !startsWith_app. intros [rest ->].
  exists (List.map f rest). apply List.map_app.
Qed.

Lemma startsWith_prefix s p q :
  startsWith s (p ++ q) = true -> startsWith s p = true.
Proof.
  rewrite !startsWith_app. intros [rest ->].
  exists (q ++ rest). by rewrite app_assoc.
Qed.

Lemma exists_at_ext P Q s :
  (forall t, P t = Q t) -> exists_at P s = exists_at Q s.
Proof.
  intros E. induction s as [|x s IH]; simpl; rewrite E; [done|].
  by rewrite IH.
Qed.

Lemma exists_at_orb P Q s :
  exists_at (fun t => P t || Q t) s = exists_at P s || exists_at Q s.
Proof.
  induction s as [|x s IH]; simpl.
  - by rewrite !orb_false_r.
  - rewrite IH. destruct (P (x :: s)), (Q (x :: s)), (exists_at P s); done.
Qed.

Lemma exists_at_impl P Q s :
  (forall t, P t = true -> Q t = true) ->
  exists_at P s = true -> exists_at Q s = true.
Proof.
  intros E. induction s as [|x s IH]; simpl; rewrite !orb_true_iff.
  - intros [H|H]; [|done]. left. by apply E.
  - intros [H|H]; [left; by apply E | right; by apply IH].
Qed.

Lemma exists_at_drop P s :
  exists_at P s = true <-> exists n, P (drop n s) = true.
Proof.
  induction s as [|x s IH]; simpl.
  - rewrite orb_false_r. split.
    + intros H. by exists 0.
    + intros [n H]. by rewrite drop_nil in H.
  - rewrite orb_true_iff, IH. split.
    + intros [H | [n H]]; [by exists 0 | by exists (S n)].
    + intros [[|n] H]; [by left | right; by exists n].
Qed.

Lemma includes_exists_at s p :
  includes s p = exists_at (fun t => startsWith t p) s.
Proof.
  induction s as [|x s IH]; simpl; [done|]. by rewrite IH.
Qed.

Lemma includes_map f s p :
  includes (List.map f s) p
  = exists_at (fun t => startsWith (List.map f t) p) s.
Proof.
  induction s as [|x s IH]; simpl; [done|]. by rewrite IH.
Qed.

Lemma exec_from_truthy i r s a :
  truthy (exec_from i r s a)
  = exists_at (fun t => truthy (match_here i r t)) s.
Proof.
  revert a. induction s as [|x s IH]; intros a; simpl.
  - by destruct (match_here i r []).
  - destruct (match_here i r (x :: s)); [done|]. simpl. apply IH.
Qed.

(** Without the g flag [match] is truthy exactly when the pattern matches
    somewhere. *)
Lemma match_truthy i r s :
  truthy (String_match s (literal r i false))
  = exists_at (fun t => truthy (match_here i r t)) s.
Proof.
  rewrite <- (exec_from_truthy i r s 0). unfold String_match. simpl.
  by destruct (exec_from i r s 0) as [[idx rest]|].
Qed.

(** ** The patterns on file names *)

Lemma chr_eqb_lower x c : chr_eqb true x c = (lower x =? lower c)%N.
Proof.
  unfold chr_eqb, canonicalize, lower.
  destruct (N.leb_spec 97 x), (N.leb_spec x 122), (N.leb_spec 97 c),
    (N.leb_spec c 122), (N.leb_spec 65 x), (N.leb_spec x 90),
    (N.leb_spec 65 c), (N.leb_spec c 90); cbn [andb]; try lia;
    repeat match goal with
           | |- context [(?a =? ?b)%N] => destruct (N.eqb_spec a b)
           end; try reflexivity; lia.
Qed.

Lemma m_Lit_ignoreCase {A : Type} w : forall s (k : text -> option A),
  m true (Lit w) s k
  = if startsWith (List.map lower s) (List.map lower w)
    then k (drop (length w) s) else None.
Proof.
  induction w as [|c w IH]; intros s k; cbn [Lit m List.map].
  - by destruct s.
  - destruct s as [|x s]; [done|]. cbn [List.map startsWith length drop].
    rewrite chr_eqb_lower.
    destruct (lower x =? lower c)%N; simpl; [apply IH | done].
Qed.

Lemma match_here_Lit_ignoreCase w s :
  truthy (match_here true (Lit w) s)
  = startsWith (List.map lower s) (List.map lower w).
Proof.
  unfold match_here. rewrite m_Lit_ignoreCase. by destruct (startsWith _ _).
Qed.

Lemma routeName_re_at t :
  truthy (match_here true routeName_re t)
  = startsWith (List.map lower t) (str "route").
Proof.
  change routeName_re with (Alt (L "route") (L "Route")). unfold L.
  rewrite match_here_Alt, !match_here_Lit_ignoreCase.
  change (List.map lower (str "route")) with (str "route").
  change (List.map lower (str "Route")) with (str "route").
  apply orb_diag.
Qed.

Lemma Matches_Lit w s s' : Matches false (Lit w) s s' -> s = w ++ s'.
Proof.
  revert s. induction w as [|c w IH]; intros s H; simpl in H.
  - by inversion H.
  - inversion H as [| | |r1 r2 t t1 t2 H1 H2| | | | | | |]; subst.
    inversion H1 as [|c' x u E| | | | | | | | |]; subst.
    simpl in E. apply N.eqb_eq in E. subst. simpl. f_equal. by apply IH.
Qed.

Lemma Matches_Opt_Lit w s s' :
  Matches false (Opt (Lit w)) s s' -> s = w ++ s' \/ s = s'.
Proof.
  intros H. inversion H; subst; [left; by apply Matches_Lit | by right].
Qed.

Lemma Matches_Eos i s s' : Matches i Eos s s' -> s = [] /\ s' = [].
Proof. by inversion 1. Qed.

Lemma routesFile_re_at t :
  truthy (match_here false routesFile_re t) = true ->
  startsWith t (str "Routes.ts") = true.
Proof.
  intros H. apply match_here_iff in H as [s' H].
  change routesFile_re
    with (Seq (L "Routes.ts") (Seq (Opt (L "x")) Eos)) in H.
  inversion H as [| | |r1 r2 u u1 u2 H1 H2| | | | | | |]; subst.
  apply Matches_Lit in H1. apply startsWith_app. by eexists.
Qed.

Lemma scriptExt_re_at t :
  truthy (match_here false scriptExt_re t)
  = text_eqb t (str ".ts") || text_eqb t (str ".tsx")
    || text_eqb t (str ".js") || text_eqb t (str ".jsx").
Proof.
  apply eq_true_iff_eq. rewrite !orb_true_iff, !text_eqb_eq. split.
  - intros H. apply match_here_iff in H as [s' H].
    change scriptExt_re
      with (Seq (L ".")
              (Seq (Alt (Seq (L "ts") (Opt (L "x")))
                        (Seq (L "js") (Opt (L "x")))) Eos)) in H.
    inversion H as [| | |r1 r2 u u1 u2 H1 H2| | | | | | |]; subst.
    apply Matches_Lit in H1. subst.
    inversion H2 as [| | |r1 r2 u u3 u4 H3 H4| | | | | | |]; subst.
    apply Matches_Eos in H4 as [-> ->].
    inversion H3 as [| | | |r1 r2 u u' H5|r1 r2 u u' H5| | | | |]; subst;
      inversion H5 as [| | |r1 r2 u u5 u6 H6 H7| | | | | | |]; subst;
      apply Matches_Lit in H6; subst;
      apply Matches_Opt_Lit in H7 as [-> | ->]; tauto.
  - intros [[[-> | ->] | ->] | ->]; reflexivity.
Qed.

Lemma endsWith_Routes_contains_route t p :
  In p [str "Routes.ts"; str "Routes.tsx"; str "Routesx.ts";
        str "Routesx.tsx"] ->
  text_eqb t p = true ->
  startsWith (List.map lower t) (str "route") = true.
Proof.
  intros Hp E. apply text_eqb_eq in E. subst t. simpl in Hp.
  destruct Hp as [<- | [<- | [<- | [<- | []]]]]; reflexivity.
Qed.

(** The relevance test of the code is the relevance predicate. *)
Lemma isRelevantFile_predicate fileName :
  RouteAnalyzer.isRelevantFile fileName = relevance_predicate fileName
  /\ RouteDebugger.isRelevantFile fileName = relevance_predicate fileName.
Proof.
  assert (E : RouteAnalyzer.isRelevantFile fileName
              = relevance_predicate fileName); [|by split].
  unfold RouteAnalyzer.isRelevantFile, relevance_predicate.
  rewrite !match_truthy.
  rewrite (exists_at_ext _ _ fileName routeName_re_at).
  rewrite (exists_at_ext _ _ fileName scriptExt_re_at).
  rewrite !exists_at_orb, <- includes_map.
  fold (endsWith fileName (str ".ts")). fold (endsWith fileName (str ".tsx")).
  fold (endsWith fileName (str ".js")). fold (endsWith fileName (str ".jsx")).
  cbn [existsb].
  assert (HB : exists_at (fun t => truthy (match_here false routesFile_re t))
                 fileName = true ->
               includes (List.map lower fileName) (str "route") = true).
  { rewrite includes_map. apply exists_at_impl. intros t H.
    apply routesFile_re_at in H.
    apply (startsWith_prefix t (str "Route") (str "s.ts")) in H.
    by apply (startsWith_map lower) in H. }
  assert (HS : forall p,
             In p [str "Routes.ts"; str "Routes.tsx"; str "Routesx.ts";
                   str "Routesx.tsx"] ->
             endsWith fileName p = true ->
             includes (List.map lower fileName) (str "route") = true).
  { intros p Hp. rewrite includes_map. apply exists_at_impl. intros t.
    by apply endsWith_Routes_contains_route. }
  pose proof (HS (str "Routes.ts") ltac:(simpl; tauto)) as S1.
  pose proof (HS (str "Routes.tsx") ltac:(simpl; tauto)) as S2.
  pose proof (HS (str "Routesx.ts") ltac:(simpl; tauto)) as S3.
  pose proof (HS (str "Routesx.tsx") ltac:(simpl; tauto)) as S4.
  destruct (includes (List.map lower fileName) (str "route")).
  - cbn [orb andb].
    destruct (endsWith fileName (str ".ts")),
      (endsWith fileName (str ".tsx")), (endsWith fileName (str ".js")),
      (endsWith fileName (str ".jsx")); reflexivity.
  - destruct (exists_at _ fileName); [by specialize (HB eq_refl)|].
    destruct (endsWith fileName (str "Routes.ts"));
      [by specialize (S1 eq_refl)|].
    destruct (endsWith fileName (str "Routes.tsx"));
      [by specialize (S2 eq_refl)|].
    destruct (endsWith fileName (str "Routesx.ts"));
      [by specialize (S3 eq_refl)|].
    destruct (endsWith fileName (str "Routesx.tsx"));
      [by specialize (S4 eq_refl)|].
    reflexivity.
Qed.

(** No name of the skip list is a relevant file name. *)
Lemma skipped_name_not_relevant name :
  array_includes skipDirs name = true ->
  RouteAnalyzer.isRelevantFile name = false.
Proof.
  unfold array_includes, skipDirs. cbn [existsb].
  rewrite !orb_true_iff, !text_eqb_eq.
  intros [-> | [-> | [-> | [-> | [-> | [-> | H]]]]]];
    [reflexivity .. | discriminate].
Qed.

(** ** The file system calls of a walk *)

Lemma simple_analyze_fsLog p f this :
  fsLog (RouteAnalyzer.analyzeRouteFile p f this)
  = fsLog this ++ [ReadFile p].
Proof.
  destruct (readFileSync f) as [c|] eqn:E.
  - by destruct (simple_analyze_readable p f c this E)
      as (_ & _ & _ & -> & _).
  - by rewrite simple_analyze_unreadable.
Qed.

Lemma extended_analyze_fsLog p f this :
  fsLog (RouteDebugger.analyzeRouteFile p f this)
  = fsLog this ++ [ReadFile p].
Proof.
  destruct (readFileSync f) as [c|] eqn:E.
  - by destruct (extended_analyze_readable p f c this E)
      as (_ & _ & _ & -> & _).
  - by rewrite extended_analyze_unreadable.
Qed.

Lemma simple_calls_ok root :
  Forall (call_ok RouteAnalyzer.isRelevantFile)
    (fsLog (RouteAnalyzer.run root)).
Proof.
  unfold RouteAnalyzer.run.
  apply (simple_findRouteFiles_invariant
           (fun this => Forall (call_ok RouteAnalyzer.isRelevantFile)
                          (fsLog this))).
  - intros this dir Hdir H. simpl. by apply Forall_snoc.
  - intros this dir file Hdir Hrel H. rewrite simple_analyze_fsLog. simpl.
    apply Forall_snoc; [assumption|]. simpl. by exists dir, (dirent_name file).
  - constructor.
Qed.

Lemma extended_calls_ok root :
  Forall (call_ok RouteDebugger.isRelevantFile)
    (fsLog (RouteDebugger.run root)).
Proof.
  unfold RouteDebugger.run.
  destruct (generateRecommendations_keeps
              (RouteDebugger.findRouteFiles root new_Analyzer))
    as (_ & _ & _ & ->).
  apply (extended_findRouteFiles_invariant
           (fun this => Forall (call_ok RouteDebugger.isRelevantFile)
                          (fsLog this))).
  - intros this dir Hdir H. simpl. by apply Forall_snoc.
  - intros this dir file Hdir Hrel H. rewrite extended_analyze_fsLog.
    apply Forall_snoc; [assumption|]. simpl. by exists dir, (dirent_name file).
  - constructor.
Qed.

Lemma fold_left_reaches {A B : Type} (Q : A -> Prop) (step : A -> B -> A)
    (l : list B) (e : B) :
  In e l ->
  (forall a, Q (step a e)) ->
  (forall a b, Q a -> Q (step a b)) ->
  forall a, Q (fold_left step l a).
Proof.
  intros Hin He Hmono. induction l as [|b l IH]; [done|].
  intros a. simpl. destruct Hin as [-> | Hin].
  - apply fold_left_invariant; [|apply He].
    apply Forall_forall. intros x _ a'. apply Hmono.
  - by apply IH.
Qed.

Lemma simple_visit_keeps_calls c file dir this :
  Forall not_skipped dir ->
  In c (fsLog this) -> In c (fsLog (RouteAnalyzer.visit dir file this)).
Proof.
  apply (simple_visit_invariant (fun this => In c (fsLog this))).
  - intros a d _ H. simpl. apply in_or_app. by left.
  - intros a d f _ _ H. rewrite simple_analyze_fsLog. simpl.
    apply in_or_app. by left.
Qed.

Lemma extended_visit_keeps_calls c file dir this :
  Forall not_skipped dir ->
  In c (fsLog this) -> In c (fsLog (RouteDebugger.visit dir file this)).
Proof.
  apply (extended_visit_invariant (fun this => In c (fsLog this))).
  - intros a d _ H. simpl. apply in_or_app. by left.
  - intros a d f _ _ H. rewrite extended_analyze_fsLog.
    apply in_or_app. by left.
Qed.

(** A relevant file that the walk comes to is read. *)
Lemma simple_met_is_read dir files dir' e :
  met dir files dir' e ->
  Forall not_skipped dir ->
  forall name content,
    e = FileEnt name content ->
    RouteAnalyzer.isRelevantFile name = true ->
    forall this,
      In (ReadFile (dir' ++ [name]))
        (fsLog (fold_left (fun this f => RouteAnalyzer.visit dir f this)
                  files this)).
Proof.
  induction 1 as [dir files e Hin | dir files n sub dir' e Hin Hn Hmet IH];
    intros Hdir name content -> Hrel this.
  - apply (fold_left_reaches
             (fun a => In (ReadFile (dir ++ [name])) (fsLog a)) _ _ _ Hin).
    + intros a. simpl. rewrite Hrel, simple_analyze_fsLog.
      apply in_or_app. right. by left.
    + intros a b. by apply simple_visit_keeps_calls.
  - apply (fold_left_reaches
             (fun a => In (ReadFile (dir' ++ [name])) (fsLog a)) _ _ _ Hin).
    + intros a. simpl. unfold RouteAnalyzer.shouldSkipDirectory.
      rewrite Hn. simpl.
      eapply IH; eauto. by apply Forall_snoc.
    + intros a b. by apply simple_visit_keeps_calls.
Qed.

Lemma extended_met_is_read dir files dir' e :
  met dir files dir' e ->
  Forall not_skipped dir ->
  forall name content,
    e = FileEnt name content ->
    RouteDebugger.isRelevantFile name = true ->
    forall this,
      In (ReadFile (dir' ++ [name]))
        (fsLog (fold_left (fun this f => RouteDebugger.visit dir f this)
                  files this)).
Proof.
  induction 1 as [dir files e Hin | dir files n sub dir' e Hin Hn Hmet IH];
    intros Hdir name content -> Hrel this.
  - apply (fold_left_reaches
             (fun a => In (ReadFile (dir ++ [name])) (fsLog a)) _ _ _ Hin).
    + intros a. simpl. rewrite Hrel, extended_analyze_fsLog.
      apply in_or_app. right. by left.
    + intros a b. by apply extended_visit_keeps_calls.
  - apply (fold_left_reaches
             (fun a => In (ReadFile (dir' ++ [name])) (fsLog a)) _ _ _ Hin).
    + intros a. simpl. unfold RouteDebugger.shouldSkipDirectory.
      rewrite Hn. simpl.
      eapply IH; eauto. by apply Forall_snoc.
    + intros a b. by apply extended_visit_keeps_calls.
Qed.

Lemma not_skipped_iff d : not_skipped d <-> ~ In d skipDirs.
Proof.
  unfold not_skipped, array_includes. rewrite <- not_true_iff_false.
  rewrite existsb_exists. split.
  - intros H Hin. apply H. exists d. split; [assumption|].
    by apply text_eqb_eq.
  - intros H (x & Hin & E). apply text_eqb_eq in E. by subst.
Qed.


(** C7.  The relevance test of either variant is the relevance predicate;
    a file is read for analysis only if its name satisfies the predicate;
    and a file that the walk comes to is read for analysis exactly when
    its name satisfies the predicate. *)
Theorem relevant_files_are_the_analyzed_files :
  (forall fileName,
      RouteAnalyzer.isRelevantFile fileName = relevance_predicate fileName
      /\ RouteDebugger.isRelevantFile fileName = relevance_predicate fileName)
  /\ (forall root p,
         In (ReadFile p) (fsLog (RouteAnalyzer.run root))
         \/ In (ReadFile p) (fsLog (RouteDebugger.run root)) ->
         exists dir name, p = dir ++ [name] /\ relevance_predicate name = true)
  /\ (forall rootName files dir name content,
         met [] files dir (FileEnt name content) ->
         (relevance_predicate name = true <->
          In (ReadFile (dir ++ [name]))
            (fsLog (RouteAnalyzer.run (DirEnt rootName (Some files)))))
         /\ (relevance_predicate name = true <->
             In (ReadFile (dir ++ [name]))
               (fsLog (RouteDebugger.run (DirEnt rootName (Some files)))))).
Proof.
  assert (Only : forall root p,
             In (ReadFile p) (fsLog (RouteAnalyzer.run root))
             \/ In (ReadFile p) (fsLog (RouteDebugger.run root)) ->
             exists dir name,
               p = dir ++ [name] /\ relevance_predicate name = true).
  { intros root p [H | H].
    - pose proof (simple_calls_ok root) as Hok.
      rewrite Forall_forall in Hok.
      apply list_elem_of_In, Hok in H. simpl in H.
      destruct H as (dir & name & -> & _ & Hrel).
      exists dir, name. split; [done|].
      by rewrite <- (proj1 (isRelevantFile_predicate name)).
    - pose proof (extended_calls_ok root) as Hok.
      rewrite Forall_forall in Hok.
      apply list_elem_of_In, Hok in H. simpl in H.
      destruct H as (dir & name & -> & _ & Hrel).
      exists dir, name. split; [done|].
      by rewrite <- (proj2 (isRelevantFile_predicate name)). }
  split; [exact isRelevantFile_predicate|]. split; [exact Only|].
  intros rootName files dir name content Hmet. split; split.
  - intros Hrel. unfold RouteAnalyzer.run, RouteAnalyzer.findRouteFiles.
    eapply simple_met_is_read; eauto.
    by rewrite (proj1 (isRelevantFile_predicate name)).
  - intros H. destruct (Only _ _ (or_introl H)) as (d & n & E & Hrel).
    apply app_inj_tail in E as [_ ->]. assumption.
  - intros Hrel. unfold RouteDebugger.run.
    destruct (generateRecommendations_keeps
                (RouteDebugger.findRouteFiles (DirEnt rootName (Some files))
                   new_Analyzer)) as (_ & _ & _ & ->).
    unfold RouteDebugger.findRouteFiles.
    eapply extended_met_is_read; eauto.
    by rewrite (proj2 (isRelevantFile_predicate name)).
  - intros H. destruct (Only _ _ (or_intror H)) as (d & n & E & Hrel).
    apply app_inj_tail in E as [_ ->]. assumption.
Qed.

Lemma relevant_files_are_the_analyzed_files_witness :
  let files :=
    [FileEnt (str "README.md") (Some (str "routes"));
     DirEnt (str "src")
       (Some [FileEnt (str "AppRoutes.tsx") (Some (str "<Routes>"))])] in
  met [] files [str "src"] (FileEnt (str "AppRoutes.tsx")
                              (Some (str "<Routes>")))
  /\ In (ReadFile [str "src"; str "AppRoutes.tsx"])
       (fsLog (RouteAnalyzer.run (DirEnt (str "project") (Some files)))).
Proof.
  cbv zeta.
  assert (Hmet : met []
                   [FileEnt (str "README.md") (Some (str "routes"));
                    DirEnt (str "src")
                      (Some [FileEnt (str "AppRoutes.tsx")
                               (Some (str "<Routes>"))])]
                   [str "src"]
                   (FileEnt (str "AppRoutes.tsx") (Some (str "<Routes>")))).
  { eapply (met_below [] _ (str "src")).
    - right. left. reflexivity.
    - reflexivity.
    - apply met_here. left. reflexivity. }
  split; [exact Hmet|].
  apply (proj1 (proj1 (proj2 (proj2 relevant_files_are_the_analyzed_files)
                         (str "project") _ _ _ _ Hmet))).
  reflexivity.
Defined.




(** ** Counting the matches of a global pattern *)

Lemma matchAll_count i r :
  no_overlap i r ->
  forall s skip,
    (forall k, k < skip -> match_here i r (drop k s) = None) ->
    length (matchAll i r skip s) = occurrences i r s.
Proof.
  intros Hno. unfold occurrences.
  induction s as [|x s IH]; intros skip Hskip.
  - destruct skip as [|n]; simpl.
    + destruct (match_here i r []) as [rest|] eqn:E; [|done].
      apply Hno in E as [E _]. simpl in E. lia.
    + pose proof (Hskip 0 ltac:(lia)) as H0. rewrite drop_0 in H0.
      by rewrite H0.
  - destruct skip as [|n]; cbn [matchAll count_at].
    + destruct (match_here i r (x :: s)) as [rest|] eqn:E; cbn [truthy].
      * cbn [length]. rewrite IH; [done|].
        intros k Hk. apply Hno in E as [_ E].
        apply (E (S k)). simpl in *. lia.
      * apply IH. intros k Hk. lia.
    + pose proof (Hskip 0 ltac:(lia)) as H0. rewrite drop_0 in H0.
      rewrite H0. cbn [truthy]. apply IH.
      intros k Hk. apply (Hskip (S k)). lia.
Qed.

(** With the g flag and matches that do not overlap, [match] gives null
    when the pattern matches nowhere, and otherwise an array with one
    element for each position at which the pattern matches. *)
Lemma match_global_count i r s :
  no_overlap i r ->
  match String_match s (literal r i true) with
  | Some ms => length ms = occurrences i r s /\ 0 < occurrences i r s
  | None => occurrences i r s = 0
  end.
Proof.
  intros Hno. unfold String_match. simpl.
  pose proof (matchAll_count i r Hno s 0 ltac:(intros; lia)) as H.
  destruct (matchAll i r 0 s) as [|m0 ms]; simpl in *; [done|].
  split; [done | lia].
Qed.

(** ** The client-construction pattern *)

Lemma Matches_Star_Space i s s' :
  Matches i (Star Space) s s' ->
  exists ws, s = ws ++ s' /\ Forall (fun c => isSpace c = true) ws.
Proof.
  intros H. remember (Star Space) as r eqn:Er.
  induction H as [| | | | | | | |r0 s|r0 s s1 s2 H1 _ Hl H2 IH|];
    try discriminate.
  - by exists [].
  - inversion Er; subst r0. destruct (IH eq_refl) as (ws & -> & Hws).
    inversion H1; subst. exists (x :: ws). split; [done|].
    by constructor.
Qed.

Lemma no_ne_within_0 s : no_ne_within 0 s.
Proof. intros k Hk. lia. Qed.

Lemma no_ne_within_cons n c s :
  startsWith (c :: s) (str "ne") = false ->
  no_ne_within n s -> no_ne_within (S n) (c :: s).
Proof.
  intros Hc Hs [|k] Hk; [done|]. simpl. apply Hs. lia.
Qed.

Lemma no_ne_within_spaces ws n s :
  Forall (fun c => isSpace c = true) ws ->
  no_ne_within n s -> no_ne_within (length ws + n) (ws ++ s).
Proof.
  induction 1 as [|c ws Hc _ IH]; intros Hs; simpl; [assumption|].
  apply no_ne_within_cons; [|by apply IH].
  cbn [startsWith str List.map list_ascii_of_string].
  destruct (N.eqb_spec c (N_of_ascii "n")) as [->|]; [discriminate | done].
Qed.

(** The form of a text at which the client-construction pattern matches. *)
Lemma queryClient_re_match s rest :
  match_here false queryClient_re s = Some rest ->
  exists ws1 ws2,
    s = str "new" ++ ws1 ++ str "QueryClient" ++ ws2 ++ str "(" ++ rest
    /\ Forall (fun c => isSpace c = true) ws1
    /\ Forall (fun c => isSpace c = true) ws2.
Proof.
  intros H. apply match_here_rest in H.
  change queryClient_re
    with (Seq (L "new")
            (Seq (Seq Space (Star Space))
               (Seq (L "QueryClient") (Seq (Star Space) (L "("))))) in H.
  inversion H as [| | |r1 r2 u u1 u2 H1 H2| | | | | | |]; subst.
  apply Matches_Lit in H1. subst.
  inversion H2 as [| | |r1 r2 u u3 u4 H3 H4| | | | | | |]; subst.
  inversion H3 as [| | |r1 r2 u u5 u6 H5 H6| | | | | | |]; subst.
  inversion H5; subst.
  apply Matches_Star_Space in H6 as (ws1 & -> & Hws1).
  inversion H4 as [| | |r1 r2 u u7 u8 H7 H8| | | | | | |]; subst.
  apply Matches_Lit in H7. subst.
  inversion H8 as [| | |r1 r2 u u9 u10 H9 H10| | | | | | |]; subst.
  apply Matches_Star_Space in H9 as (ws2 & -> & Hws2).
  apply Matches_Lit in H10. subst.
  exists (x :: ws1), ws2. split; [done|]. split; [by constructor | done].
Qed.

Lemma queryClient_re_starts s :
  truthy (match_here false queryClient_re s) = true ->
  startsWith s (str "ne") = true.
Proof.
  destruct (match_here false queryClient_re s) as [rest|] eqn:E; [|done].
  intros _. apply queryClient_re_match in E as (ws1 & ws2 & -> & _).
  reflexivity.
Qed.

Lemma queryClient_re_no_overlap : no_overlap false queryClient_re.
Proof.
  intros s0 rest H.
  destruct (queryClient_re_match s0 rest H) as (ws1 & ws2 & -> & H1 & H2).
  set (s := str "new" ++ ws1 ++ str "QueryClient" ++ ws2 ++ str "(" ++ rest).
  assert (Hlen : length s
                 = 3 + (length ws1 + (11 + (length ws2 + (1 + length rest))))).
  { subst s. rewrite !length_app. reflexivity. }
  rewrite Hlen. split; [lia|]. intros k Hk.
  destruct (match_here false queryClient_re (drop k s)) as [rest'|] eqn:E;
    [|done].
  assert (Hs : startsWith (drop k s) (str "ne") = true).
  { apply queryClient_re_starts. by rewrite E. }
  destruct k as [|k]; [lia|].
  assert (Hn : no_ne_within (2 + (length ws1 + (11 + (length ws2 + 1))))
                 (str "ew" ++ ws1 ++ str "QueryClient" ++ ws2
                  ++ str "(" ++ rest)).
  { repeat (apply no_ne_within_cons; [reflexivity|]).
    apply no_ne_within_spaces; [assumption|].
    repeat (apply no_ne_within_cons; [reflexivity|]).
    apply no_ne_within_spaces; [assumption|].
    apply no_ne_within_cons; [reflexivity|]. apply no_ne_within_0. }
  change (drop (S k) s)
    with (drop k (str "ew" ++ ws1 ++ str "QueryClient" ++ ws2
                  ++ str "(" ++ rest)) in Hs.
  rewrite (Hn k) in Hs; [discriminate | lia].
Qed.

(** Builds the greedy match of a sequence of characters and \s* on a text
    whose head is known. *)
Ltac build_match :=
  lazymatch goal with
  | |- Matches _ Eps _ _ => apply M_Eps
  | |- Matches _ (Chr _) (_ :: _) _ => apply M_Chr; reflexivity
  | |- Matches _ Space (_ :: _) _ => apply M_Space; reflexivity
  | |- Matches _ (Seq _ _) _ _ => eapply M_Seq; [build_match | build_match]
  | |- Matches _ (Star Space) (_ :: _) _ =>
      first [ eapply M_StarCons;
              [apply M_Space; reflexivity | simpl; lia | build_match]
            | apply M_StarNil ]
  end.

Lemma queryClient_literal_matches t :
  startsWith t (str "new QueryClient(") = true ->
  truthy (match_here false queryClient_re t) = true.
Proof.
  intros H. apply startsWith_app in H as [rest ->].
  apply match_here_iff. exists rest.
  let r := eval vm_compute in queryClient_re in change queryClient_re with r.
  let w := eval vm_compute in (str "new QueryClient(") in
    change (str "new QueryClient(") with w.
  cbn [app]. build_match.
Qed.

Lemma count_at_le P Q s :
  (forall t, P t = true -> Q t = true) -> count_at P s <= count_at Q s.
Proof.
  intros H. induction s as [|x s IH]; simpl.
  - destruct (P []) eqn:E; [by rewrite (H _ E) | lia].
  - destruct (P (x :: s)) eqn:E; [rewrite (H _ E)|]; simpl; lia.
Qed.

Lemma literal_occurrences_le content :
  literal_occurrences (str "new QueryClient(") content
  <= occurrences false queryClient_re content.
Proof.
  apply count_at_le. apply queryClient_literal_matches.
Qed.

(** C5, as the code has it.  When the pattern of the client-construction
    check (new, white space, QueryClient, optional white space, an opening
    parenthesis) matches at exactly two positions of the text, the check
    of either variant appends exactly one issue, of type
    query-client-creation and medium severity, whose count is 2.  Every
    occurrence of the literal text new QueryClient( is such a match, so
    the text then holds the literal text at most twice. *)
Theorem checkQueryClientCreation_counts_matches
    (content filePath : text) (fileIssues : list Issue) (this : Analyzer) :
  occurrences false queryClient_re content = 2 ->
  literal_occurrences (str "new QueryClient(") content <= 2
  /\ fst (RouteAnalyzer.checkQueryClientCreation content filePath fileIssues
            this)
     = fileIssues ++ [queryClient_issue filePath 2 None]
  /\ RouteDebugger.checkQueryClientCreation content filePath fileIssues
     = fileIssues ++
       [queryClient_issue filePath 2
          (Some "Move QueryClient creation to module level or share instance")].
Proof.
  intros H. split.
  - rewrite <- H. apply literal_occurrences_le.
  - unfold RouteAnalyzer.checkQueryClientCreation,
      RouteDebugger.checkQueryClientCreation.
    pose proof (match_global_count false queryClient_re content
                  queryClient_re_no_overlap) as Hm.
    destruct (String_match content (literal queryClient_re false true))
      as [ms|].
    + destruct Hm as [Hm _]. rewrite Hm, H. by split.
    + rewrite H in Hm. discriminate.
Qed.

Lemma checkQueryClientCreation_counts_matches_witness :
  let content :=
    str "const a = new QueryClient(); const b = new QueryClient();" in
  occurrences false queryClient_re content = 2
  /\ RouteDebugger.checkQueryClientCreation content (str "routes.ts") []
     = [queryClient_issue (str "routes.ts") 2
          (Some "Move QueryClient creation to module level or share instance")].
Proof.
  cbv zeta.
  assert (H : occurrences false queryClient_re
                (str "const a = new QueryClient(); const b = new QueryClient();")
              = 2) by reflexivity.
  split; [exact H|].
  exact (proj2 (proj2 (checkQueryClientCreation_counts_matches
                         (str "const a = new QueryClient(); const b = new QueryClient();")
                         (str "routes.ts") [] new_Analyzer H))).
Defined.

(** C5, as stated, fails: this text holds the literal text
    new QueryClient( exactly twice, and a third construction written with
    two blanks; the count of the issue is 3. *)
Lemma literal_twice_but_count_three :
  let content :=
    str "new QueryClient(); new QueryClient(); new  QueryClient();" in
  literal_occurrences (str "new QueryClient(") content = 2
  /\ fst (RouteAnalyzer.checkQueryClientCreation content (str "routes.ts") []
            new_Analyzer)
     = [queryClient_issue (str "routes.ts") 3 None]
  /\ RouteDebugger.checkQueryClientCreation content (str "routes.ts") []
     = [queryClient_issue (str "routes.ts") 3
          (Some "Move QueryClient creation to module level or share instance")].
Proof.
  cbv zeta. repeat split; reflexivity.
Qed.

(** ** Dynamic route generation *)

Lemma matchAll_nonempty i r s :
  exists_at (fun t => truthy (match_here i r t)) s = true ->
  matchAll i r 0 s <> [].
Proof.
  induction s as [|x s IH]; simpl.
  - by destruct (match_here i r []).
  - destruct (match_here i r (x :: s)); [done|]. simpl. apply IH.
Qed.

Lemma routesMap_literal_matches t :
  startsWith t (str "routes.map(({ path, Component })") = true ->
  truthy (match_here false routesMap_re t) = true.
Proof.
  intros H. apply startsWith_app in H as [rest ->].
  apply match_here_iff. exists rest.
  let r := eval vm_compute in routesMap_re in change routesMap_re with r.
  let w := eval vm_compute in (str "routes.map(({ path, Component })") in
    change (str "routes.map(({ path, Component })") with w.
  cbn [app]. build_match.
Qed.

Lemma routesMap_match_found content :
  includes content (str "routes.map(({ path, Component })") = true
  \/ matches_in false routesMap_re content ->
  exists first ms,
    String_match content (literal routesMap_re false true)
    = Some (first :: ms).
Proof.
  intros H.
  assert (E : exists_at (fun t => truthy (match_here false routesMap_re t))
                content = true).
  { destruct H as [H | [n H]].
    - rewrite includes_exists_at in H.
      eapply exists_at_impl; [|exact H]. apply routesMap_literal_matches.
    - apply exists_at_drop. exists n. by apply match_here_iff. }
  apply matchAll_nonempty in E. unfold String_match. simpl.
  destruct (matchAll false routesMap_re 0 content) as [|first ms]; [done|].
  by exists first, ms.
Qed.

Lemma adds_none Qi Qr f t : adds Qi Qr f t (f, t).
Proof. exists [], []. by rewrite !app_nil_r. Qed.

Lemma adds_issue Qi Qr f t i : Qi i -> adds Qi Qr f t (f ++ [i], t).
Proof.
  intros H. exists [i], []. rewrite app_nil_r. repeat split; by constructor.
Qed.

Lemma adds_both Qi Qr f t i r :
  Qi i -> Qr r -> adds Qi Qr f t (f ++ [i], push_recommendation t r).
Proof. intros Hi Hr. exists [i], [r]. repeat split; by constructor. Qed.

Lemma adds_trans Qi Qr f t f1 t1 r :
  adds Qi Qr f t (f1, t1) -> adds Qi Qr f1 t1 r -> adds Qi Qr f t r.
Proof.
  intros (di & dr & E1 & H1 & E2 & H2) (di' & dr' & E3 & H3 & E4 & H4).
  simpl in *. subst f1. exists (di ++ di'), (dr ++ dr').
  rewrite E3, E4, E2, !app_assoc. repeat split; by apply Forall_app.
Qed.

Lemma adds_issues_refl Qi f : adds_issues Qi f f.
Proof. exists []. by rewrite app_nil_r. Qed.

Lemma adds_issues_one Qi f i : Qi i -> adds_issues Qi f (f ++ [i]).
Proof. intros H. exists [i]. split; [done | by constructor]. Qed.

Lemma adds_issues_trans Qi f f1 f2 :
  adds_issues Qi f f1 -> adds_issues Qi f1 f2 -> adds_issues Qi f f2.
Proof.
  intros (d1 & -> & H1) (d2 & -> & H2). exists (d1 ++ d2).
  rewrite app_assoc. split; [done | by apply Forall_app].
Qed.

Ltac rule_adds :=
  intros; rule_cases;
  first [ apply adds_none
        | apply adds_issue; reflexivity
        | apply adds_both; [reflexivity | discriminate] ].

Ltac rule_adds_issues :=
  intros; rule_cases;
  first [ apply adds_issues_refl | apply adds_issues_one; reflexivity ].

(** The eight checks after the first one append no issue of type
    dynamic-route-generation and do not recommend wrapping the routes
    array. *)
Lemma simple_later_checks c p f1 t1 :
  adds not_dynamic (fun r => r <> wrap_recommendation p) f1 t1
    (let '(f2, t2) := RouteAnalyzer.checkQueryClientCreation c p f1 t1 in
     let '(f3, t3) := RouteAnalyzer.checkContextPlacement c p f2 t2 in
     let '(f4, t4) := RouteAnalyzer.checkBlockedNavigation c p f3 t3 in
     let '(f5, t5) := RouteAnalyzer.checkActivityContext c p f4 t4 in
     let '(f6, t6) := RouteAnalyzer.checkMemoization c p f5 t5 in
     let '(f7, t7) := RouteAnalyzer.checkAsyncWrapper c p f6 t6 in
     let '(f8, t8) := RouteAnalyzer.checkShellPatterns c p f7 t7 in
     RouteAnalyzer.checkPerformancePatterns c p f8 t8).
Proof.
  set (Qr := fun r => r <> wrap_recommendation p).
  assert (H2 : forall f t, adds not_dynamic Qr f t
                 (RouteAnalyzer.checkQueryClientCreation c p f t))
    by (unfold RouteAnalyzer.checkQueryClientCreation; rule_adds).
  assert (H3 : forall f t, adds not_dynamic Qr f t
                 (RouteAnalyzer.checkContextPlacement c p f t))
    by (unfold RouteAnalyzer.checkContextPlacement; rule_adds).
  assert (H4 : forall f t, adds not_dynamic Qr f t
                 (RouteAnalyzer.checkBlockedNavigation c p f t))
    by (unfold RouteAnalyzer.checkBlockedNavigation; rule_adds).
  assert (H5 : forall f t, adds not_dynamic Qr f t
                 (RouteAnalyzer.checkActivityContext c p f t))
    by (unfold RouteAnalyzer.checkActivityContext; rule_adds).
  assert (H6 : forall f t, adds not_dynamic Qr f t
                 (RouteAnalyzer.checkMemoization c p f t))
    by (unfold RouteAnalyzer.checkMemoization; rule_adds).
  assert (H7 : forall f t, adds not_dynamic Qr f t
                 (RouteAnalyzer.checkAsyncWrapper c p f t))
    by (unfold RouteAnalyzer.checkAsyncWrapper; rule_adds).
  assert (H8 : forall f t, adds not_dynamic Qr f t
                 (RouteAnalyzer.checkShellPatterns c p f t))
    by (unfold RouteAnalyzer.checkShellPatterns; rule_adds).
  assert (H9 : forall f t, adds not_dynamic Qr f t
                 (RouteAnalyzer.checkPerformancePatterns c p f t)).
  { intros f t. unfold RouteAnalyzer.checkPerformancePatterns,
      RouteAnalyzer.performancePatterns. cbn [fold_left].
    destruct (RegExp_test (literal consoleLog_re false true) c) as [[] ?];
      destruct (RegExp_test (literal debugger_re false true) c) as [[] ?];
      destruct (RegExp_test (literal jsonClone_re false true) c) as [[] ?];
      cbn [fst];
      repeat (eapply adds_trans; [|apply adds_issue; reflexivity]);
      apply adds_none. }
  specialize (H2 f1 t1).
  destruct (RouteAnalyzer.checkQueryClientCreation c p f1 t1) as [f2 t2].
  specialize (H3 f2 t2).
  destruct (RouteAnalyzer.checkContextPlacement c p f2 t2) as [f3 t3].
  specialize (H4 f3 t3).
  destruct (RouteAnalyzer.checkBlockedNavigation c p f3 t3) as [f4 t4].
  specialize (H5 f4 t4).
  destruct (RouteAnalyzer.checkActivityContext c p f4 t4) as [f5 t5].
  specialize (H6 f5 t5).
  destruct (RouteAnalyzer.checkMemoization c p f5 t5) as [f6 t6].
  specialize (H7 f6 t6).
  destruct (RouteAnalyzer.checkAsyncWrapper c p f6 t6) as [f7 t7].
  specialize (H8 f7 t7).
  destruct (RouteAnalyzer.checkShellPatterns c p f7 t7) as [f8 t8].
  specialize (H9 f8 t8).
  do 7 (eapply adds_trans; [eassumption|]). assumption.
Qed.

Lemma extended_later_checks c p f1 :
  adds_issues not_dynamic f1
    (RouteDebugger.checkPerformancePatterns c p
       (RouteDebugger.checkShellPatterns c p
          (RouteDebugger.checkAsyncWrapper c p
             (RouteDebugger.checkMemoization c p
                (RouteDebugger.checkActivityContext c p
                   (RouteDebugger.checkBlockedNavigation c p
                      (RouteDebugger.checkContextPlacement c p
                         (RouteDebugger.checkQueryClientCreation c p
                            f1)))))))).
Proof.
  assert (H2 : forall f, adds_issues not_dynamic f
                 (RouteDebugger.checkQueryClientCreation c p f))
    by (unfold RouteDebugger.checkQueryClientCreation; rule_adds_issues).
  assert (H3 : forall f, adds_issues not_dynamic f
                 (RouteDebugger.checkContextPlacement c p f))
    by (unfold RouteDebugger.checkContextPlacement; rule_adds_issues).
  assert (H4 : forall f, adds_issues not_dynamic f
                 (RouteDebugger.checkBlockedNavigation c p f))
    by (unfold RouteDebugger.checkBlockedNavigation; rule_adds_issues).
  assert (H5 : forall f, adds_issues not_dynamic f
                 (RouteDebugger.checkActivityContext c p f))
    by (unfold RouteDebugger.checkActivityContext; rule_adds_issues).
  assert (H6 : forall f, adds_issues not_dynamic f
                 (RouteDebugger.checkMemoization c p f))
    by (unfold RouteDebugger.checkMemoization; rule_adds_issues).
  assert (H7 : forall f, adds_issues not_dynamic f
                 (RouteDebugger.checkAsyncWrapper c p f))
    by (unfold RouteDebugger.checkAsyncWrapper; rule_adds_issues).
  assert (H8 : forall f, adds_issues not_dynamic f
                 (RouteDebugger.checkShellPatterns c p f))
    by (unfold RouteDebugger.checkShellPatterns; rule_adds_issues).
  assert (H9 : forall f, adds_issues not_dynamic f
                 (RouteDebugger.checkPerformancePatterns c p f)).
  { intros f. unfold RouteDebugger.checkPerformancePatterns,
      RouteDebugger.performancePatterns. cbn [fold_left].
    destruct (RegExp_test (literal consoleLog_re false true) c) as [[] ?];
      destruct (RegExp_test (literal debugger_re false true) c) as [[] ?];
      destruct (RegExp_test (literal jsonClone_re false true) c) as [[] ?];
      cbn [fst];
      repeat (eapply adds_issues_trans;
              [|apply adds_issues_one; reflexivity]);
      apply adds_issues_refl. }
  eapply adds_issues_trans; [|apply H9].
  eapply adds_issues_trans; [|apply H8].
  eapply adds_issues_trans; [|apply H7].
  eapply adds_issues_trans; [|apply H6].
  eapply adds_issues_trans; [|apply H5].
  eapply adds_issues_trans; [|apply H4].
  eapply adds_issues_trans; [|apply H3].
  apply H2.
Qed.

Lemma filter_not_dynamic di :
  Forall not_dynamic di ->
  List.filter (has_type "dynamic-route-generation") di = [].
Proof.
  induction 1 as [|i di Hi _ IH]; simpl; [done|]. by rewrite Hi.
Qed.

(** C3, as the code has it.  For a text that contains
    routes.map(({ path, Component }) (or another match of the pattern of
    the check), the nine checks of either variant emit exactly one issue of
    type dynamic-route-generation, of high severity.  The simple variant
    recommends wrapping the routes array in useMemo exactly when the text
    does not contain useMemo.  The extended variant recommends nothing when
    it analyses a file: its issue carries the advice as its fix string,
    whether or not the text contains useMemo. *)
Theorem dynamic_route_generation_issue_and_recommendation
    (content relativePath : text) (this : Analyzer) :
  includes content (str "routes.map(({ path, Component })") = true
  \/ matches_in false routesMap_re content ->
  exists first newRecs,
    List.filter (has_type "dynamic-route-generation")
      (fst (RouteAnalyzer.runChecks content relativePath this))
    = [dynamic_issue relativePath first None]
    /\ recommendations (snd (RouteAnalyzer.runChecks content relativePath this))
       = recommendations this ++ newRecs
    /\ (In (wrap_recommendation relativePath) newRecs
        <-> includes content (str "useMemo") = false)
    /\ List.filter (has_type "dynamic-route-generation")
         (RouteDebugger.runChecks content relativePath)
       = [dynamic_issue relativePath first
            (Some "Wrap routes array in useMemo to prevent recreation")]
    /\ forall name filePath a,
         recommendations
           (RouteDebugger.analyzeRouteFile filePath
              (FileEnt name (Some content)) a)
         = recommendations a.
Proof.
  intros H. destruct (routesMap_match_found content H) as (first & ms & Em).
  exists first.
  assert (Hrun : forall f1 t1,
             RouteAnalyzer.checkDynamicRouteGeneration content relativePath
               [] this = (f1, t1) ->
             adds not_dynamic (fun r => r <> wrap_recommendation relativePath)
               f1 t1 (RouteAnalyzer.runChecks content relativePath this)).
  { intros f1 t1 E. unfold RouteAnalyzer.runChecks. rewrite E.
    apply simple_later_checks. }
  assert (He : List.filter (has_type "dynamic-route-generation")
                 (RouteDebugger.runChecks content relativePath)
               = [dynamic_issue relativePath first
                    (Some "Wrap routes array in useMemo to prevent recreation")]).
  { unfold RouteDebugger.runChecks. cbv zeta.
    unfold RouteDebugger.checkDynamicRouteGeneration. rewrite Em.
    destruct (extended_later_checks content relativePath
                ([] ++ [dynamic_issue relativePath first
                          (Some "Wrap routes array in useMemo to prevent recreation")]))
      as (di & E & Hdi).
    cbn [head]. unfold dynamic_issue in E. rewrite E.
    rewrite List.filter_app, (filter_not_dynamic di Hdi). reflexivity. }
  assert (Hr : forall name filePath a,
             recommendations
               (RouteDebugger.analyzeRouteFile filePath
                  (FileEnt name (Some content)) a)
             = recommendations a).
  { intros name filePath a.
    by destruct (extended_analyze_readable filePath
                   (FileEnt name (Some content)) content a eq_refl)
      as (_ & -> & _). }
  unfold RouteAnalyzer.checkDynamicRouteGeneration in Hrun.
  rewrite Em in Hrun. cbn [head] in Hrun.
  destruct (includes content (str "useMemo")) eqn:U; cbn [negb] in Hrun.
  - destruct (Hrun _ _ eq_refl) as (di & dr & E1 & Hdi & E2 & Hdr).
    exists dr. rewrite E1, E2.
    rewrite List.filter_app, (filter_not_dynamic di Hdi).
    repeat split; try done.
    intros Hin. rewrite Forall_forall in Hdr.
    apply list_elem_of_In, Hdr in Hin. by contradiction Hin.
  - destruct (Hrun _ _ eq_refl) as (di & dr & E1 & Hdi & E2 & Hdr).
    exists ([wrap_recommendation relativePath] ++ dr). rewrite E1, E2.
    rewrite List.filter_app, (filter_not_dynamic di Hdi). simpl.
    rewrite <- app_assoc.
    repeat split; try done. intros _. by left.
Qed.

Lemma dynamic_route_generation_issue_and_recommendation_witness :
  let content := str "const r = routes.map(({ path, Component }) => 0)" in
  includes content (str "routes.map(({ path, Component })") = true
  /\ List.filter (has_type "dynamic-route-generation")
       (RouteDebugger.runChecks content (str "routes.js"))
     = [dynamic_issue (str "routes.js")
          (str "routes.map(({ path, Component })")
          (Some "Wrap routes array in useMemo to prevent recreation")]
  /\ exists first newRecs,
       List.filter (has_type "dynamic-route-generation")
         (fst (RouteAnalyzer.runChecks content (str "routes.js")
                 new_Analyzer))
       = [dynamic_issue (str "routes.js") first None]
       /\ recommendations
            (snd (RouteAnalyzer.runChecks content (str "routes.js")
                    new_Analyzer))
          = [] ++ newRecs
       /\ (In (wrap_recommendation (str "routes.js")) newRecs
           <-> includes content (str "useMemo") = false).
Proof.
  cbv zeta.
  assert (H : includes (str "const r = routes.map(({ path, Component }) => 0)")
                (str "routes.map(({ path, Component })") = true)
    by reflexivity.
  split; [exact H|]. split; [reflexivity|].
  destruct (dynamic_route_generation_issue_and_recommendation
              (str "const r = routes.map(({ path, Component }) => 0)")
              (str "routes.js") new_Analyzer (or_introl H))
    as (first & newRecs & H1 & H2 & H3 & _).
  exists first, newRecs. split; [exact H1|]. split; [exact H2 | exact H3].
Defined.

(** C3, as stated, fails in the extended variant: the text of routes.js
    contains the pattern and not useMemo, and the run recommends only to
    address the high-severity issues; the recommendation to wrap the routes
    array, which the simple variant makes, is not made. *)
Lemma extended_variant_does_not_recommend_useMemo :
  let content := str "const r = routes.map(({ path, Component }) => 0)" in
  let root :=
    DirEnt (str "project") (Some [FileEnt (str "routes.js") (Some content)]) in
  includes content (str "routes.map(({ path, Component })") = true
  /\ includes content (str "useMemo") = false
  /\ recommendations (RouteDebugger.run root)
     = [mkRecommendation None (Some "high")
          "Address high-severity issues immediately to prevent route unmounting"
          (Some "Review dynamic route generation and context placement patterns")]
  /\ ~ In (wrap_recommendation (str "routes.js"))
         (recommendations (RouteDebugger.run root))
  /\ In (wrap_recommendation (str "routes.js"))
       (recommendations (RouteAnalyzer.run root)).
Proof.
  cbv zeta.
  assert (E : recommendations
                (RouteDebugger.run
                   (DirEnt (str "project")
                      (Some [FileEnt (str "routes.js")
                               (Some (str "const r = routes.map(({ path, Component }) => 0)"))])))
              = [mkRecommendation None (Some "high")
                   "Address high-severity issues immediately to prevent route unmounting"
                   (Some "Review dynamic route generation and context placement patterns")])
    by reflexivity.
  split; [reflexivity|]. split; [reflexivity|]. split; [exact E|]. split.
  - rewrite E. intros [H | []]. discriminate H.
  - left. reflexivity.
Qed.

(** ** The command line *)

Lemma flag_starts_with_dash a flag :
  In flag [str "--help"; str "-h"; str "--verbose"; str "-v"; str "--json";
           str "-j"] ->
  startsWith a (str "-") = false -> text_eqb a flag = false.
Proof.
  intros Hf Ha. destruct (text_eqb a flag) eqn:E; [|done].
  apply text_eqb_eq in E. subst a. simpl in Hf.
  destruct Hf as [<- | [<- | [<- | [<- | [<- | [<- | []]]]]]]; discriminate.
Qed.

Lemma simple_parse_arg_positional env st a :
  startsWith a (str "-") = false ->
  RouteAnalyzerCli.parse_arg env st a = (fst st, resolve env a).
Proof.
  intros Ha. destruct st as [o t]. unfold RouteAnalyzerCli.parse_arg.
  rewrite (flag_starts_with_dash a (str "--help") ltac:(simpl; tauto) Ha),
    (flag_starts_with_dash a (str "-h") ltac:(simpl; tauto) Ha),
    (flag_starts_with_dash a (str "--verbose") ltac:(simpl; tauto) Ha),
    (flag_starts_with_dash a (str "-v") ltac:(simpl; tauto) Ha),
    (flag_starts_with_dash a (str "--json") ltac:(simpl; tauto) Ha),
    (flag_starts_with_dash a (str "-j") ltac:(simpl; tauto) Ha), Ha.
  reflexivity.
Qed.

Lemma simple_parse_arg_flag env st a :
  startsWith a (str "-") = true ->
  snd (RouteAnalyzerCli.parse_arg env st a) = snd st.
Proof.
  intros Ha. destruct st as [o t]. unfold RouteAnalyzerCli.parse_arg.
  rewrite Ha. cbn [negb].
  repeat match goal with
         | |- context [if ?b then _ else _] => destruct b
         end; reflexivity.
Qed.

Lemma simple_parse_arg_help env st a :
  a <> str "--help" -> a <> str "-h" ->
  help (fst (RouteAnalyzerCli.parse_arg env st a)) = help (fst st).
Proof.
  intros H1 H2. destruct st as [o t]. unfold RouteAnalyzerCli.parse_arg.
  destruct (text_eqb a (str "--help")) eqn:E1;
    [by apply text_eqb_eq in E1|].
  destruct (text_eqb a (str "-h")) eqn:E2; [by apply text_eqb_eq in E2|].
  cbn [orb].
  repeat match goal with
         | |- context [if ?b then _ else _] => destruct b
         end; reflexivity.
Qed.

Lemma simple_parse_fold_help env args : forall st,
  ~ In (str "--help") args -> ~ In (str "-h") args ->
  help (fst (fold_left (RouteAnalyzerCli.parse_arg env) args st))
  = help (fst st).
Proof.
  induction args as [|a args IH]; intros st H1 H2; simpl; [done|].
  rewrite IH, simple_parse_arg_help; try done.
  - intros ->. apply H1. by left.
  - intros ->. apply H2. by left.
  - intros H. apply H1. by right.
  - intros H. apply H2. by right.
Qed.

Lemma simple_parse_fold_flags env post : forall st,
  Forall (fun a => startsWith a (str "-") = true) post ->
  snd (fold_left (RouteAnalyzerCli.parse_arg env) post st) = snd st.
Proof.
  induction post as [|a post IH]; intros st H; simpl; [done|].
  inversion H; subst. rewrite IH by assumption.
  by apply simple_parse_arg_flag.
Qed.

(** The target of the simple variant is its last argument that does not
    start with a dash, resolved. *)
Lemma simple_parse_target env pre arg post :
  startsWith arg (str "-") = false ->
  Forall (fun a => startsWith a (str "-") = true) post ->
  snd (RouteAnalyzerCli.parse env (pre ++ arg :: post)) = resolve env arg.
Proof.
  intros Ha Hpost. unfold RouteAnalyzerCli.parse.
  rewrite fold_left_app. simpl.
  rewrite simple_parse_fold_flags by assumption.
  by rewrite simple_parse_arg_positional.
Qed.

Lemma extended_parse_format env args :
  let o := fst (RouteDebuggerCli.parse env args) in
  json o || html o = true.
Proof.
  cbv zeta. unfold RouteDebuggerCli.parse.
  destruct (RouteDebuggerCli.parse_from env args _) as [o t].
  destruct (json o) eqn:J, (html o) eqn:H; cbn [negb andb fst json html];
    rewrite ?J, ?H; reflexivity.
Qed.

Lemma extended_parse_from_target env n : forall args st,
  length args <= n ->
  snd (RouteDebuggerCli.parse_from env args st) = snd st
  \/ exists a, In a args /\ startsWith a (str "--") = false
               /\ existsSync env a = true
               /\ snd (RouteDebuggerCli.parse_from env args st)
                  = resolve env a.
Proof.
  induction n as [|n IH]; intros [|arg rest] [o t] Hlen;
    try (simpl in Hlen; lia); try (by left).
  assert (Hrest : length rest <= n) by (simpl in Hlen; lia).
  assert (Hnext : forall st',
             snd st' = t ->
             snd (RouteDebuggerCli.parse_from env rest st') = snd (o, t)
             \/ exists a, In a (arg :: rest) /\ startsWith a (str "--") = false
                          /\ existsSync env a = true
                          /\ snd (RouteDebuggerCli.parse_from env rest st')
                             = resolve env a).
  { intros st' E. destruct (IH rest st' Hrest) as [H|(a & Ha & H)].
    - left. by rewrite H.
    - right. exists a. split; [by right | exact H]. }
  cbn [RouteDebuggerCli.parse_from].
  destruct (text_eqb arg (str "--help") || text_eqb arg (str "-h"));
    [by apply Hnext|].
  destruct (text_eqb arg (str "--verbose") || text_eqb arg (str "-v"));
    [by apply Hnext|].
  destruct (text_eqb arg (str "--json") || text_eqb arg (str "-j"));
    [by apply Hnext|].
  destruct (text_eqb arg (str "--html")); [by apply Hnext|].
  destruct (startsWith arg (str "--output=")); [by apply Hnext|].
  destruct (text_eqb arg (str "--output")).
  - destruct rest as [|next rest']; [by left|].
    destruct (IH rest'
                (mkOptions (verbose o) (json o) (html o) (Some next) (help o),
                 t)) as [H|(a & Ha & H)].
    + simpl in Hrest. lia.
    + by left.
    + right. exists a. split; [right; by right | exact H].
  - destruct (startsWith arg (str "--")) eqn:E1; cbn [negb andb];
      [by apply Hnext|].
    destruct (existsSync env arg) eqn:E2; [|by apply Hnext].
    right.
    destruct (IH rest (o, resolve env arg) Hrest) as [H|(a & Ha & H)].
    + exists arg. split; [by left|]. by rewrite H.
    + exists a. split; [by right | exact H].
Qed.

Lemma extended_parse_from_help env n : forall args st,
  length args <= n ->
  ~ In (str "--help") args -> ~ In (str "-h") args ->
  help (fst (RouteDebuggerCli.parse_from env args st)) = help (fst st).
Proof.
  induction n as [|n IH]; intros [|arg rest] [o t] Hlen H1 H2;
    try (simpl in Hlen; lia); try reflexivity.
  assert (Hrest : length rest <= n) by (simpl in Hlen; lia).
  assert (R1 : ~ In (str "--help") rest) by (intros H; apply H1; by right).
  assert (R2 : ~ In (str "-h") rest) by (intros H; apply H2; by right).
  cbn [RouteDebuggerCli.parse_from].
  destruct (text_eqb arg (str "--help")) eqn:E1.
  { apply text_eqb_eq in E1. exfalso. apply H1. by left. }
  destruct (text_eqb arg (str "-h")) eqn:E2.
  { apply text_eqb_eq in E2. exfalso. apply H2. by left. }
  cbn [orb].
  destruct (text_eqb arg (str "--verbose") || text_eqb arg (str "-v"));
    [by rewrite IH|].
  destruct (text_eqb arg (str "--json") || text_eqb arg (str "-j"));
    [by rewrite IH|].
  destruct (text_eqb arg (str "--html")); [by rewrite IH|].
  destruct (startsWith arg (str "--output=")); [by rewrite IH|].
  destruct (text_eqb arg (str "--output")).
  - destruct rest as [|next rest']; [reflexivity|].
    rewrite IH; [reflexivity | simpl in Hrest; lia | |].
    + intros H. apply R1. by right.
    + intros H. apply R2. by right.
  - destruct (negb (startsWith arg (str "--")) && existsSync env arg);
      by rewrite IH.
Qed.

Lemma report_returns env options :
  snd (RouteDebuggerReport.report env options) = report_ok env options.
Proof.
  unfold RouteDebuggerReport.report, report_ok,
    RouteDebuggerReport.generateHTMLReport. cbv zeta.
  destruct (html options); [|by destruct (json options)].
  cbn [negb orb].
  destruct (existsSync env _); cbn [negb orb andb]; [reflexivity|].
  by destruct (mkdirSync env _).
Qed.

(** C2.  A missing target path is fatal in the simple variant only.  Take
    an invocation without a help flag whose last argument that does not
    start with a dash names a path that does not exist, in a working
    directory that exists.  The simple front end ends with the error
    message on the error stream and status 1, no analyzer having run, as
    the specification has it.  The extended front end passes over every
    argument that does not exist as it was given: when there is none that
    does, it analyses the working directory instead, never prints that the
    path does not exist, and ends with status 0 unless the report cannot
    be written. *)
Theorem missing_target_path_is_fatal_in_the_simple_variant_only
    (env : Env) (pre : list text) (arg : text) (post : list text) :
  let args := pre ++ arg :: post in
  startsWith arg (str "-") = false ->
  Forall (fun a => startsWith a (str "-") = true) post ->
  ~ In (str "--help") args -> ~ In (str "-h") args ->
  existsSync env (resolve env arg) = false ->
  (forall a, In a args -> existsSync env a = false) ->
  existsSync env (cwd env) = true ->
  RouteAnalyzerCli.main env args = PathDoesNotExist (resolve env arg)
  /\ RouteAnalyzerCli.exitCode (RouteAnalyzerCli.main env args) = 1
  /\ snd (RouteDebuggerCli.parse env args) = cwd env
  /\ (forall p, RouteDebuggerCli.main env args <> PathDoesNotExist p)
  /\ RouteDebuggerCli.main env args
     = (if report_ok env (fst (RouteDebuggerCli.parse env args))
        then Ran else AnalysisFailed)
         (fst (RouteDebuggerCli.parse env args)) (cwd env)
         (RouteDebugger.run (at_path env (cwd env)))
  /\ RouteDebuggerCli.exitCode (RouteDebuggerCli.main env args)
     = if report_ok env (fst (RouteDebuggerCli.parse env args))
       then 0 else 1.
Proof.
  cbv zeta. intros Ha Hpost H1 H2 He Hnone Hcwd.
  set (args := pre ++ arg :: post) in *.
  assert (S : RouteAnalyzerCli.main env args
              = PathDoesNotExist (resolve env arg)).
  { unfold RouteAnalyzerCli.main.
    destruct (RouteAnalyzerCli.parse env args) as [options targetPath] eqn:E.
    pose proof (simple_parse_target env pre arg post Ha Hpost) as Ht.
    fold args in Ht. rewrite E in Ht. simpl in Ht. subst targetPath.
    pose proof (simple_parse_fold_help env args
                  (mkOptions false false false None false, cwd env) H1 H2)
      as Hh.
    unfold RouteAnalyzerCli.parse in E. rewrite E in Hh. simpl in Hh.
    by rewrite Hh, He. }
  assert (T : snd (RouteDebuggerCli.parse env args) = cwd env).
  { unfold RouteDebuggerCli.parse.
    pose proof (extended_parse_from_target env (length args) args
                  (mkOptions false false false None false, cwd env)
                  (Nat.le_refl _)) as H.
    destruct (RouteDebuggerCli.parse_from env args _) as [o t].
    assert (E : t = cwd env).
    { destruct H as [H|(a & Hin & _ & Hex & _)]; [exact H|].
      rewrite (Hnone a Hin) in Hex. discriminate Hex. }
    by destruct (negb (json o) && negb (html o)). }
  assert (Hh : help (fst (RouteDebuggerCli.parse env args)) = false).
  { unfold RouteDebuggerCli.parse.
    pose proof (extended_parse_from_help env (length args) args
                  (mkOptions false false false None false, cwd env)
                  (Nat.le_refl _) H1 H2) as H.
    destruct (RouteDebuggerCli.parse_from env args _) as [o t].
    simpl in H. by destruct (negb (json o) && negb (html o)). }
  pose proof (extended_parse_format env args) as F. cbv zeta in F.
  assert (M : RouteDebuggerCli.main env args
              = (if report_ok env (fst (RouteDebuggerCli.parse env args))
                 then Ran else AnalysisFailed)
                  (fst (RouteDebuggerCli.parse env args)) (cwd env)
                  (RouteDebugger.run (at_path env (cwd env)))).
  { unfold RouteDebuggerCli.main.
    destruct (RouteDebuggerCli.parse env args) as [o t].
    cbn [fst snd] in *. subst t. rewrite Hh, Hcwd. cbn [negb].
    rewrite report_returns. by destruct (report_ok env o). }
  split; [exact S|]. split; [by rewrite S|]. split; [exact T|].
  split; [|split; [exact M|]].
  - intros p. rewrite M. by destruct (report_ok env _).
  - rewrite M.
    destruct (report_ok env (fst (RouteDebuggerCli.parse env args)));
      cbn [RouteDebuggerCli.exitCode]; [|reflexivity].
    destruct (json (fst (RouteDebuggerCli.parse env args))),
      (html (fst (RouteDebuggerCli.parse env args))); done.
Qed.

Lemma missing_target_path_is_fatal_in_the_simple_variant_only_witness :
  let args := [str "missing"; str "--verbose"] in
  existsSync example_env (str "missing") = false
  /\ existsSync example_env (resolve example_env (str "missing")) = false
  /\ RouteAnalyzerCli.main example_env args
     = PathDoesNotExist (str "/work/missing")
  /\ RouteAnalyzerCli.exitCode (RouteAnalyzerCli.main example_env args) = 1
  /\ snd (RouteDebuggerCli.parse example_env args) = str "/work"
  /\ RouteDebuggerCli.main example_env args
     = Ran (mkOptions true false true None false) (str "/work")
         (RouteDebugger.run (DirEnt (str "work") (Some [])))
  /\ RouteDebuggerCli.exitCode (RouteDebuggerCli.main example_env args) = 0.
Proof.
  cbv zeta.
  destruct (missing_target_path_is_fatal_in_the_simple_variant_only
              example_env [] (str "missing") [str "--verbose"])
    as (S & S1 & T & _ & M & X).
  - reflexivity.
  - repeat constructor.
  - simpl. intros [H | [H | []]]; discriminate H.
  - simpl. intros [H | [H | []]]; discriminate H.
  - reflexivity.
  - intros a [<- | [<- | []]]; reflexivity.
  - reflexivity.
  - split; [reflexivity|]. split; [reflexivity|].
    split; [exact S|]. split; [exact S1|]. split; [exact T|].
    split; [exact M | exact X].
Defined.

(** * Further properties *)

(** ** The checks of the simple variant do not look at what is there *)

Lemma add_recommendations_nil t : add_recommendations t [] = t.
Proof. destruct t. unfold add_recommendations. simpl. by rewrite app_nil_r. Qed.

Lemma add_recommendations_app t a b :
  add_recommendations (add_recommendations t a) b
  = add_recommendations t (a ++ b).
Proof. unfold add_recommendations. simpl. by rewrite app_assoc. Qed.

Lemma framed_compose r1 r2 :
  framed r1 -> framed r2 ->
  framed (fun f t => let '(f1, t1) := r1 f t in r2 f1 t1).
Proof.
  intros H1 H2 f t. rewrite (H1 f t).
  destruct (r1 [] new_Analyzer) as [a ta]. cbn [fst snd].
  rewrite (H2 (f ++ a)), (H2 a ta). cbn [fst snd].
  by rewrite add_recommendations_app, app_assoc.
Qed.

Ltac rule_framed :=
  intros f t; rule_cases;
  rewrite ?app_nil_r, ?add_recommendations_nil; reflexivity.

Lemma simple_checks_framed c p :
  framed (RouteAnalyzer.checkDynamicRouteGeneration c p)
  /\ framed (RouteAnalyzer.checkQueryClientCreation c p)
  /\ framed (RouteAnalyzer.checkContextPlacement c p)
  /\ framed (RouteAnalyzer.checkBlockedNavigation c p)
  /\ framed (RouteAnalyzer.checkActivityContext c p)
  /\ framed (RouteAnalyzer.checkMemoization c p)
  /\ framed (RouteAnalyzer.checkAsyncWrapper c p)
  /\ framed (RouteAnalyzer.checkShellPatterns c p)
  /\ framed (RouteAnalyzer.checkPerformancePatterns c p).
Proof.
  repeat split.
  - unfold RouteAnalyzer.checkDynamicRouteGeneration. rule_framed.
  - unfold RouteAnalyzer.checkQueryClientCreation. rule_framed.
  - unfold RouteAnalyzer.checkContextPlacement. rule_framed.
  - unfold RouteAnalyzer.checkBlockedNavigation. rule_framed.
  - unfold RouteAnalyzer.checkActivityContext. rule_framed.
  - unfold RouteAnalyzer.checkMemoization. rule_framed.
  - unfold RouteAnalyzer.checkAsyncWrapper. rule_framed.
  - unfold RouteAnalyzer.checkShellPatterns. rule_framed.
  - intros f t. unfold RouteAnalyzer.checkPerformancePatterns,
      RouteAnalyzer.performancePatterns. cbn [fold_left fst snd].
    rewrite add_recommendations_nil.
    destruct (RegExp_test (literal consoleLog_re false true) c) as [[] ?];
      destruct (RegExp_test (literal debugger_re false true) c) as [[] ?];
      destruct (RegExp_test (literal jsonClone_re false true) c) as [[] ?];
      cbn [fst app]; rewrite <- ?app_assoc, ?app_nil_r; reflexivity.
Qed.

(** The nine checks together append what they find and what they advise
    on the text, whatever the analyzer holds. *)
Lemma simple_runChecks_frame c p this :
  RouteAnalyzer.runChecks c p this
  = (simple_found c p, add_recommendations this (simple_advice c p)).
Proof.
  destruct (simple_checks_framed c p)
    as (H1 & H2 & H3 & H4 & H5 & H6 & H7 & H8 & H9).
  pose proof
    (framed_compose _ _ H1
       (framed_compose _ _ H2
          (framed_compose _ _ H3
             (framed_compose _ _ H4
                (framed_compose _ _ H5
                   (framed_compose _ _ H6
                      (framed_compose _ _ H7
                         (framed_compose _ _ H8 H9))))))) [] this) as H.
  exact H.
Qed.

(** ** The walk, file by file *)

Lemma reads_app a b : reads (a ++ b) = reads a ++ reads b.
Proof. unfold reads. apply flat_map_app. Qed.

Lemma simple_walked_refl this : simple_walked [] this this.
Proof.
  unfold simple_walked. simpl. rewrite !app_nil_r. repeat split; lia.
Qed.

Lemma simple_walked_readdir this d :
  simple_walked [] this (log_call this (Readdir d)).
Proof.
  unfold simple_walked. simpl. rewrite reads_app. simpl.
  rewrite !app_nil_r. repeat split; lia.
Qed.

Lemma simple_walked_trans cs1 cs2 a b c :
  simple_walked cs1 a b -> simple_walked cs2 b c ->
  simple_walked (cs1 ++ cs2) a c.
Proof.
  intros (I1 & R1 & C1 & T1 & A1 & W1 & L1) (I2 & R2 & C2 & T2 & A2 & W2 & L2).
  unfold simple_walked.
  rewrite !flat_map_app, !List.filter_app, !length_app, List.map_app.
  rewrite I2, I1, R2, R1, C2, C1, T2, T1, A2, A1, W2, W1, L2, L1.
  rewrite !app_assoc. repeat split; lia.
Qed.

Lemma simple_analyze_walked p f this :
  simple_walked [(p, readFileSync f)] this
    (RouteAnalyzer.analyzeRouteFile p f (incr_total this)).
Proof.
  unfold simple_walked, RouteAnalyzer.analyzeRouteFile, simple_file_issues,
    simple_file_advice, has_issues, readable, simple_file_issues.
  cbn [flat_map List.filter List.map fst snd].
  destruct (readFileSync f) as [c|]; cbn [length app].
  - rewrite simple_runChecks_frame.
    destruct (0 <? length (simple_found c (relative p))); simpl;
      rewrite ?reads_app, ?app_nil_r; simpl; repeat split; lia.
  - simpl. rewrite ?reads_app, ?app_nil_r. simpl. repeat split; lia.
Qed.

Lemma simple_fold_walked d files :
  Forall (fun f => forall dir this,
              simple_walked (candidate_files dir f) this
                (RouteAnalyzer.visit dir f this)) files ->
  forall this,
    simple_walked (flat_map (candidate_files d) files) this
      (fold_left (fun this f => RouteAnalyzer.visit d f this) files this).
Proof.
  induction 1 as [|f files Hf _ IH]; intros this; simpl.
  - apply simple_walked_refl.
  - eapply simple_walked_trans; [apply Hf | apply IH].
Qed.

(** The walk of the simple variant does to the analyzer what analysing
    the candidate files one after the other does. *)
Lemma simple_visit_walked file : forall dir this,
  simple_walked (candidate_files dir file) this
    (RouteAnalyzer.visit dir file this).
Proof.
  induction file as [name content | name | name files IH] using Dirent_ind;
    intros dir this; cbn [RouteAnalyzer.visit candidate_files dirent_name].
  - rewrite (proj1 (isRelevantFile_predicate name)).
    destruct (relevance_predicate name).
    + apply (simple_analyze_walked (dir ++ [name]) (FileEnt name content)).
    + apply simple_walked_refl.
  - unfold RouteAnalyzer.shouldSkipDirectory.
    destruct (array_includes skipDirs name) eqn:S; cbn [negb].
    + rewrite (skipped_name_not_relevant name S). apply simple_walked_refl.
    + apply simple_walked_readdir.
  - unfold RouteAnalyzer.shouldSkipDirectory.
    destruct (array_includes skipDirs name) eqn:S; cbn [negb].
    + rewrite (skipped_name_not_relevant name S). apply simple_walked_refl.
    + apply (simple_walked_trans [] _ _ _ _
               (simple_walked_readdir this (dir ++ [name]))).
      by apply simple_fold_walked.
Qed.

Lemma simple_run_walked root :
  simple_walked (walk_files root) new_Analyzer (RouteAnalyzer.run root).
Proof.
  unfold RouteAnalyzer.run, RouteAnalyzer.findRouteFiles, walk_files.
  destruct root as [name content | name [files|]];
    try apply simple_walked_readdir.
  apply (simple_walked_trans [] _ _ _ _
           (simple_walked_readdir new_Analyzer [])).
  apply simple_fold_walked. apply Forall_forall. intros f _.
  apply simple_visit_walked.
Qed.

Lemma extended_walked_refl this : extended_walked [] this this.
Proof.
  unfold extended_walked. simpl. rewrite !app_nil_r. repeat split; lia.
Qed.

Lemma extended_walked_readdir this d :
  extended_walked [] this (log_call this (Readdir d)).
Proof.
  unfold extended_walked. simpl. rewrite reads_app. simpl.
  rewrite !app_nil_r. repeat split; lia.
Qed.

Lemma extended_walked_trans cs1 cs2 a b c :
  extended_walked cs1 a b -> extended_walked cs2 b c ->
  extended_walked (cs1 ++ cs2) a c.
Proof.
  intros (I1 & R1 & C1 & T1 & A1 & W1 & L1) (I2 & R2 & C2 & T2 & A2 & W2 & L2).
  unfold extended_walked.
  rewrite !flat_map_app, !List.filter_app, !length_app, List.map_app.
  rewrite I2, I1, R2, R1, C2, C1, T2, T1, A2, A1, W2, W1, L2, L1.
  rewrite !app_assoc. repeat split; lia.
Qed.

Lemma extended_analyze_walked p f this :
  extended_walked [(p, readFileSync f)] this
    (RouteDebugger.analyzeRouteFile p f this).
Proof.
  unfold extended_walked, RouteDebugger.analyzeRouteFile,
    extended_file_issues, extended_file_config, has_issues, readable,
    extended_file_issues.
  cbn [flat_map List.filter List.map fst snd].
  destruct (readFileSync f) as [c|]; cbn [length app].
  - destruct (0 <? length (RouteDebugger.runChecks c (relative p))); simpl;
      rewrite ?reads_app, ?app_nil_r; simpl; repeat split; lia.
  - simpl. rewrite ?reads_app, ?app_nil_r. simpl. repeat split; lia.
Qed.

Lemma extended_fold_walked d files :
  Forall (fun f => forall dir this,
              extended_walked (candidate_files dir f) this
                (RouteDebugger.visit dir f this)) files ->
  forall this,
    extended_walked (flat_map (candidate_files d) files) this
      (fold_left (fun this f => RouteDebugger.visit d f this) files this).
Proof.
  induction 1 as [|f files Hf _ IH]; intros this; simpl.
  - apply extended_walked_refl.
  - eapply extended_walked_trans; [apply Hf | apply IH].
Qed.

Lemma extended_visit_walked file : forall dir this,
  extended_walked (candidate_files dir file) this
    (RouteDebugger.visit dir file this).
Proof.
  induction file as [name content | name | name files IH] using Dirent_ind;
    intros dir this; cbn [RouteDebugger.visit candidate_files dirent_name].
  - rewrite (proj2 (isRelevantFile_predicate name)).
    destruct (relevance_predicate name).
    + apply (extended_analyze_walked (dir ++ [name]) (FileEnt name content)).
    + apply extended_walked_refl.
  - unfold RouteDebugger.shouldSkipDirectory.
    destruct (array_includes skipDirs name) eqn:S; cbn [negb].
    + change (RouteDebugger.isRelevantFile name)
        with (RouteAnalyzer.isRelevantFile name).
      rewrite (skipped_name_not_relevant name S). apply extended_walked_refl.
    + apply extended_walked_readdir.
  - unfold RouteDebugger.shouldSkipDirectory.
    destruct (array_includes skipDirs name) eqn:S; cbn [negb].
    + change (RouteDebugger.isRelevantFile name)
        with (RouteAnalyzer.isRelevantFile name).
      rewrite (skipped_name_not_relevant name S). apply extended_walked_refl.
    + apply (extended_walked_trans [] _ _ _ _
               (extended_walked_readdir this (dir ++ [name]))).
      by apply extended_fold_walked.
Qed.

Lemma extended_findRouteFiles_walked root :
  extended_walked (walk_files root) new_Analyzer
    (RouteDebugger.findRouteFiles root new_Analyzer).
Proof.
  unfold RouteDebugger.findRouteFiles, walk_files.
  destruct root as [name content | name [files|]];
    try apply extended_walked_readdir.
  apply (extended_walked_trans [] _ _ _ _
           (extended_walked_readdir new_Analyzer [])).
  apply extended_fold_walked. apply Forall_forall. intros f _.
  apply extended_visit_walked.
Qed.

(** ** The checks of the extended variant, one by one *)

Ltac rule_appends :=
  intros f; rule_cases; rewrite ?app_nil_r; reflexivity.

Lemma extended_checks_append c p :
  (forall f, RouteDebugger.checkDynamicRouteGeneration c p f
             = f ++ RouteDebugger.checkDynamicRouteGeneration c p [])
  /\ (forall f, RouteDebugger.checkQueryClientCreation c p f
                = f ++ RouteDebugger.checkQueryClientCreation c p [])
  /\ (forall f, RouteDebugger.checkContextPlacement c p f
                = f ++ RouteDebugger.checkContextPlacement c p [])
  /\ (forall f, RouteDebugger.checkBlockedNavigation c p f
                = f ++ RouteDebugger.checkBlockedNavigation c p [])
  /\ (forall f, RouteDebugger.checkActivityContext c p f
                = f ++ RouteDebugger.checkActivityContext c p [])
  /\ (forall f, RouteDebugger.checkMemoization c p f
                = f ++ RouteDebugger.checkMemoization c p [])
  /\ (forall f, RouteDebugger.checkAsyncWrapper c p f
                = f ++ RouteDebugger.checkAsyncWrapper c p [])
  /\ (forall f, RouteDebugger.checkShellPatterns c p f
                = f ++ RouteDebugger.checkShellPatterns c p [])
  /\ (forall f, RouteDebugger.checkPerformancePatterns c p f
                = f ++ RouteDebugger.checkPerformancePatterns c p []).
Proof.
  repeat split.
  - unfold RouteDebugger.checkDynamicRouteGeneration. rule_appends.
  - unfold RouteDebugger.checkQueryClientCreation. rule_appends.
  - unfold RouteDebugger.checkContextPlacement. rule_appends.
  - unfold RouteDebugger.checkBlockedNavigation. rule_appends.
  - unfold RouteDebugger.checkActivityContext. rule_appends.
  - unfold RouteDebugger.checkMemoization. rule_appends.
  - unfold RouteDebugger.checkAsyncWrapper. rule_appends.
  - unfold RouteDebugger.checkShellPatterns. rule_appends.
  - intros f. unfold RouteDebugger.checkPerformancePatterns,
      RouteDebugger.performancePatterns. cbn [fold_left].
    destruct (RegExp_test (literal consoleLog_re false true) c) as [[] ?];
      destruct (RegExp_test (literal debugger_re false true) c) as [[] ?];
      destruct (RegExp_test (literal jsonClone_re false true) c) as [[] ?];
      cbn [fst app]; rewrite <- ?app_assoc, ?app_nil_r; reflexivity.
Qed.

Lemma extended_runChecks_parts (content relativePath : text) :
  RouteDebugger.runChecks content relativePath
  = RouteDebugger.checkDynamicRouteGeneration content relativePath []
    ++ RouteDebugger.checkQueryClientCreation content relativePath []
    ++ RouteDebugger.checkContextPlacement content relativePath []
    ++ RouteDebugger.checkBlockedNavigation content relativePath []
    ++ RouteDebugger.checkActivityContext content relativePath []
    ++ RouteDebugger.checkMemoization content relativePath []
    ++ RouteDebugger.checkAsyncWrapper content relativePath []
    ++ RouteDebugger.checkShellPatterns content relativePath []
    ++ RouteDebugger.checkPerformancePatterns content relativePath [].
Proof.
  destruct (extended_checks_append content relativePath)
    as (_ & H2 & H3 & H4 & H5 & H6 & H7 & H8 & H9).
  unfold RouteDebugger.runChecks. cbv zeta.
  rewrite H9, H8, H7, H6, H5, H4, H3, H2.
  by rewrite <- !app_assoc.
Qed.

Lemma framed_parts r1 r2 :
  framed r1 -> framed r2 ->
  let r := fun f t => let '(f1, t1) := r1 f t in r2 f1 t1 in
  fst (r [] new_Analyzer)
  = fst (r1 [] new_Analyzer) ++ fst (r2 [] new_Analyzer)
  /\ recommendations (snd (r [] new_Analyzer))
     = recommendations (snd (r1 [] new_Analyzer))
       ++ recommendations (snd (r2 [] new_Analyzer)).
Proof.
  intros H1 H2. cbv beta zeta.
  destruct (r1 [] new_Analyzer) as [a ta].
  rewrite (H2 a ta). cbn [fst snd]. split; reflexivity.
Qed.

(** What the simple checks find and advise is what each check finds and
    advises on its own, in the order of the checks. *)
Lemma simple_runChecks_parts c p :
  let part rule := rule c p (@nil Issue) new_Analyzer in
  simple_found c p
  = fst (part RouteAnalyzer.checkDynamicRouteGeneration)
    ++ fst (part RouteAnalyzer.checkQueryClientCreation)
    ++ fst (part RouteAnalyzer.checkContextPlacement)
    ++ fst (part RouteAnalyzer.checkBlockedNavigation)
    ++ fst (part RouteAnalyzer.checkActivityContext)
    ++ fst (part RouteAnalyzer.checkMemoization)
    ++ fst (part RouteAnalyzer.checkAsyncWrapper)
    ++ fst (part RouteAnalyzer.checkShellPatterns)
    ++ fst (part RouteAnalyzer.checkPerformancePatterns)
  /\ simple_advice c p
     = recommendations (snd (part RouteAnalyzer.checkDynamicRouteGeneration))
       ++ recommendations (snd (part RouteAnalyzer.checkQueryClientCreation))
       ++ recommendations (snd (part RouteAnalyzer.checkContextPlacement))
       ++ recommendations (snd (part RouteAnalyzer.checkBlockedNavigation))
       ++ recommendations (snd (part RouteAnalyzer.checkActivityContext))
       ++ recommendations (snd (part RouteAnalyzer.checkMemoization))
       ++ recommendations (snd (part RouteAnalyzer.checkAsyncWrapper))
       ++ recommendations (snd (part RouteAnalyzer.checkShellPatterns))
       ++ recommendations (snd (part RouteAnalyzer.checkPerformancePatterns)).
Proof.
  cbv zeta.
  destruct (simple_checks_framed c p)
    as (H1 & H2 & H3 & H4 & H5 & H6 & H7 & H8 & H9).
  pose proof (framed_compose _ _ H8 H9) as G8.
  pose proof (framed_compose _ _ H7 G8) as G7.
  pose proof (framed_compose _ _ H6 G7) as G6.
  pose proof (framed_compose _ _ H5 G6) as G5.
  pose proof (framed_compose _ _ H4 G5) as G4.
  pose proof (framed_compose _ _ H3 G4) as G3.
  pose proof (framed_compose _ _ H2 G3) as G2.
  destruct (framed_parts _ _ H8 H9) as [F8 A8].
  destruct (framed_parts _ _ H7 G8) as [F7 A7].
  destruct (framed_parts _ _ H6 G7) as [F6 A6].
  destruct (framed_parts _ _ H5 G6) as [F5 A5].
  destruct (framed_parts _ _ H4 G5) as [F4 A4].
  destruct (framed_parts _ _ H3 G4) as [F3 A3].
  destruct (framed_parts _ _ H2 G3) as [F2 A2].
  destruct (framed_parts _ _ H1 G2) as [F1 A1].
  unfold simple_found, simple_advice, RouteAnalyzer.runChecks.
  split.
  - rewrite F1, F2, F3, F4, F5, F6, F7, F8. reflexivity.
  - rewrite A1, A2, A3, A4, A5, A6, A7, A8. reflexivity.
Qed.

Lemma file_advice_ok_app p di1 dr1 di2 dr2 :
  file_advice_ok p di1 dr1 -> file_advice_ok p di2 dr2 ->
  file_advice_ok p (di1 ++ di2) (dr1 ++ dr2).
Proof.
  intros (I1 & R1 & L1) (I2 & R2 & L2). repeat split.
  - by apply Forall_app.
  - by apply Forall_app.
  - rewrite !length_app. lia.
Qed.

Ltac rule_advice :=
  rule_cases; cbn [fst snd recommendations push_recommendation new_Analyzer app];
  repeat split; repeat constructor.

Lemma simple_checks_advice c p :
  let part rule := rule c p (@nil Issue) new_Analyzer in
  let ok (r : list Issue * Analyzer) :=
    file_advice_ok p (fst r) (recommendations (snd r)) in
  ok (part RouteAnalyzer.checkDynamicRouteGeneration)
  /\ ok (part RouteAnalyzer.checkQueryClientCreation)
  /\ ok (part RouteAnalyzer.checkContextPlacement)
  /\ ok (part RouteAnalyzer.checkBlockedNavigation)
  /\ ok (part RouteAnalyzer.checkActivityContext)
  /\ ok (part RouteAnalyzer.checkMemoization)
  /\ ok (part RouteAnalyzer.checkAsyncWrapper)
  /\ ok (part RouteAnalyzer.checkShellPatterns)
  /\ ok (part RouteAnalyzer.checkPerformancePatterns).
Proof.
  cbv zeta. unfold file_advice_ok.
  split; [unfold RouteAnalyzer.checkDynamicRouteGeneration; rule_advice|].
  split; [unfold RouteAnalyzer.checkQueryClientCreation; rule_advice|].
  split; [unfold RouteAnalyzer.checkContextPlacement; rule_advice|].
  split; [unfold RouteAnalyzer.checkBlockedNavigation; rule_advice|].
  split; [unfold RouteAnalyzer.checkActivityContext; rule_advice|].
  split; [unfold RouteAnalyzer.checkMemoization; rule_advice|].
  split; [unfold RouteAnalyzer.checkAsyncWrapper; rule_advice|].
  split; [unfold RouteAnalyzer.checkShellPatterns; rule_advice|].
  unfold RouteAnalyzer.checkPerformancePatterns,
    RouteAnalyzer.performancePatterns. cbn [fold_left fst snd].
  destruct (RegExp_test (literal consoleLog_re false true) c) as [[] ?];
    destruct (RegExp_test (literal debugger_re false true) c) as [[] ?];
    destruct (RegExp_test (literal jsonClone_re false true) c) as [[] ?];
    cbn [fst app recommendations new_Analyzer length];
    repeat split; repeat constructor; lia.
Qed.

Lemma simple_file_advice_ok c p :
  file_advice_ok p (simple_found c p) (simple_advice c p).
Proof.
  destruct (simple_runChecks_parts c p) as [-> ->].
  destruct (simple_checks_advice c p)
    as (H1 & H2 & H3 & H4 & H5 & H6 & H7 & H8 & H9).
  repeat (apply file_advice_ok_app; [assumption|]). assumption.
Qed.

(** ** The table of the rules *)

Lemma sublist_map {A B : Type} (g : A -> B) l1 l2 :
  sublist l1 l2 -> sublist (List.map g l1) (List.map g l2).
Proof. induction 1; simpl; by constructor. Qed.

Ltac rule_kind :=
  rule_cases; cbn [List.map kind_of type severity message fix_ file];
  split; repeat constructor.

Lemma extended_checks_kinds c p :
  let ok (l : list Issue) (ks : list (string * string * string * option string)) :=
    sublist (List.map kind_of l) ks /\ Forall (fun i => file i = p) l in
  ok (RouteDebugger.checkDynamicRouteGeneration c p []) (take 1 extended_kinds)
  /\ ok (RouteDebugger.checkQueryClientCreation c p [])
       (take 1 (drop 1 extended_kinds))
  /\ ok (RouteDebugger.checkContextPlacement c p [])
       (take 1 (drop 2 extended_kinds))
  /\ ok (RouteDebugger.checkBlockedNavigation c p [])
       (take 1 (drop 3 extended_kinds))
  /\ ok (RouteDebugger.checkActivityContext c p [])
       (take 1 (drop 4 extended_kinds))
  /\ ok (RouteDebugger.checkMemoization c p [])
       (take 1 (drop 5 extended_kinds))
  /\ ok (RouteDebugger.checkAsyncWrapper c p [])
       (take 1 (drop 6 extended_kinds))
  /\ ok (RouteDebugger.checkShellPatterns c p [])
       (take 1 (drop 7 extended_kinds))
  /\ ok (RouteDebugger.checkPerformancePatterns c p [])
       (drop 8 extended_kinds).
Proof.
  cbv zeta. cbn [take drop extended_kinds].
  split; [unfold RouteDebugger.checkDynamicRouteGeneration; rule_kind|].
  split; [unfold RouteDebugger.checkQueryClientCreation; rule_kind|].
  split; [unfold RouteDebugger.checkContextPlacement; rule_kind|].
  split; [unfold RouteDebugger.checkBlockedNavigation; rule_kind|].
  split; [unfold RouteDebugger.checkActivityContext; rule_kind|].
  split; [unfold RouteDebugger.checkMemoization; rule_kind|].
  split; [unfold RouteDebugger.checkAsyncWrapper; rule_kind|].
  split; [unfold RouteDebugger.checkShellPatterns; rule_kind|].
  unfold RouteDebugger.checkPerformancePatterns,
    RouteDebugger.performancePatterns. cbn [fold_left].
  destruct (RegExp_test (literal consoleLog_re false true) c) as [[] ?];
    destruct (RegExp_test (literal debugger_re false true) c) as [[] ?];
    destruct (RegExp_test (literal jsonClone_re false true) c) as [[] ?];
    cbn [fst app List.map kind_of type severity message fix_ file];
    split; repeat constructor.
Qed.

Lemma extended_runChecks_kinds c p :
  sublist (List.map kind_of (RouteDebugger.runChecks c p)) extended_kinds
  /\ Forall (fun i => file i = p) (RouteDebugger.runChecks c p).
Proof.
  rewrite extended_runChecks_parts.
  destruct (extended_checks_kinds c p)
    as ([K1 F1] & [K2 F2] & [K3 F3] & [K4 F4] & [K5 F5] & [K6 F6] & [K7 F7]
        & [K8 F8] & [K9 F9]).
  split.
  - rewrite !List.map_app.
    change extended_kinds
      with (take 1 extended_kinds ++ take 1 (drop 1 extended_kinds)
            ++ take 1 (drop 2 extended_kinds)
            ++ take 1 (drop 3 extended_kinds)
            ++ take 1 (drop 4 extended_kinds)
            ++ take 1 (drop 5 extended_kinds)
            ++ take 1 (drop 6 extended_kinds)
            ++ take 1 (drop 7 extended_kinds) ++ drop 8 extended_kinds).
    repeat (apply sublist_app; [assumption|]). assumption.
  - repeat (apply Forall_app; split; [assumption|]). assumption.
Qed.

Lemma simple_found_erases c p :
  simple_found c p = List.map erase_fix (RouteDebugger.runChecks c p).
Proof.
  unfold simple_found. by destruct (runChecks_agree c p new_Analyzer) as [<- _].
Qed.

Lemma simple_runChecks_kinds c p this :
  sublist (List.map kind_of (fst (RouteAnalyzer.runChecks c p this)))
    simple_kinds
  /\ Forall (fun i => file i = p) (fst (RouteAnalyzer.runChecks c p this)).
Proof.
  rewrite (runChecks_issues_any_state c p this new_Analyzer).
  fold (simple_found c p). rewrite simple_found_erases.
  destruct (extended_runChecks_kinds c p) as [K F]. split.
  - unfold simple_kinds. rewrite List.map_map.
    rewrite <- (List.map_map kind_of (fun k => (fst k, @None string))).
    by apply sublist_map.
  - apply Forall_map. eapply Forall_impl; [exact F|]. by intros [].
Qed.

(** X1.  The issues that the nine checks emit for one file follow the
    table of the rules: their kinds (type, severity, message, fix string)
    are kinds of the table, in the order of the table and each at most
    once, so a file gets at most eleven issues; and every one of them
    carries the path of the file.  The simple variant emits the same kinds
    without fix strings. *)
Theorem issues_of_a_file_follow_the_rule_table
    (content relativePath : text) (this : Analyzer) :
  let extended := RouteDebugger.runChecks content relativePath in
  let simple := fst (RouteAnalyzer.runChecks content relativePath this) in
  sublist (List.map kind_of extended) extended_kinds
  /\ sublist (List.map kind_of simple) simple_kinds
  /\ Forall (fun i => file i = relativePath) extended
  /\ Forall (fun i => file i = relativePath) simple
  /\ length extended <= 11 /\ length simple <= 11.
Proof.
  cbv zeta.
  destruct (extended_runChecks_kinds content relativePath) as [KE FE].
  destruct (simple_runChecks_kinds content relativePath this) as [KS FS].
  repeat split; try assumption.
  - apply sublist_length in KE. by rewrite length_map in KE.
  - apply sublist_length in KS. by rewrite length_map in KS.
Qed.

(** X2.  No check alters or suppresses what another one finds.  In the
    extended variant the issues of a file are what each of the nine checks
    finds on its own, one after the other.  In the simple variant the same
    holds of the issues and of the recommendations, which are appended to
    those the analyzer already holds. *)
Theorem checks_do_not_interfere
    (content relativePath : text) (this : Analyzer) :
  let c := content in
  let p := relativePath in
  let part rule := rule c p (@nil Issue) new_Analyzer in
  RouteDebugger.runChecks c p
  = RouteDebugger.checkDynamicRouteGeneration c p []
    ++ RouteDebugger.checkQueryClientCreation c p []
    ++ RouteDebugger.checkContextPlacement c p []
    ++ RouteDebugger.checkBlockedNavigation c p []
    ++ RouteDebugger.checkActivityContext c p []
    ++ RouteDebugger.checkMemoization c p []
    ++ RouteDebugger.checkAsyncWrapper c p []
    ++ RouteDebugger.checkShellPatterns c p []
    ++ RouteDebugger.checkPerformancePatterns c p []
  /\ fst (RouteAnalyzer.runChecks c p this)
     = fst (part RouteAnalyzer.checkDynamicRouteGeneration)
       ++ fst (part RouteAnalyzer.checkQueryClientCreation)
       ++ fst (part RouteAnalyzer.checkContextPlacement)
       ++ fst (part RouteAnalyzer.checkBlockedNavigation)
       ++ fst (part RouteAnalyzer.checkActivityContext)
       ++ fst (part RouteAnalyzer.checkMemoization)
       ++ fst (part RouteAnalyzer.checkAsyncWrapper)
       ++ fst (part RouteAnalyzer.checkShellPatterns)
       ++ fst (part RouteAnalyzer.checkPerformancePatterns)
  /\ recommendations (snd (RouteAnalyzer.runChecks c p this))
     = recommendations this
       ++ recommendations (snd (part RouteAnalyzer.checkDynamicRouteGeneration))
       ++ recommendations (snd (part RouteAnalyzer.checkQueryClientCreation))
       ++ recommendations (snd (part RouteAnalyzer.checkContextPlacement))
       ++ recommendations (snd (part RouteAnalyzer.checkBlockedNavigation))
       ++ recommendations (snd (part RouteAnalyzer.checkActivityContext))
       ++ recommendations (snd (part RouteAnalyzer.checkMemoization))
       ++ recommendations (snd (part RouteAnalyzer.checkAsyncWrapper))
       ++ recommendations (snd (part RouteAnalyzer.checkShellPatterns))
       ++ recommendations (snd (part RouteAnalyzer.checkPerformancePatterns)).
Proof.
  cbv zeta. split; [apply extended_runChecks_parts|].
  rewrite simple_runChecks_frame. cbn [fst snd add_recommendations recommendations].
  destruct (simple_runChecks_parts content relativePath) as [-> ->].
  split; reflexivity.
Qed.

(** ** The result of a run *)

Lemma extended_run_walked root :
  let this := RouteDebugger.run root in
  let cs := walk_files root in
  issues this = flat_map extended_file_issues cs
  /\ routeConfigs this = flat_map extended_file_config cs
  /\ total (fileStats this) = 0
  /\ analyzed (fileStats this) = length (List.filter readable cs)
  /\ withIssues (fileStats this)
     = length (List.filter (has_issues extended_file_issues) cs)
  /\ reads (fsLog this) = List.map fst cs.
Proof.
  cbv zeta. unfold RouteDebugger.run.
  destruct (generateRecommendations_keeps
              (RouteDebugger.findRouteFiles root new_Analyzer))
    as (-> & -> & -> & ->).
  destruct (extended_findRouteFiles_walked root)
    as (I & _ & C & T & A & W & L).
  rewrite I, C, T, A, W, L. simpl. repeat split.
Qed.

(** X3.  Either variant reads the candidate files of the tree, and only
    them, in the order of a depth-first walk along the listings: the
    entries that are not directories, whose name satisfies the relevance
    predicate, below readable directories that are not skipped. *)
Theorem files_are_read_depth_first (root : Dirent) :
  reads (fsLog (RouteAnalyzer.run root)) = List.map fst (walk_files root)
  /\ reads (fsLog (RouteDebugger.run root)) = List.map fst (walk_files root).
Proof.
  split.
  - by destruct (simple_run_walked root) as (_ & _ & _ & _ & _ & _ & ->).
  - by destruct (extended_run_walked root) as (_ & _ & _ & _ & _ & ->).
Qed.

(** X4.  The issues of a run are the issues of the candidate files that
    could be read, file after file in the order of the walk, and within a
    file in the order of the checks. *)
Theorem issues_are_in_walk_order (root : Dirent) :
  issues (RouteAnalyzer.run root)
  = flat_map
      (fun x => match snd x with
                | Some content =>
                    fst (RouteAnalyzer.runChecks content (relative (fst x))
                           new_Analyzer)
                | None => []
                end) (walk_files root)
  /\ issues (RouteDebugger.run root)
     = flat_map
         (fun x => match snd x with
                   | Some content =>
                       RouteDebugger.runChecks content (relative (fst x))
                   | None => []
                   end) (walk_files root).
Proof.
  split.
  - by destruct (simple_run_walked root) as (-> & _).
  - by destruct (extended_run_walked root) as (-> & _).
Qed.

(** X5.  What the counters count.  In the simple variant [total] is the
    number of candidate files, [analyzed] the number of those that could
    be read, [withIssues] the number of those in which the checks found an
    issue.  The extended variant counts [analyzed] and [withIssues] the
    same way. *)
Theorem fileStats_count_the_candidate_files (root : Dirent) :
  let cs := walk_files root in
  let simple := fileStats (RouteAnalyzer.run root) in
  let extended := fileStats (RouteDebugger.run root) in
  total simple = length cs
  /\ analyzed simple = length (List.filter readable cs)
  /\ withIssues simple
     = length (List.filter (has_issues simple_file_issues) cs)
  /\ analyzed extended = length (List.filter readable cs)
  /\ withIssues extended
     = length (List.filter (has_issues extended_file_issues) cs).
Proof.
  cbv zeta.
  destruct (simple_run_walked root) as (_ & _ & _ & T & A & W & _).
  destruct (extended_run_walked root) as (_ & _ & _ & A' & W' & _).
  rewrite T, A, W, A', W'. simpl. repeat split.
Qed.

Lemma flat_map_length_bounds {A B : Type} (g : A -> list B) (n : nat) l :
  (forall x, length (g x) <= n) ->
  length (List.filter (fun x => 0 <? length (g x)) l)
  <= length (flat_map g l)
  /\ length (flat_map g l)
     <= n * length (List.filter (fun x => 0 <? length (g x)) l).
Proof.
  intros Hn. induction l as [|x l [IH1 IH2]]; simpl; [lia|].
  rewrite length_app. specialize (Hn x).
  destruct (Nat.ltb_spec 0 (length (g x))); simpl; lia.
Qed.

Lemma simple_file_issues_bound x : length (simple_file_issues x) <= 11.
Proof.
  unfold simple_file_issues. destruct (snd x) as [c|]; simpl; [|lia].
  destruct (simple_runChecks_kinds c (relative (fst x)) new_Analyzer)
    as [K _].
  apply sublist_length in K. by rewrite length_map in K.
Qed.

Lemma extended_file_issues_bound x : length (extended_file_issues x) <= 11.
Proof.
  unfold extended_file_issues. destruct (snd x) as [c|]; simpl; [|lia].
  destruct (extended_runChecks_kinds c (relative (fst x))) as [K _].
  apply sublist_length in K. by rewrite length_map in K.
Qed.

(** X6.  In the result of a run of either variant, there are at least as
    many issues as files with issues, and at most eleven times as many. *)
Theorem issues_per_file_with_issues (root : Dirent) :
  let simple := RouteAnalyzer.run root in
  let extended := RouteDebugger.run root in
  withIssues (fileStats simple) <= length (issues simple)
  /\ length (issues simple) <= 11 * withIssues (fileStats simple)
  /\ withIssues (fileStats extended) <= length (issues extended)
  /\ length (issues extended) <= 11 * withIssues (fileStats extended).
Proof.
  cbv zeta.
  destruct (simple_run_walked root) as (I & _ & _ & _ & _ & W & _).
  destruct (extended_run_walked root) as (I' & _ & _ & _ & W' & _).
  rewrite I, W, I', W'. simpl. unfold has_issues.
  destruct (flat_map_length_bounds simple_file_issues 11 (walk_files root)
              simple_file_issues_bound).
  destruct (flat_map_length_bounds extended_file_issues 11
              (walk_files root) extended_file_issues_bound).
  repeat split; assumption.
Qed.

(** X7.  Every issue of a run carries the relative path of a file that the
    run has read. *)
Theorem every_issue_names_a_file_that_was_read (root : Dirent) (i : Issue) :
  (In i (issues (RouteAnalyzer.run root)) ->
   exists p, In p (reads (fsLog (RouteAnalyzer.run root)))
             /\ file i = relative p)
  /\ (In i (issues (RouteDebugger.run root)) ->
      exists p, In p (reads (fsLog (RouteDebugger.run root)))
                /\ file i = relative p).
Proof.
  split; intros H.
  - destruct (simple_run_walked root) as (I & _ & _ & _ & _ & _ & L).
    rewrite I in H. rewrite L. simpl in *.
    apply in_flat_map in H as ([p r] & Hx & Hi).
    exists p. split; [by apply (in_map fst _ _ Hx)|].
    unfold simple_file_issues in Hi. simpl in Hi.
    destruct r as [c|]; [|done].
    destruct (simple_runChecks_kinds c (relative p) new_Analyzer) as [_ F].
    rewrite Forall_forall in F. by apply F, list_elem_of_In.
  - destruct (extended_run_walked root) as (I & _ & _ & _ & _ & L).
    rewrite I in H. rewrite L.
    apply in_flat_map in H as ([p r] & Hx & Hi).
    exists p. split; [by apply (in_map fst _ _ Hx)|].
    unfold extended_file_issues in Hi. simpl in Hi.
    destruct r as [c|]; [|done].
    destruct (extended_runChecks_kinds c (relative p)) as [_ F].
    rewrite Forall_forall in F. by apply F, list_elem_of_In.
Qed.

Lemma every_issue_names_a_file_that_was_read_witness :
  let root :=
    DirEnt (str "project")
      (Some [DirEnt (str "src")
               (Some [FileEnt (str "routes.js") (Some (str "debugger"))])]) in
  exists p, In p (reads (fsLog (RouteAnalyzer.run root)))
            /\ str "src/routes.js" = relative p.
Proof.
  cbv zeta.
  apply (proj1 (every_issue_names_a_file_that_was_read
                  (DirEnt (str "project")
                     (Some [DirEnt (str "src")
                              (Some [FileEnt (str "routes.js")
                                       (Some (str "debugger"))])]))
                  (mkIssue "performance-issue" "low" (str "src/routes.js")
                     "Debugger statements found - remove for production"
                     None None None))).
  left. reflexivity.
Defined.

Lemma flat_map_length_le {A B C : Type} (g : A -> list B) (h : A -> list C) l :
  (forall x, length (g x) <= length (h x)) ->
  length (flat_map g l) <= length (flat_map h l).
Proof.
  intros H. induction l as [|x l IH]; simpl; [lia|].
  rewrite !length_app. specialize (H x). lia.
Qed.

Lemma simple_file_advice_paired x :
  file_advice_ok (relative (fst x)) (simple_file_issues x)
    (simple_file_advice x).
Proof.
  unfold simple_file_issues, simple_file_advice.
  destruct (snd x) as [c|]; [apply simple_file_advice_ok|].
  repeat split; by constructor.
Qed.

(** X8.  In the simple variant a recommendation is always made along with
    an issue of the same file: every recommendation of a run names the
    file of one of its issues and has neither priority nor action, and
    there are no more recommendations than issues. *)
Theorem simple_recommendations_come_with_issues (root : Dirent) :
  let this := RouteAnalyzer.run root in
  length (recommendations this) <= length (issues this)
  /\ forall r, In r (recommendations this) ->
       priority r = None /\ action r = None
       /\ exists i, In i (issues this) /\ rec_file r = Some (file i).
Proof.
  cbv zeta.
  destruct (simple_run_walked root) as (I & R & _). rewrite I, R. simpl.
  split.
  - apply flat_map_length_le. intros x.
    by destruct (simple_file_advice_paired x) as (_ & _ & L).
  - intros r Hr. apply in_flat_map in Hr as (x & Hx & Hr).
    destruct (simple_file_advice_paired x) as (Fi & Fr & L).
    rewrite Forall_forall in Fr.
    destruct (Fr r (proj2 (list_elem_of_In _ _) Hr)) as (E1 & E2 & E3).
    split; [done|]. split; [done|].
    destruct (simple_file_issues x) as [|i l] eqn:E.
    + destruct (simple_file_advice x); [done | simpl in L; lia].
    + exists i. split.
      * apply in_flat_map. exists x. split; [done|]. rewrite E. by left.
      * inversion Fi; subst. congruence.
Qed.

Lemma extended_configs_count cs :
  length (flat_map extended_file_config cs) = length (List.filter readable cs)
  /\ length (List.filter hasUnmemoizedRoutes
               (flat_map extended_file_config cs))
     = length (List.filter unmemoized cs).
Proof.
  induction cs as [|[p r] cs [IH1 IH2]]; [done|].
  destruct r as [c|].
  - change (flat_map extended_file_config ((p, Some c) :: cs))
      with (RouteDebugger.extractRouteConfig c (relative p)
            :: flat_map extended_file_config cs).
    change (List.filter readable ((p, Some c) :: cs))
      with ((p, Some c) :: List.filter readable cs).
    cbn [List.filter length]. rewrite IH1. split; [done|].
    change (unmemoized (p, Some c))
      with (hasUnmemoizedRoutes
              (RouteDebugger.extractRouteConfig c (relative p))).
    destruct (hasUnmemoizedRoutes _); cbn [length]; by rewrite IH2.
  - change (flat_map extended_file_config ((p, None) :: cs))
      with (flat_map extended_file_config cs).
    change (List.filter readable ((p, None) :: cs))
      with (List.filter readable cs).
    change (List.filter unmemoized ((p, None) :: cs))
      with (List.filter unmemoized cs).
    by split.
Qed.

(** X9.  The recommendations of a run of the extended variant are those of
    [generateRecommendations], no file being recommended anything.  They
    are, in this order: to address the high-severity issues, when there is
    one; to refactor, when there are more than three medium-severity
    issues; to memoize broadly, when more than ten files were analysed and
    more than five of them mention routes.map without useMemo. *)
Theorem extended_recommendations_are_global (root : Dirent) :
  let this := RouteDebugger.run root in
  let n sev :=
    length (List.filter (RouteDebugger.severity_is sev) (issues this)) in
  recommendations this
  = (if 0 <? n "high"%string then [address_high] else [])
    ++ (if 3 <? n "medium"%string then [refactor_medium] else [])
    ++ (if (10 <? analyzed (fileStats this))
           && (5 <? length (List.filter unmemoized (walk_files root)))
        then [memoize_broadly] else []).
Proof.
  cbv zeta.
  destruct (extended_run_walked root) as (_ & _ & _ & -> & _).
  unfold RouteDebugger.run.
  destruct (generateRecommendations_keeps
              (RouteDebugger.findRouteFiles root new_Analyzer))
    as (-> & _).
  destruct (extended_findRouteFiles_walked root)
    as (_ & R & C & _).
  unfold RouteDebugger.generateRecommendations.
  destruct (extended_configs_count (walk_files root)) as [N1 N2].
  set (t := RouteDebugger.findRouteFiles root new_Analyzer) in *.
  simpl in R, C.
  destruct (0 <? length (List.filter (RouteDebugger.severity_is "high")
                           (issues t)));
    destruct (3 <? length (List.filter (RouteDebugger.severity_is "medium")
                             (issues t)));
    cbn [routeConfigs push_recommendation recommendations];
    rewrite C, N1, N2;
    destruct ((10 <? length (List.filter readable (walk_files root)))
              && (5 <? length (List.filter unmemoized (walk_files root))));
    cbn [routeConfigs push_recommendation recommendations];
    rewrite R; reflexivity.
Qed.

Lemma simple_recommendations_come_with_issues_witness :
  let root :=
    DirEnt (str "project")
      (Some [FileEnt (str "routes.js") (Some (str "<BlockedNavigation/>"))]) in
  let r :=
    file_rec (str "routes.js")
      "Review BlockedNavigation placement and when conditions" in
  In r (recommendations (RouteAnalyzer.run root))
  /\ exists i, In i (issues (RouteAnalyzer.run root))
               /\ rec_file r = Some (file i).
Proof.
  cbv zeta.
  assert (H : In (file_rec (str "routes.js")
                    "Review BlockedNavigation placement and when conditions")
                (recommendations
                   (RouteAnalyzer.run
                      (DirEnt (str "project")
                         (Some [FileEnt (str "routes.js")
                                  (Some (str "<BlockedNavigation/>"))])))))
    by (left; reflexivity).
  split; [exact H|].
  exact (proj2 (proj2 (proj2 (simple_recommendations_come_with_issues _) _ H))).
Defined.

(** X10.  A tree without candidate files (no relevant name below the
    target, the target unreadable, or not a directory): the run of either
    variant comes to its report with no issue, no recommendation and all
    counters at zero. *)
Theorem run_without_candidate_files (root : Dirent) :
  walk_files root = [] ->
  let simple := RouteAnalyzer.run root in
  let extended := RouteDebugger.run root in
  issues simple = [] /\ recommendations simple = []
  /\ fileStats simple = mkFileStats 0 0 0
  /\ issues extended = [] /\ recommendations extended = []
  /\ fileStats extended = mkFileStats 0 0 0.
Proof.
  intros H. cbv zeta.
  destruct (simple_run_walked root) as (I & R & _ & T & A & W & _).
  pose proof (extended_run_walked root) as (I' & C' & T' & A' & W' & _).
  rewrite H in *. simpl in *.
  assert (R' : recommendations (RouteDebugger.run root) = []).
  { unfold RouteDebugger.run in *.
    destruct (generateRecommendations_keeps
                (RouteDebugger.findRouteFiles root new_Analyzer))
      as (Ei & _ & Ec & _).
    rewrite Ei in I'. rewrite Ec in C'.
    destruct (extended_findRouteFiles_walked root) as (_ & Er & _).
    unfold RouteDebugger.generateRecommendations.
    rewrite I'. simpl. rewrite C'. simpl. by rewrite Er. }
  repeat split; try assumption.
  - destruct (fileStats (RouteAnalyzer.run root)). simpl in *. congruence.
  - destruct (fileStats (RouteDebugger.run root)). simpl in *. congruence.
Qed.

Lemma run_without_candidate_files_witness :
  let root :=
    DirEnt (str "project")
      (Some [FileEnt (str "README.md") (Some (str "routes"));
             DirEnt (str "node_modules")
               (Some [FileEnt (str "routes.js") (Some (str "debugger"))])]) in
  walk_files root = []
  /\ fileStats (RouteAnalyzer.run root) = mkFileStats 0 0 0.
Proof.
  cbv zeta. split; [reflexivity|].
  apply (run_without_candidate_files
           (DirEnt (str "project")
              (Some [FileEnt (str "README.md") (Some (str "routes"));
                     DirEnt (str "node_modules")
                       (Some [FileEnt (str "routes.js")
                                (Some (str "debugger"))])]))).
  reflexivity.
Defined.

(** ** Issues by type *)

Lemma byType_fold (ty : string) (l : list Issue) :
  forall byType : gmap string nat,
    fold_left
      (fun byType issue =>
         <[type issue := default 0 (byType !! type issue) + 1]> byType)
      l byType !! ty
    = let n := length (List.filter (has_type ty) l) in
      if n =? 0 then byType !! ty
      else Some (default 0 (byType !! ty) + n).
Proof.
  induction l as [|i l IH]; intros byType; [done|].
  cbn [fold_left List.filter]. rewrite IH. cbv zeta.
  destruct (has_type ty i) eqn:Ht; cbn [length].
  - apply String.eqb_eq in Ht. rewrite Ht, lookup_insert_eq. cbn [default].
    destruct (length (List.filter (has_type ty) l)) as [|n]; simpl;
      f_equal; lia.
  - apply String.eqb_neq in Ht. by rewrite lookup_insert_ne.
Qed.

Lemma kinds_types l :
  sublist (List.map kind_of l) extended_kinds
  \/ sublist (List.map kind_of l) simple_kinds ->
  Forall (fun i =>
            In (type i)
              ["dynamic-route-generation"; "query-client-creation";
               "context-placement"; "blocked-navigation"; "activity-context";
               "missing-memoization"; "multiple-async-wrappers";
               "unmemoized-shell-hooks"; "performance-issue"]%string) l.
Proof.
  intros H. apply Forall_forall. intros i Hi.
  assert (Hk : kind_of i ∈ extended_kinds \/ kind_of i ∈ simple_kinds).
  { destruct H as [H | H]; [left | right];
      (eapply elem_of_sublist; [|exact H]);
      apply list_elem_of_In, in_map; by apply list_elem_of_In. }
  unfold kind_of in Hk.
  destruct Hk as [Hk | Hk]; apply list_elem_of_In in Hk; simpl in Hk;
    repeat (destruct Hk as [Hk | Hk];
            [inversion Hk; simpl; tauto|]); destruct Hk.
Qed.

Lemma run_issue_types root :
  let known :=
    ["dynamic-route-generation"; "query-client-creation";
     "context-placement"; "blocked-navigation"; "activity-context";
     "missing-memoization"; "multiple-async-wrappers";
     "unmemoized-shell-hooks"; "performance-issue"]%string in
  Forall (fun i => In (type i) known) (issues (RouteAnalyzer.run root))
  /\ Forall (fun i => In (type i) known) (issues (RouteDebugger.run root)).
Proof.
  cbv zeta.
  destruct (simple_run_walked root) as (I & _).
  destruct (extended_run_walked root) as (I' & _).
  rewrite I, I'. simpl. split; apply Forall_forall; intros i Hi;
    apply list_elem_of_In, in_flat_map in Hi as ([p r] & _ & Hi);
    destruct r as [c|]; try done.
  - unfold simple_file_issues in Hi. simpl in Hi.
    destruct (simple_runChecks_kinds c (relative p) new_Analyzer) as [K _].
    pose proof (kinds_types _ (or_intror K)) as F.
    rewrite Forall_forall in F. by apply F, list_elem_of_In.
  - unfold extended_file_issues in Hi. simpl in Hi.
    destruct (extended_runChecks_kinds c (relative p)) as [K _].
    pose proof (kinds_types _ (or_introl K)) as F.
    rewrite Forall_forall in F. by apply F, list_elem_of_In.
Qed.

(** X11.  After a run of either variant the types of the issues are among
    the nine types of the checks, and [getIssuesByType] has, for every
    type, the number of issues of that type, and no entry for a type
    without issue. *)
Theorem issuesByType_counts_each_type (root : Dirent) (ty : string) :
  let known :=
    ["dynamic-route-generation"; "query-client-creation";
     "context-placement"; "blocked-navigation"; "activity-context";
     "missing-memoization"; "multiple-async-wrappers";
     "unmemoized-shell-hooks"; "performance-issue"]%string in
  let count this := length (List.filter (has_type ty) (issues this)) in
  Forall (fun i => In (type i) known) (issues (RouteAnalyzer.run root))
  /\ Forall (fun i => In (type i) known) (issues (RouteDebugger.run root))
  /\ RouteAnalyzer.getIssuesByType (RouteAnalyzer.run root) !! ty
     = (if count (RouteAnalyzer.run root) =? 0 then None
        else Some (count (RouteAnalyzer.run root)))
  /\ RouteDebugger.getIssuesByType (RouteDebugger.run root) !! ty
     = (if count (RouteDebugger.run root) =? 0 then None
        else Some (count (RouteDebugger.run root))).
Proof.
  cbv zeta. destruct (run_issue_types root) as [Ks Ke].
  split; [exact Ks|]. split; [exact Ke|].
  unfold RouteAnalyzer.getIssuesByType, RouteDebugger.getIssuesByType.
  rewrite !byType_fold. cbv zeta. rewrite lookup_empty. by split.
Qed.

(** ** Skipped directories and relevant names *)

(** X12.  An entry that is a directory with a name of the skip list
    changes nothing: it is not listed, nothing in it is read, and it is
    not mistaken for a file either, no name of the skip list being a
    relevant file name. *)
Theorem skipped_directory_changes_nothing
    (dir : list text) (name : text) (entries : option (list Dirent))
    (this : Analyzer) :
  In name skipDirs ->
  RouteAnalyzer.visit dir (DirEnt name entries) this = this
  /\ RouteDebugger.visit dir (DirEnt name entries) this = this.
Proof.
  intros H.
  assert (S : array_includes skipDirs name = true).
  { destruct (array_includes skipDirs name) eqn:E; [done|].
    by apply not_skipped_iff in E. }
  cbn [RouteAnalyzer.visit RouteDebugger.visit].
  unfold RouteAnalyzer.shouldSkipDirectory, RouteDebugger.shouldSkipDirectory.
  rewrite S. cbn [negb].
  change (RouteDebugger.isRelevantFile name)
    with (RouteAnalyzer.isRelevantFile name).
  by rewrite (skipped_name_not_relevant name S).
Qed.

Lemma skipped_directory_changes_nothing_witness :
  RouteAnalyzer.visit [str "src"]
    (DirEnt (str ".git")
       (Some [FileEnt (str "routes.js") (Some (str "debugger"))]))
    new_Analyzer
  = new_Analyzer.
Proof.
  apply (skipped_directory_changes_nothing [str "src"] (str ".git")).
  right. left. reflexivity.
Defined.

(** X13.  The alternative Routes.ts / Routes.tsx of the relevance test
    never decides: a name is relevant exactly when it contains route,
    whatever the case of the letters, and ends with .ts, .tsx, .js or
    .jsx. *)
Theorem relevance_is_route_and_extension (fileName : text) :
  let simpler :=
    includes (List.map lower fileName) (str "route")
    && (endsWith fileName (str ".ts") || endsWith fileName (str ".tsx")
        || endsWith fileName (str ".js") || endsWith fileName (str ".jsx")) in
  RouteAnalyzer.isRelevantFile fileName = simpler
  /\ RouteDebugger.isRelevantFile fileName = simpler.
Proof.
  cbv zeta.
  assert (E : RouteAnalyzer.isRelevantFile fileName
              = includes (List.map lower fileName) (str "route")
                && (endsWith fileName (str ".ts")
                    || endsWith fileName (str ".tsx")
                    || endsWith fileName (str ".js")
                    || endsWith fileName (str ".jsx"))); [|by split].
  unfold RouteAnalyzer.isRelevantFile. rewrite !match_truthy.
  rewrite (exists_at_ext _ _ fileName routeName_re_at).
  rewrite (exists_at_ext _ _ fileName scriptExt_re_at).
  rewrite !exists_at_orb, <- includes_map.
  fold (endsWith fileName (str ".ts")). fold (endsWith fileName (str ".tsx")).
  fold (endsWith fileName (str ".js")). fold (endsWith fileName (str ".jsx")).
  destruct (includes (List.map lower fileName) (str "route")) eqn:A;
    [reflexivity|].
  destruct (exists_at (fun t => truthy (match_here false routesFile_re t))
              fileName) eqn:B; [|reflexivity].
  rewrite includes_map in A.
  assert (A' : exists_at
                 (fun t => startsWith (List.map lower t) (str "route"))
                 fileName = true); [|congruence].
  eapply exists_at_impl; [|exact B].
  intros t H. apply routesFile_re_at in H.
  apply (startsWith_prefix t (str "Route") (str "s.ts")) in H.
  by apply (startsWith_map lower) in H.
Qed.

(** ** Tests that are substring tests *)

Lemma test_fresh_exists_at i g r s :
  fst (RegExp_test (literal r i g) s)
  = exists_at (fun t => truthy (match_here i r t)) s.
Proof.
  rewrite <- (exec_from_truthy i r s 0).
  unfold RegExp_test, literal. simpl.
  replace (if g then 0 else 0) with 0 by (by destruct g).
  rewrite drop_0. simpl.
  by destruct (exec_from i r s 0) as [[idx rest]|].
Qed.

Lemma test_literal g w s :
  fst (RegExp_test (literal (Lit w) false g) s) = includes s w.
Proof.
  rewrite test_fresh_exists_at, includes_exists_at.
  apply exists_at_ext. apply match_here_Lit.
Qed.

Lemma test_expensive g s :
  fst (RegExp_test (literal expensive_re false g) s) = mentions_iteration s.
Proof.
  rewrite test_fresh_exists_at. unfold mentions_iteration.
  rewrite !includes_exists_at, <- !exists_at_orb.
  apply exists_at_ext. intros t.
  change expensive_re
    with (Alt (L ".map(") (Alt (L ".filter(") (Alt (L ".reduce(")
                                                 (L ".forEach(")))).
  unfold L. rewrite !match_here_Alt, !match_here_Lit.
  by rewrite !orb_assoc.
Qed.

(** X14.  The tests of the memoization check and of the performance check
    are substring tests.  The memoization issue is emitted exactly when the
    text contains .map(, .filter(, .reduce( or .forEach( and neither
    useMemo nor useCallback.  The performance check emits one issue for
    each of console.log, debugger and JSON.parse(JSON.stringify that the
    text contains, in this order; a match does not stop the later tests. *)
Theorem memoization_and_performance_by_substring
    (content filePath : text) (fileIssues : list Issue) (this : Analyzer) :
  let c := content in
  let memo :=
    mentions_iteration c && negb (includes c (str "useMemo"))
    && negb (includes c (str "useCallback")) in
  let perf fix_ :=
    (if includes c (str "console.log")
     then [performance_issue filePath
             "Console statements found - remove for production" fix_]
     else [])
    ++ (if includes c (str "debugger")
        then [performance_issue filePath
                "Debugger statements found - remove for production" fix_]
        else [])
    ++ (if includes c (str "JSON.parse(JSON.stringify")
        then [performance_issue filePath
                "Deep cloning with JSON methods - consider alternatives" fix_]
        else []) in
  RouteDebugger.checkMemoization c filePath fileIssues
  = fileIssues ++
    (if memo
     then [memoization_issue filePath
             (Some "Consider memoizing expensive calculations with useMemo/useCallback")]
     else [])
  /\ fst (RouteAnalyzer.checkMemoization c filePath fileIssues this)
     = fileIssues ++ (if memo then [memoization_issue filePath None] else [])
  /\ RouteDebugger.checkPerformancePatterns c filePath fileIssues
     = fileIssues
       ++ perf (Some "Optimize performance by addressing this pattern")
  /\ fst (RouteAnalyzer.checkPerformancePatterns c filePath fileIssues this)
     = fileIssues ++ perf None.
Proof.
  cbv zeta.
  unfold RouteDebugger.checkMemoization, RouteAnalyzer.checkMemoization,
    RouteDebugger.checkPerformancePatterns,
    RouteAnalyzer.checkPerformancePatterns,
    RouteDebugger.performancePatterns, RouteAnalyzer.performancePatterns.
  cbn [fold_left fst]. unfold consoleLog_re, debugger_re, jsonClone_re, L.
  rewrite !test_literal, !test_expensive.
  destruct (mentions_iteration content), (includes content (str "useMemo")),
    (includes content (str "useCallback")),
    (includes content (str "console.log")),
    (includes content (str "debugger")),
    (includes content (str "JSON.parse(JSON.stringify"));
    cbn [andb negb fst app]; rewrite <- ?app_assoc, ?app_nil_r;
    repeat split; reflexivity.
Qed.

(** ** Counting AsyncWrapper *)

Lemma count_at_ext P Q s :
  (forall t, P t = Q t) -> count_at P s = count_at Q s.
Proof.
  intros E. induction s as [|x s IH]; simpl; rewrite E; [done|].
  by rewrite IH.
Qed.

Lemma count_at_positive P s : (0 <? count_at P s) = exists_at P s.
Proof.
  induction s as [|x s IH]; simpl.
  - by destruct (P []).
  - destruct (P (x :: s)); [done|]. simpl. exact IH.
Qed.

Lemma occurrences_Lit w s :
  occurrences false (Lit w) s = literal_occurrences w s.
Proof. apply count_at_ext. apply match_here_Lit. Qed.

Lemma match_here_Lit_Some w s rest :
  match_here false (Lit w) s = Some rest -> s = w ++ rest.
Proof.
  unfold match_here. rewrite m_Lit.
  destruct (startsWith s w) eqn:E; [|done]. intros [= <-].
  apply startsWith_app in E as [rest ->].
  by rewrite drop_app_length.
Qed.

(** The occurrences of a word whose first letter does not come again in
    it do not overlap. *)
Lemma literal_no_overlap c w :
  Forall (fun y => y <> c) w -> no_overlap false (Lit (c :: w)).
Proof.
  intros Hw s rest H. apply match_here_Lit_Some in H. subst s.
  rewrite length_app. cbn [length]. split; [lia|].
  intros [|k] Hk; [lia|].
  destruct (match_here false (Lit (c :: w)) (drop (S k) ((c :: w) ++ rest)))
    as [rest'|] eqn:E; [|done].
  apply match_here_Lit_Some in E. cbn [app drop] in E.
  assert (Hlen : k < length w) by lia.
  rewrite drop_app_le in E by lia.
  destruct (drop k w) as [|y l] eqn:D.
  - apply (f_equal length) in D. rewrite length_drop in D. simpl in D. lia.
  - simpl in E. inversion E; subst y.
    rewrite Forall_forall in Hw. exfalso. apply (Hw c); [|done].
    apply (subseteq_drop k w). rewrite D. by left.
Qed.

Lemma asyncWrapper_no_overlap : no_overlap false asyncWrapper_re.
Proof.
  change asyncWrapper_re
    with (Lit (N_of_ascii "A" :: str "syncWrapper")).
  apply literal_no_overlap. repeat constructor; discriminate.
Qed.

(** X15.  The count of the AsyncWrapper check is the number of places at
    which the text AsyncWrapper occurs, and the issue is emitted exactly
    when there are at least two. *)
Theorem checkAsyncWrapper_counts_occurrences
    (content filePath : text) (fileIssues : list Issue) (this : Analyzer) :
  let n := literal_occurrences (str "AsyncWrapper") content in
  RouteDebugger.checkAsyncWrapper content filePath fileIssues
  = (if 1 <? n
     then fileIssues ++
          [asyncWrapper_issue filePath n
             (Some "Consolidate AsyncWrapper usage to prevent conflicts")]
     else fileIssues)
  /\ fst (RouteAnalyzer.checkAsyncWrapper content filePath fileIssues this)
     = (if 1 <? n then fileIssues ++ [asyncWrapper_issue filePath n None]
        else fileIssues).
Proof.
  cbv zeta.
  unfold RouteDebugger.checkAsyncWrapper, RouteAnalyzer.checkAsyncWrapper.
  pose proof (match_global_count false asyncWrapper_re content
                asyncWrapper_no_overlap) as Hm.
  unfold asyncWrapper_re, L in Hm. rewrite occurrences_Lit in Hm.
  rewrite includes_exists_at.
  change (exists_at (fun t => startsWith t (str "AsyncWrapper")) content)
    with (exists_at (fun t => startsWith t (str "AsyncWrapper")) content).
  rewrite <- (count_at_positive
                (fun t => startsWith t (str "AsyncWrapper")) content).
  fold (literal_occurrences (str "AsyncWrapper") content).
  unfold asyncWrapper_re, L.
  destruct (String_match content
              (literal (Lit (str "AsyncWrapper")) false true)) as [ms|].
  - destruct Hm as [-> Hpos].
    apply Nat.ltb_lt in Hpos. rewrite Hpos.
    by destruct (1 <? literal_occurrences (str "AsyncWrapper") content).
  - rewrite Hm. by split.
Qed.

(** ** The route configuration and the issues of a file *)

Lemma newQueryClient_re_match s rest :
  match_here false newQueryClient_re s = Some rest ->
  exists ws1,
    s = str "new" ++ ws1 ++ str "QueryClient" ++ rest
    /\ Forall (fun c => isSpace c = true) ws1.
Proof.
  intros H. apply match_here_rest in H.
  change newQueryClient_re
    with (Seq (L "new") (Seq (Seq Space (Star Space)) (L "QueryClient")))
    in H.
  inversion H as [| | |r1 r2 u u1 u2 H1 H2| | | | | | |]; subst.
  apply Matches_Lit in H1. subst.
  inversion H2 as [| | |r1 r2 u u3 u4 H3 H4| | | | | | |]; subst.
  inversion H3 as [| | |r1 r2 u u5 u6 H5 H6| | | | | | |]; subst.
  inversion H5; subst.
  apply Matches_Star_Space in H6 as (ws1 & -> & Hws1).
  apply Matches_Lit in H4. subst.
  exists (x :: ws1). split; [done|]. by constructor.
Qed.

Lemma newQueryClient_re_no_overlap : no_overlap false newQueryClient_re.
Proof.
  intros s0 rest H.
  destruct (newQueryClient_re_match s0 rest H) as (ws1 & -> & H1).
  set (s := str "new" ++ ws1 ++ str "QueryClient" ++ rest).
  assert (Hlen : length s = 3 + (length ws1 + (11 + length rest))).
  { subst s. rewrite !length_app. reflexivity. }
  rewrite Hlen. split; [lia|]. intros k Hk.
  destruct (match_here false newQueryClient_re (drop k s)) as [rest'|] eqn:E;
    [|done].
  assert (Hs : startsWith (drop k s) (str "ne") = true).
  { apply newQueryClient_re_match in E as (ws & -> & _). reflexivity. }
  destruct k as [|k]; [lia|].
  assert (Hn : no_ne_within (2 + (length ws1 + 11))
                 (str "ew" ++ ws1 ++ str "QueryClient" ++ rest)).
  { repeat (apply no_ne_within_cons; [reflexivity|]).
    apply no_ne_within_spaces; [assumption|].
    repeat (apply no_ne_within_cons; [reflexivity|]).
    apply no_ne_within_0. }
  change (drop (S k) s)
    with (drop k (str "ew" ++ ws1 ++ str "QueryClient" ++ rest)) in Hs.
  rewrite (Hn k) in Hs; [discriminate | lia].
Qed.

(** Where a client is constructed with its argument list, a client is
    constructed. *)
Lemma queryClient_is_newQueryClient t :
  truthy (match_here false queryClient_re t) = true ->
  truthy (match_here false newQueryClient_re t) = true.
Proof.
  destruct (match_here false queryClient_re t) as [rest|] eqn:E; [|done].
  intros _. apply match_here_rest in E.
  change queryClient_re
    with (Seq (L "new")
            (Seq (Seq Space (Star Space))
               (Seq (L "QueryClient") (Seq (Star Space) (L "("))))) in E.
  inversion E as [| | |r1 r2 u u1 u2 H1 H2| | | | | | |]; subst.
  inversion H2 as [| | |r1 r2 u u3 u4 H3 H4| | | | | | |]; subst.
  inversion H4 as [| | |r1 r2 u u7 u8 H7 H8| | | | | | |]; subst.
  apply match_here_iff. exists u7.
  change newQueryClient_re
    with (Seq (L "new") (Seq (Seq Space (Star Space)) (L "QueryClient"))).
  eapply M_Seq; [exact H1|]. eapply M_Seq; [exact H3 | exact H7].
Qed.

Lemma routesMap_re_starts t :
  truthy (match_here false routesMap_re t) = true ->
  startsWith t (str "routes.map") = true.
Proof.
  destruct (match_here false routesMap_re t) as [rest|] eqn:E; [|done].
  intros _. apply match_here_rest in E.
  unfold routesMap_re in E. cbn [seqs] in E.
  inversion E as [| | |r1 r2 u u1 u2 H1 H2| | | | | | |]; subst.
  apply Matches_Lit in H1. apply startsWith_app. by exists u1.
Qed.

Lemma matchAll_somewhere i r s skip :
  matchAll i r skip s <> [] ->
  exists_at (fun t => truthy (match_here i r t)) s = true.
Proof.
  revert skip. induction s as [|x s IH]; intros skip; simpl.
  - destruct skip; simpl; [|done].
    by destruct (match_here i r []).
  - destruct skip as [|n]; simpl.
    + destruct (match_here i r (x :: s)); [done|]. simpl. apply IH.
    + intros H. rewrite (IH n H). apply orb_true_r.
Qed.

Lemma elem_of_kinds (l : list Issue) ks i :
  sublist (List.map kind_of l) ks -> i ∈ l -> kind_of i ∈ ks.
Proof.
  intros K H. eapply elem_of_sublist; [|exact K].
  clear K. induction H; simpl; by constructor.
Qed.

(** What an issue of an extended run says about the text it was found in. *)
Lemma extended_issue_origin c p i :
  i ∈ RouteDebugger.runChecks c p ->
  (type i = "dynamic-route-generation" ->
   includes c (str "routes.map") = true /\ severity i = "high")
  /\ (type i = "query-client-creation" ->
      count i = Some (occurrences false queryClient_re c))
  /\ (type i = "blocked-navigation" ->
      includes c (str "BlockedNavigation") = true)
  /\ (type i = "activity-context" ->
      includes c (str "ActivityContext") = true).
Proof.
  rewrite extended_runChecks_parts, !elem_of_app.
  intros [H|[H|[H|[H|[H|[H|[H|[H|H]]]]]]]].
  - unfold RouteDebugger.checkDynamicRouteGeneration in H.
    destruct (String_match c (literal routesMap_re false true)) as [ms|] eqn:E;
      [|by apply elem_of_nil in H].
    apply list_elem_of_singleton in H. subst i.
    split; [|repeat split; discriminate]. intros _. split; [|reflexivity].
    rewrite includes_exists_at.
    eapply exists_at_impl; [apply routesMap_re_starts|].
    apply (matchAll_somewhere _ _ _ 0).
    unfold String_match in E. simpl in E.
    by destruct (matchAll false routesMap_re 0 c).
  - unfold RouteDebugger.checkQueryClientCreation in H.
    pose proof (match_global_count false queryClient_re c
                  queryClient_re_no_overlap) as Hm.
    destruct (String_match c (literal queryClient_re false true)) as [ms|];
      [|by apply elem_of_nil in H].
    apply list_elem_of_singleton in H. subst i.
    repeat split; try first [discriminate | congruence]. intros _. simpl.
    by destruct Hm as [-> _].
  - unfold RouteDebugger.checkContextPlacement in H.
    repeat match type of H with
           | context [if ?b then _ else _] => destruct b
           | context [match ?b with _ => _ end] => destruct b
           end;
      try (by apply elem_of_nil in H);
      apply list_elem_of_singleton in H; subst i;
      repeat split; first [discriminate | congruence].
  - unfold RouteDebugger.checkBlockedNavigation in H.
    destruct (includes c (str "BlockedNavigation")) eqn:E;
      [|by apply elem_of_nil in H].
    apply list_elem_of_singleton in H. subst i.
    repeat split; first [discriminate | congruence].
  - unfold RouteDebugger.checkActivityContext in H.
    destruct (includes c (str "ActivityContext")) eqn:E;
      [|by apply elem_of_nil in H].
    apply list_elem_of_singleton in H. subst i.
    repeat split; first [discriminate | congruence].
  - destruct (extended_checks_kinds c p) as (_&_&_&_&_&[K _]&_).
    apply (elem_of_kinds _ _ i) in K; [|exact H].
    cbn [take drop extended_kinds] in K.
    apply list_elem_of_singleton in K. unfold kind_of in K.
    injection K as Hty _ _ _. rewrite Hty.
    repeat split; first [discriminate | congruence].
  - destruct (extended_checks_kinds c p) as (_&_&_&_&_&_&[K _]&_).
    apply (elem_of_kinds _ _ i) in K; [|exact H].
    cbn [take drop extended_kinds] in K.
    apply list_elem_of_singleton in K. unfold kind_of in K.
    injection K as Hty _ _ _. rewrite Hty.
    repeat split; first [discriminate | congruence].
  - destruct (extended_checks_kinds c p) as (_&_&_&_&_&_&_&[K _]&_).
    apply (elem_of_kinds _ _ i) in K; [|exact H].
    cbn [take drop extended_kinds] in K.
    apply list_elem_of_singleton in K. unfold kind_of in K.
    injection K as Hty _ _ _. rewrite Hty.
    repeat split; first [discriminate | congruence].
  - destruct (extended_checks_kinds c p) as (_&_&_&_&_&_&_&_&[K _]).
    apply (elem_of_kinds _ _ i) in K; [|exact H].
    cbn [take drop extended_kinds] in K.
    rewrite !elem_of_cons in K.
    destruct K as [K|[K|[K|K]]]; [| | |by apply elem_of_nil in K];
      unfold kind_of in K; injection K as Hty _ _ _; rewrite Hty;
      repeat split; first [discriminate | congruence].
Qed.

(** X16.  The route configuration recorded for a file agrees with the
    issues found in it: hasActivityContext and hasBlockedNavigation are
    set exactly when the file has the issue of that name, a query-client
    issue with a count of two or more comes with hasMultipleQueryClients,
    and a dynamic-route issue in a file without useMemo comes with
    hasUnmemoizedRoutes. *)
Theorem routeConfig_agrees_with_issues (content filePath : text) :
  let cfg := RouteDebugger.extractRouteConfig content filePath in
  let found := RouteDebugger.runChecks content filePath in
  (hasActivityContext cfg = true
   <-> exists i, i ∈ found /\ type i = "activity-context")
  /\ (hasBlockedNavigation cfg = true
      <-> exists i, i ∈ found /\ type i = "blocked-navigation")
  /\ (forall i n, i ∈ found -> type i = "query-client-creation" ->
        count i = Some n -> 2 <= n -> hasMultipleQueryClients cfg = true)
  /\ (forall i, i ∈ found -> type i = "dynamic-route-generation" ->
        includes content (str "useMemo") = false ->
        hasUnmemoizedRoutes cfg = true).
Proof.
  cbv zeta. unfold RouteDebugger.extractRouteConfig.
  cbn [hasActivityContext hasBlockedNavigation hasMultipleQueryClients
       hasUnmemoizedRoutes].
  split; [|split; [|split]].
  - split.
    + intros H. eexists. split; [|shelve].
      rewrite extended_runChecks_parts, !elem_of_app.
      do 4 right. left. unfold RouteDebugger.checkActivityContext.
      rewrite H. apply list_elem_of_singleton. reflexivity.
      Unshelve. reflexivity.
    + intros (i & Hi & T).
      by apply (extended_issue_origin content filePath i Hi).
  - split.
    + intros H. eexists. split; [|shelve].
      rewrite extended_runChecks_parts, !elem_of_app.
      do 3 right. left. unfold RouteDebugger.checkBlockedNavigation.
      rewrite H. apply list_elem_of_singleton. reflexivity.
      Unshelve. reflexivity.
    + intros (i & Hi & T).
      by apply (extended_issue_origin content filePath i Hi).
  - intros i n Hi T Hc Hn.
    destruct (extended_issue_origin content filePath i Hi) as (_ & Q & _).
    rewrite (Q T) in Hc. injection Hc as <-.
    pose proof (match_global_count false newQueryClient_re content
                  newQueryClient_re_no_overlap) as Hm.
    pose proof (count_at_le _ _ content queryClient_is_newQueryClient) as Hle.
    fold (occurrences false queryClient_re content) in Hle.
    fold (occurrences false newQueryClient_re content) in Hle.
    destruct (String_match content (literal newQueryClient_re false true))
      as [ms|]; simpl.
    + destruct Hm as [-> _]. apply Nat.ltb_lt. lia.
    + lia.
  - intros i Hi T Hu.
    destruct (extended_issue_origin content filePath i Hi) as (D & _).
    by rewrite (proj1 (D T)), Hu.
Qed.

(** ** Escaping for the HTML report *)

Lemma replaceAll_unit c replacement s :
  replaceAll false (Lit [c]) replacement 0 s
  = flat_map (fun x => if (x =? c)%N then replacement else [x]) s.
Proof.
  induction s as [|x s IH]; cbn [replaceAll flat_map].
  - unfold match_here. rewrite m_Lit. reflexivity.
  - unfold match_here. rewrite m_Lit. cbn [startsWith].
    replace (startsWith s []) with true by (by destruct s).
    rewrite andb_true_r.
    destruct (N.eqb_spec x c) as [->|Hx].
    + cbn [length drop]. rewrite drop_0.
      replace (S (length s) - length s) with 1 by lia.
      cbn [Nat.eqb Nat.sub app]. by rewrite IH.
    + by rewrite IH.
Qed.

Lemma flat_map_flat_map {A B C} (f : A -> list B) (g : B -> list C) l :
  flat_map g (flat_map f l) = flat_map (fun x => flat_map g (f x)) l.
Proof.
  induction l as [|x l IH]; simpl; [done|].
  by rewrite flat_map_app, IH.
Qed.

Lemma escapeHtml_units t : escapeHtml t = flat_map escape_unit t.
Proof.
  unfold escapeHtml, String_replace, literal, L. cbv zeta.
  cbn [global ignoreCase source].
  change (str "&") with [38%N]. change (str "<") with [60%N].
  change (str ">") with [62%N]. change (str "'") with [39%N].
  rewrite !replaceAll_unit, !flat_map_flat_map.
  apply flat_map_ext. intros x. unfold escape_unit, dquote.
  destruct (N.eqb_spec x 38) as [->|H1]; [reflexivity|].
  cbn [flat_map app].
  destruct (N.eqb_spec x 60) as [->|H2]; [reflexivity|].
  cbn [flat_map app].
  destruct (N.eqb_spec x 62) as [->|H3]; [reflexivity|].
  cbn [flat_map app].
  destruct (N.eqb_spec x 34) as [->|H4]; [reflexivity|].
  cbn [flat_map app].
  destruct (N.eqb_spec x 39) as [->|H5]; reflexivity.
Qed.

(** X17.  escapeHtml replaces each code unit once: an ampersand, a less-than
    sign, a greater-than sign, a double quote and an apostrophe by their
    entities, every other unit by itself; the entities it writes are not
    escaped again.  Its result holds none of the four characters other
    than the ampersand. *)
Theorem escapeHtml_escapes_each_unit_once (t : text) :
  escapeHtml t = flat_map escape_unit t
  /\ forall x, x ∈ escapeHtml t ->
       x <> 60%N /\ x <> 62%N /\ x <> dquote /\ x <> 39%N.
Proof.
  split; [apply escapeHtml_units|].
  rewrite escapeHtml_units. intros x Hx.
  apply list_elem_of_In, in_flat_map in Hx as (y & _ & Hy).
  unfold escape_unit in Hy. unfold dquote.
  repeat match type of Hy with
         | context [(?a =? ?b)%N] => destruct (N.eqb_spec a b)
         end;
    simpl in Hy; intuition (subst; try discriminate; try congruence).
Qed.

Lemma escape_unit_cases x :
  (x = 38 /\ escape_unit x = [38; 97; 109; 112; 59])%N
  \/ (x = 60 /\ escape_unit x = [38; 108; 116; 59])%N
  \/ (x = 62 /\ escape_unit x = [38; 103; 116; 59])%N
  \/ (x = 34 /\ escape_unit x = [38; 113; 117; 111; 116; 59])%N
  \/ (x = 39 /\ escape_unit x = [38; 35; 51; 57; 59])%N
  \/ (x <> 38%N /\ escape_unit x = [x]).
Proof.
  unfold escape_unit.
  destruct (N.eqb_spec x 38); [by left|]. right.
  destruct (N.eqb_spec x 60); [by left|]. right.
  destruct (N.eqb_spec x 62); [by left|]. right.
  destruct (N.eqb_spec x 34); [by left|]. right.
  destruct (N.eqb_spec x 39); [by left|]. by right.
Qed.

(** X18.  escapeHtml loses nothing: two texts with the same escaped form
    are the same text. *)
Theorem escapeHtml_is_injective (a b : text) :
  escapeHtml a = escapeHtml b -> a = b.
Proof.
  rewrite !escapeHtml_units. revert b.
  induction a as [|x a IH]; intros [|y b] H; [done| | |].
  - exfalso. cbn [flat_map] in H.
    destruct (escape_unit_cases y) as [[_ E]|[[_ E]|[[_ E]|[[_ E]|[[_ E]|[_ E]]]]]];
      rewrite E in H; discriminate.
  - exfalso. cbn [flat_map] in H.
    destruct (escape_unit_cases x) as [[_ E]|[[_ E]|[[_ E]|[[_ E]|[[_ E]|[_ E]]]]]];
      rewrite E in H; discriminate.
  - cbn [flat_map] in H.
    destruct (escape_unit_cases x)
      as [[Hx E]|[[Hx E]|[[Hx E]|[[Hx E]|[[Hx E]|[Hx E]]]]]];
      destruct (escape_unit_cases y)
        as [[Hy F]|[[Hy F]|[[Hy F]|[[Hy F]|[[Hy F]|[Hy F]]]]]];
      rewrite E, F in H; cbn [app] in H; inversion H; subst;
      try congruence; f_equal; by apply IH.
Qed.

Lemma escapeHtml_is_injective_witness :
  escapeHtml (str "<a>") = escapeHtml (str "<a>") /\ str "<a>" = str "<a>".
Proof.
  split; [reflexivity|].
  apply (escapeHtml_is_injective (str "<a>") (str "<a>")). reflexivity.
Defined.

(** ** The command line of the extended variant *)

(** X19.  How the extended front end ends.  Every run that it starts has
    json or html set, because its parser sets html whenever json is not
    set; so what the analysis finds never decides the status.  Without a
    help flag in effect the status is 1 exactly when the target path does
    not exist, or when the HTML report is asked for and the directory of
    its path can be neither found nor made or the write of the file
    throws, which the front end catches. *)
Theorem extended_issues_never_fail_the_run (env : Env) (args : list text) :
  let options := fst (RouteDebuggerCli.parse env args) in
  let targetPath := snd (RouteDebuggerCli.parse env args) in
  json options || html options = true
  /\ RouteDebuggerCli.exitCode (RouteDebuggerCli.main env args)
     = if help options then 0
       else if negb (existsSync env targetPath) then 1
       else if report_ok env options then 0 else 1.
Proof.
  cbv zeta. pose proof (extended_parse_format env args) as F. cbv zeta in F.
  split; [exact F|]. unfold RouteDebuggerCli.main.
  destruct (RouteDebuggerCli.parse env args) as [o t]. cbn [fst snd] in *.
  destruct (help o); [reflexivity|].
  destruct (existsSync env t); [|reflexivity].
  cbn [negb]. rewrite report_returns.
  destruct (report_ok env o); [|reflexivity].
  cbn [RouteDebuggerCli.exitCode].
  by destruct (json o), (html o).
Qed.

(** X20.  The target of the extended front end is the working directory,
    or the resolved form of an argument that does not start with two
    dashes and that exists as it was given: an argument that names nothing
    is passed over without a word. *)
Theorem extended_target_is_cwd_or_an_existing_argument
    (env : Env) (args : list text) :
  let targetPath := snd (RouteDebuggerCli.parse env args) in
  targetPath = cwd env
  \/ exists a, In a args /\ startsWith a (str "--") = false
               /\ existsSync env a = true /\ targetPath = resolve env a.
Proof.
  cbv zeta. unfold RouteDebuggerCli.parse.
  pose proof (extended_parse_from_target env (length args) args
                (mkOptions false false false None false, cwd env)
                (Nat.le_refl _)) as H.
  destruct (RouteDebuggerCli.parse_from env args _) as [o t].
  by destruct (negb (json o) && negb (html o)).
Qed.

(** X21.  Where the working directory exists, resolving an existing
    argument gives an existing path, and nothing stands in the way of the
    report (no HTML report is asked for, or its directory exists or can be
    made and the file can be written), the extended front end ends with
    status 0 whatever its arguments and whatever it finds. *)
Theorem extended_front_end_exits_zero (env : Env) (args : list text) :
  existsSync env (cwd env) = true ->
  (forall a, In a args -> existsSync env a = true ->
             existsSync env (resolve env a) = true) ->
  report_ok env (fst (RouteDebuggerCli.parse env args)) = true ->
  RouteDebuggerCli.exitCode (RouteDebuggerCli.main env args) = 0.
Proof.
  intros Hcwd Hres Hrep. unfold RouteDebuggerCli.main.
  pose proof (extended_parse_format env args) as F. cbv zeta in F.
  assert (T : existsSync env (snd (RouteDebuggerCli.parse env args)) = true).
  { unfold RouteDebuggerCli.parse.
    pose proof (extended_parse_from_target env (length args) args
                  (mkOptions false false false None false, cwd env)
                  (Nat.le_refl _)) as H.
    destruct (RouteDebuggerCli.parse_from env args _) as [o t].
    assert (E : existsSync env t = true).
    { destruct H as [H|(a & Ha & _ & Hex & H)]; simpl in H; rewrite H;
        [exact Hcwd | by apply Hres]. }
    by destruct (negb (json o) && negb (html o)). }
  destruct (RouteDebuggerCli.parse env args) as [o t]. cbn [fst snd] in *.
  destruct (help o); [reflexivity|]. rewrite T.
  cbn [negb]. rewrite report_returns, Hrep.
  cbn [RouteDebuggerCli.exitCode].
  by destruct (json o), (html o).
Qed.

Lemma extended_front_end_exits_zero_witness :
  let args := [str "/work"; str "missing"; str "--verbose"] in
  existsSync example_env (cwd example_env) = true
  /\ report_ok example_env (fst (RouteDebuggerCli.parse example_env args))
     = true
  /\ RouteDebuggerCli.exitCode (RouteDebuggerCli.main example_env args) = 0.
Proof.
  cbv zeta. split; [reflexivity|]. split; [reflexivity|].
  apply (extended_front_end_exits_zero example_env
           [str "/work"; str "missing"; str "--verbose"]).
  - reflexivity.
  - intros a [<-|[<-|[<-|[]]]]; vm_compute; intros H;
      first [reflexivity | discriminate H].
  - reflexivity.
Defined.

(** ** The command line of the simple variant *)

Lemma simple_parse_arg_keeps_help env st a :
  help (fst st) = true ->
  help (fst (RouteAnalyzerCli.parse_arg env st a)) = true.
Proof.
  intros H. destruct st as [o t]. unfold RouteAnalyzerCli.parse_arg.
  simpl in H.
  repeat match goal with
         | |- context [if ?b then _ else _] => destruct b
         end; simpl; done.
Qed.

Lemma simple_parse_fold_keeps_help env args : forall st,
  help (fst st) = true ->
  help (fst (fold_left (RouteAnalyzerCli.parse_arg env) args st)) = true.
Proof.
  induction args as [|a args IH]; intros st H; simpl; [done|].
  apply IH. by apply simple_parse_arg_keeps_help.
Qed.

Lemma simple_parse_fold_sets_help env args : forall st,
  In (str "--help") args \/ In (str "-h") args ->
  help (fst (fold_left (RouteAnalyzerCli.parse_arg env) args st)) = true.
Proof.
  induction args as [|a args IH]; intros st H; simpl.
  - destruct H as [[]|[]].
  - assert (Ha : a = str "--help" \/ a = str "-h"
                 \/ (In (str "--help") args \/ In (str "-h") args)).
    { destruct H as [[H|H]|[H|H]]; auto. }
    destruct Ha as [->|[->|Ha]]; [| |by apply IH];
      apply simple_parse_fold_keeps_help; by destruct st.
Qed.

(** X22.  The simple front end prints its usage and ends with status 0
    exactly when --help or -h is among its arguments, at whatever place and
    whatever the other arguments are; nothing is analysed then. *)
Theorem simple_usage_iff_help_flag (env : Env) (args : list text) :
  RouteAnalyzerCli.main env args = Usage
  <-> In (str "--help") args \/ In (str "-h") args.
Proof.
  unfold RouteAnalyzerCli.main.
  destruct (RouteAnalyzerCli.parse env args) as [o t] eqn:E.
  assert (Ho : help o = help (fst (RouteAnalyzerCli.parse env args)))
    by (by rewrite E).
  unfold RouteAnalyzerCli.parse in Ho. split.
  - intros H.
    destruct (in_dec (List.list_eq_dec N.eq_dec) (str "--help") args) as [|N1];
      [by left|].
    destruct (in_dec (List.list_eq_dec N.eq_dec) (str "-h") args) as [|N2];
      [by right|].
    rewrite simple_parse_fold_help in Ho by assumption. simpl in Ho.
    rewrite Ho in H. by destruct (existsSync env t).
  - intros H. rewrite simple_parse_fold_sets_help in Ho by assumption.
    by rewrite Ho.
Qed.

(** ** The table of dependencies *)

Lemma existsb_configs (f : RouteConfig -> bool) (P : text -> bool) cs :
  (forall c p, f (RouteDebugger.extractRouteConfig c p) = P c) ->
  existsb f (flat_map extended_file_config cs) = some_file P cs.
Proof.
  intros E. unfold some_file.
  induction cs as [|[p [c|]] cs IH]; [done| |exact IH].
  change (flat_map extended_file_config ((p, Some c) :: cs))
    with (RouteDebugger.extractRouteConfig c (relative p)
          :: flat_map extended_file_config cs).
  cbn [existsb snd]. by rewrite E, IH.
Qed.

Lemma test_router g s :
  fst (RegExp_test (literal reactRouter_re false g) s) = mentions_router s.
Proof.
  rewrite test_fresh_exists_at. unfold mentions_router.
  rewrite !includes_exists_at, <- !exists_at_orb.
  apply exists_at_ext. intros t.
  change reactRouter_re
    with (Alt (L "react-router") (Alt (L "useNavigate") (L "useLocation"))).
  unfold L. rewrite !match_here_Alt, !match_here_Lit.
  by rewrite !orb_assoc.
Qed.

Lemma test_shell g s :
  fst (RegExp_test (literal shell_re false g) s) = mentions_shell s.
Proof.
  rewrite test_fresh_exists_at. unfold mentions_shell.
  rewrite !includes_exists_at, <- !exists_at_orb.
  apply exists_at_ext. intros t.
  change shell_re
    with (Alt (L "Shell") (Alt (L "AsyncWrapper") (L "useModulePathResolver"))).
  unfold L. rewrite !match_here_Alt, !match_here_Lit.
  by rewrite !orb_assoc.
Qed.

Lemma newQueryClient_count s :
  length (default [] (String_match s (literal newQueryClient_re false true)))
  = occurrences false newQueryClient_re s.
Proof.
  pose proof (match_global_count false newQueryClient_re s
                newQueryClient_re_no_overlap) as Hm.
  destruct (String_match s (literal newQueryClient_re false true)) as [ms|];
    simpl; [by destruct Hm | by rewrite Hm].
Qed.

(** X23.  After a run of the extended variant, what the table of
    dependencies says was detected is decided by the texts of the files
    that were read: the two router packages when one of them contains
    react-router, useNavigate or useLocation; the query package when one
    of them constructs a query client at two places or more; the shell
    when one of them contains Shell, AsyncWrapper or
    useModulePathResolver.  The order of the table is fixed. *)
Theorem dependencies_detected_in_read_files (root : Dirent) :
  let cs := walk_files root in
  List.map (fun e => (fst e, detected (snd e)))
    (mapDependencies (RouteDebugger.run root))
  = [("react-router"%string, some_file mentions_router cs);
     ("react-router-dom"%string, some_file mentions_router cs);
     ("@tanstack/react-query"%string,
      some_file (fun c => 1 <? occurrences false newQueryClient_re c) cs);
     ("capitalrx-shell"%string, some_file mentions_shell cs)].
Proof.
  cbv zeta.
  destruct (extended_run_walked root) as (_ & C & _).
  unfold mapDependencies. cbn [List.map fst snd detected]. rewrite C.
  rewrite (existsb_configs hasReactRouter mentions_router),
    (existsb_configs hasMultipleQueryClients
       (fun c => 1 <? occurrences false newQueryClient_re c)),
    (existsb_configs hasShellComponents mentions_shell);
    [reflexivity | | |]; intros c p; unfold RouteDebugger.extractRouteConfig;
    cbn [hasReactRouter hasMultipleQueryClients hasShellComponents].
  - apply test_shell.
  - by rewrite newQueryClient_count.
  - apply test_router.
Qed.

(** ** The helper for the browser *)

Lemma fold_left_push {A B} (f : A -> list B) (l : list A) : forall acc,
  fold_left (fun acc x => acc ++ f x) l acc = acc ++ flat_map f l.
Proof.
  induction l as [|x l IH]; intros acc; simpl; [by rewrite app_nil_r|].
  by rewrite IH, app_assoc.
Qed.

Lemma fold_left_ext_eq {A B} (f g : B -> A -> B) l :
  (forall acc x, f acc x = g acc x) ->
  forall acc, fold_left f l acc = fold_left g l acc.
Proof.
  intros E. induction l as [|x l IH]; intros acc; simpl; [done|].
  by rewrite E, IH.
Qed.

Lemma analyzeRouteConfiguration_parts routes modules :
  EsmTool.analyzeRouteConfiguration routes modules
  = flat_map route_issues routes
    ++ flat_map module_issues (default [] modules).
Proof.
  unfold EsmTool.analyzeRouteConfiguration. cbv zeta.
  assert (R : forall acc,
             fold_left
               (fun issues route =>
                  let issues :=
                    if negb (EsmTool.hasStableKey route) then
                      issues ++
                      [EsmTool.mkConfigIssue "missing-stable-key"
                         (EsmTool.route_ (EsmTool.rh_path route))
                         (str "Route "
                          ++ EsmTool.String_of (EsmTool.rh_path route)
                          ++ str " missing stable key, may cause remounts")]
                    else issues in
                  if negb (EsmTool.truthy_text (EsmTool.componentName route))
                  then
                    issues ++
                    [EsmTool.mkConfigIssue "anonymous-component"
                       (EsmTool.route_ (EsmTool.rh_path route))
                       (str "Route "
                        ++ EsmTool.String_of (EsmTool.rh_path route)
                        ++ str " uses anonymous component, debugging difficult")]
                  else issues)
               (List.map
                  (fun route =>
                     EsmTool.mkRouteHash (EsmTool.path route)
                       (EsmTool.Component_name route)
                       (negb (negb (EsmTool.truthy_text (EsmTool.key route)))))
                  routes) acc
             = acc ++ flat_map route_issues routes).
  { induction routes as [|r routes IH]; intros acc;
      [by rewrite app_nil_r|].
    cbn [List.map fold_left flat_map]. rewrite IH. cbv zeta.
    cbn [EsmTool.hasStableKey EsmTool.componentName EsmTool.rh_path].
    unfold route_issues, unkeyed, anonymous.
    destruct (EsmTool.truthy_text (EsmTool.key r)),
      (EsmTool.truthy_text (EsmTool.Component_name r));
      cbn [negb app]; by rewrite <- ?app_assoc. }
  rewrite R. cbn [app]. destruct modules as [ms|]; [|by rewrite app_nil_r].
  cbn [default].
  rewrite (fold_left_ext_eq _ (fun acc m => acc ++ module_issues m)).
  - apply fold_left_push.
  - intros acc m. unfold module_issues, unversioned.
    destruct (EsmTool.version m); [by rewrite app_nil_r | done].
Qed.

Lemma flat_map_length_cond {A B} (f : A -> list B) (c : A -> bool) l :
  (forall x, length (f x) = if c x then 1 else 0) ->
  length (flat_map f l) = length (List.filter c l).
Proof.
  intros E. induction l as [|x l IH]; [done|].
  cbn [flat_map List.filter]. rewrite length_app, E, IH.
  by destruct (c x).
Qed.

(** X24.  analyzeRouteConfiguration reports one issue for each route
    without a key, one for each route whose component has no name, and,
    when modules are given, one for each module whose version is
    undefined.  It reports nothing exactly when every route has a key and
    a named component and every module a version. *)
Theorem analyzeRouteConfiguration_counts
    (routes : list EsmTool.Route)
    (modules : option (list EsmTool.ShellModule)) :
  let found := EsmTool.analyzeRouteConfiguration routes modules in
  length found
  = length (List.filter unkeyed routes)
    + length (List.filter anonymous routes)
    + length (List.filter unversioned (default [] modules))
  /\ (found = []
      <-> Forall (fun r => unkeyed r = false /\ anonymous r = false) routes
          /\ Forall (fun m => unversioned m = false) (default [] modules)).
Proof.
  cbv zeta. rewrite analyzeRouteConfiguration_parts. split.
  - rewrite length_app.
    rewrite (flat_map_length_cond module_issues unversioned)
      by (intros m; unfold module_issues; by destruct (unversioned m)).
    f_equal. induction routes as [|r routes IH]; [done|].
    cbn [flat_map List.filter]. rewrite length_app, IH.
    unfold route_issues. destruct (unkeyed r), (anonymous r); simpl; lia.
  - rewrite app_nil.
    assert (R : flat_map route_issues routes = []
                <-> Forall (fun r => unkeyed r = false /\ anonymous r = false)
                      routes).
    { induction routes as [|r routes IH]; [by split|].
      cbn [flat_map]. rewrite app_nil, IH, Forall_cons.
      apply and_iff_compat_r. unfold route_issues.
      destruct (unkeyed r), (anonymous r); simpl; split; intros H;
        try done; try (by destruct H). }
    assert (M : flat_map module_issues (default [] modules) = []
                <-> Forall (fun m => unversioned m = false)
                      (default [] modules)).
    { induction (default [] modules) as [|m ms IH]; [by split|].
      cbn [flat_map]. rewrite app_nil, IH, Forall_cons.
      apply and_iff_compat_r. unfold module_issues.
      by destruct (unversioned m). }
    tauto.
Qed.

Lemma diagnosis_severity_of routeConfig :
  (hasUnmemoizedRoutes routeConfig = true ->
   EsmTool.d_severity (EsmTool.diagnoseUnmountIssues routeConfig) = "medium")
  /\ (hasUnmemoizedRoutes routeConfig = false ->
      hasMultipleQueryClients routeConfig = true ->
      EsmTool.d_severity (EsmTool.diagnoseUnmountIssues routeConfig)
      = "high").
Proof.
  unfold EsmTool.diagnoseUnmountIssues.
  destruct (hasActivityContext routeConfig),
    (hasBlockedNavigation routeConfig),
    (hasMultipleQueryClients routeConfig),
    (hasUnmemoizedRoutes routeConfig); by split.
Qed.

(** diagnoseUnmountIssues lists one issue and one recommendation for each
    of the four flags that is set.  Its severity is that of the last flag
    that sets one: medium when the routes are unmemoized, whether or not
    there are several query clients; high when there are several query
    clients and the routes are not unmemoized; low otherwise. *)
Lemma diagnosis_severity_is_the_last_one_set (routeConfig : RouteConfig) :
  let d := EsmTool.diagnoseUnmountIssues routeConfig in
  let n (b : bool) := if b then 1 else 0 in
  length (EsmTool.d_issues d) = length (EsmTool.d_recommendations d)
  /\ length (EsmTool.d_issues d)
     = n (hasActivityContext routeConfig)
       + n (hasBlockedNavigation routeConfig)
       + n (hasMultipleQueryClients routeConfig)
       + n (hasUnmemoizedRoutes routeConfig)
  /\ EsmTool.d_severity d
     = (if hasUnmemoizedRoutes routeConfig then "medium"
        else if hasMultipleQueryClients routeConfig then "high"
        else "low")%string.
Proof.
  cbv zeta. unfold EsmTool.diagnoseUnmountIssues.
  destruct (hasActivityContext routeConfig),
    (hasBlockedNavigation routeConfig),
    (hasMultipleQueryClients routeConfig),
    (hasUnmemoizedRoutes routeConfig); repeat split; reflexivity.
Qed.

(** X25.  The two tools rate the same finding differently.  Where the
    extended analyzer reports dynamic route generation in a file that does
    not mention useMemo, the issue has severity high, and the diagnosis of
    the configuration extracted from that file has severity medium,
    whatever else the file contains. *)
Theorem diagnosis_rates_dynamic_routes_medium
    (content filePath : text) (i : Issue) :
  i ∈ RouteDebugger.runChecks content filePath ->
  type i = "dynamic-route-generation" ->
  includes content (str "useMemo") = false ->
  severity i = "high"
  /\ EsmTool.d_severity
       (EsmTool.diagnoseUnmountIssues
          (RouteDebugger.extractRouteConfig content filePath))
     = "medium".
Proof.
  intros Hi T Hu.
  destruct (extended_issue_origin content filePath i Hi) as (D & _).
  destruct (D T) as [Hr Hs]. split; [exact Hs|].
  destruct (diagnosis_severity_of
              (RouteDebugger.extractRouteConfig content filePath)) as [E _].
  apply E. unfold RouteDebugger.extractRouteConfig.
  cbn [hasUnmemoizedRoutes]. by rewrite Hr, Hu.
Qed.

Lemma diagnosis_rates_dynamic_routes_medium_witness :
  let content := str "routes.map(({ path, Component }) => null)" in
  let i := dynamic_issue (str "routes.jsx")
             (str "routes.map(({ path, Component })")
             (Some "Wrap routes array in useMemo to prevent recreation") in
  i ∈ RouteDebugger.runChecks content (str "routes.jsx")
  /\ type i = "dynamic-route-generation"
  /\ includes content (str "useMemo") = false
  /\ severity i = "high"
  /\ EsmTool.d_severity
       (EsmTool.diagnoseUnmountIssues
          (RouteDebugger.extractRouteConfig content (str "routes.jsx")))
     = "medium".
Proof.
  cbv zeta.
  assert (H : dynamic_issue (str "routes.jsx")
                (str "routes.map(({ path, Component })")
                (Some "Wrap routes array in useMemo to prevent recreation")
              ∈ RouteDebugger.runChecks
                  (str "routes.map(({ path, Component }) => null)")
                  (str "routes.jsx")).
  { vm_compute. left. }
  split; [exact H|]. split; [reflexivity|]. split; [reflexivity|].
  apply (diagnosis_rates_dynamic_routes_medium _ _ _ H); reflexivity.
Defined.

(** ** The two variants on the same tree *)

Lemma simple_analyze_calls p f this :
  fsLog (RouteAnalyzer.analyzeRouteFile p f this) = fsLog this ++ [ReadFile p].
Proof.
  unfold RouteAnalyzer.analyzeRouteFile.
  destruct (readFileSync f) as [c|]; [|done].
  rewrite simple_runChecks_frame.
  by destruct (0 <? length (simple_found c (relative p))).
Qed.

Lemma extended_analyze_calls p f this :
  fsLog (RouteDebugger.analyzeRouteFile p f this) = fsLog this ++ [ReadFile p].
Proof.
  unfold RouteDebugger.analyzeRouteFile.
  destruct (readFileSync f) as [c|]; [|done].
  by destruct (0 <? length (RouteDebugger.runChecks c (relative p))).
Qed.

Lemma fold_calls (visit : list text -> Dirent -> Analyzer -> Analyzer)
    d files :
  Forall (fun f => forall dir this,
              fsLog (visit dir f this) = fsLog this ++ fs_calls dir f) files ->
  forall this,
    fsLog (fold_left (fun this f => visit d f this) files this)
    = fsLog this ++ flat_map (fs_calls d) files.
Proof.
  induction 1 as [|f files Hf _ IH]; intros this; simpl.
  - by rewrite app_nil_r.
  - by rewrite IH, Hf, app_assoc.
Qed.

Lemma simple_visit_calls file : forall dir this,
  fsLog (RouteAnalyzer.visit dir file this) = fsLog this ++ fs_calls dir file.
Proof.
  induction file as [name content | name | name files IH] using Dirent_ind;
    intros dir this; cbn [RouteAnalyzer.visit fs_calls dirent_name].
  - rewrite (proj1 (isRelevantFile_predicate name)).
    destruct (relevance_predicate name); [|by rewrite app_nil_r].
    by rewrite simple_analyze_calls.
  - unfold RouteAnalyzer.shouldSkipDirectory.
    destruct (array_includes skipDirs name) eqn:S; cbn [negb]; [|done].
    rewrite (skipped_name_not_relevant name S). by rewrite app_nil_r.
  - unfold RouteAnalyzer.shouldSkipDirectory.
    destruct (array_includes skipDirs name) eqn:S; cbn [negb].
    + rewrite (skipped_name_not_relevant name S). by rewrite app_nil_r.
    + rewrite (fold_calls RouteAnalyzer.visit) by exact IH.
      simpl. by rewrite <- app_assoc.
Qed.

Lemma extended_visit_calls file : forall dir this,
  fsLog (RouteDebugger.visit dir file this) = fsLog this ++ fs_calls dir file.
Proof.
  induction file as [name content | name | name files IH] using Dirent_ind;
    intros dir this; cbn [RouteDebugger.visit fs_calls dirent_name].
  - rewrite (proj2 (isRelevantFile_predicate name)).
    destruct (relevance_predicate name); [|by rewrite app_nil_r].
    by rewrite extended_analyze_calls.
  - unfold RouteDebugger.shouldSkipDirectory.
    destruct (array_includes skipDirs name) eqn:S; cbn [negb]; [|done].
    rewrite (proj2 (isRelevantFile_predicate name)),
      <- (proj1 (isRelevantFile_predicate name)),
      (skipped_name_not_relevant name S).
    by rewrite app_nil_r.
  - unfold RouteDebugger.shouldSkipDirectory.
    destruct (array_includes skipDirs name) eqn:S; cbn [negb].
    + rewrite (proj2 (isRelevantFile_predicate name)),
        <- (proj1 (isRelevantFile_predicate name)),
        (skipped_name_not_relevant name S).
      by rewrite app_nil_r.
    + rewrite (fold_calls RouteDebugger.visit) by exact IH.
      simpl. by rewrite <- app_assoc.
Qed.

Lemma findRouteFiles_calls root :
  fsLog (RouteAnalyzer.findRouteFiles root new_Analyzer) = walk_calls root
  /\ fsLog (RouteDebugger.findRouteFiles root new_Analyzer)
     = walk_calls root.
Proof.
  unfold walk_calls.
  unfold RouteAnalyzer.findRouteFiles, RouteDebugger.findRouteFiles.
  destruct root as [name content | name [files|]]; try (by split).
  rewrite (fold_calls RouteAnalyzer.visit),
    (fold_calls RouteDebugger.visit); [by split | |];
    apply Forall_forall; intros f _;
    [apply extended_visit_calls | apply simple_visit_calls].
Qed.

(** X26.  On every tree the two variants do the same work.  Their walks,
    [findRouteFiles] on the target, make the same calls to list
    directories and to read files, in the same order: a listing of each
    directory that is not skipped, then its entries in turn.  Their runs
    analyse the same number of files, find issues in the same number of
    files, and come to their reports with the same issues in the same
    order, but for the fix strings that only the extended variant has.
    What the reports then write is not compared. *)
Theorem variants_agree_on_every_tree (root : Dirent) :
  let simple := RouteAnalyzer.run root in
  let extended := RouteDebugger.run root in
  fsLog (RouteAnalyzer.findRouteFiles root new_Analyzer) = walk_calls root
  /\ fsLog (RouteDebugger.findRouteFiles root new_Analyzer)
     = walk_calls root
  /\ issues simple = List.map erase_fix (issues extended)
  /\ analyzed (fileStats simple) = analyzed (fileStats extended)
  /\ withIssues (fileStats simple) = withIssues (fileStats extended).
Proof.
  cbv zeta. destruct (findRouteFiles_calls root) as [-> ->].
  destruct (simple_run_walked root) as (I & _ & _ & _ & A & W & _).
  destruct (extended_run_walked root) as (I' & _ & _ & A' & W' & _).
  rewrite I, I', A, A', W, W'. clear I I' A A' W W'. simpl.
  assert (E : forall x,
             simple_file_issues x = List.map erase_fix (extended_file_issues x)).
  { intros [p [c|]]; unfold simple_file_issues, extended_file_issues;
      cbn [fst snd]; [apply simple_found_erases | done]. }
  repeat split.
  - induction (walk_files root) as [|x cs IH]; [done|].
    cbn [flat_map]. by rewrite List.map_app, IH, E.
  - f_equal. induction (walk_files root) as [|x cs IH]; [done|].
    cbn [List.filter]. rewrite IH. unfold has_issues.
    by rewrite E, length_map.
Qed.

(** ** The patterns shown in the report *)

Lemma space_is_plain x : isSpace x = true -> plain_unit x = true.
Proof.
  intros H. unfold plain_unit.
  repeat match goal with
         | |- context [(?a =? ?b)%N] =>
             destruct (N.eqb_spec a b); [subst; discriminate H|]
         end.
  reflexivity.
Qed.

Lemma plain_matches r s s' :
  Matches false r s s' -> plain_re r = true ->
  exists u, s = u ++ s' /\ Forall (fun x => plain_unit x = true) u.
Proof.
  induction 1 as [s|c x s E|x s E|r1 r2 s s1 s2 _ IH1 _ IH2|r1 r2 s s' _ IH
                 |r1 r2 s s' _ IH|r s s' _ IH|r s|r s
                 |r s s1 s2 _ IH1 _ _ IH2|];
    cbn [plain_re]; intros P.
  - by exists [].
  - simpl in E. apply N.eqb_eq in E. subst x. exists [c].
    split; [done | by constructor].
  - exists [x]. split; [done|]. constructor; [by apply space_is_plain | done].
  - apply andb_true_iff in P as [P1 P2].
    destruct (IH1 P1) as (u1 & -> & F1), (IH2 P2) as (u2 & -> & F2).
    exists (u1 ++ u2). split; [by rewrite app_assoc | by apply Forall_app].
  - apply andb_true_iff in P as [P1 _]. by apply IH.
  - apply andb_true_iff in P as [_ P2]. by apply IH.
  - by apply IH.
  - by exists [].
  - by exists [].
  - destruct (IH1 P) as (u1 & -> & F1), (IH2 P) as (u2 & -> & F2).
    exists (u1 ++ u2). split; [by rewrite app_assoc | by apply Forall_app].
  - by exists [].
Qed.

Lemma matchAll_head i r : forall s skip t ms,
  matchAll i r skip s = t :: ms ->
  exists s' rest, match_here i r s' = Some rest
                  /\ t = take (length s' - length rest) s'.
Proof.
  induction s as [|x s IH]; intros skip t ms; destruct skip as [|n]; simpl.
  - destruct (match_here i r []) as [rest|] eqn:E; [|done].
    intros [= <- _]. by exists [], rest.
  - done.
  - destruct (match_here i r (x :: s)) as [rest|] eqn:E.
    + intros [= <- _]. by exists (x :: s), rest.
    + apply IH.
  - apply IH.
Qed.

Lemma escapeHtml_plain u :
  Forall (fun x => plain_unit x = true) u -> escapeHtml u = u.
Proof.
  rewrite escapeHtml_units.
  induction 1 as [|x u Hx _ IH]; [done|]. cbn [flat_map]. rewrite IH.
  unfold plain_unit in Hx. unfold escape_unit.
  repeat match goal with
         | |- context [(?a =? ?b)%N] =>
             destruct (N.eqb_spec a b); [subst; discriminate Hx|]
         end.
  reflexivity.
Qed.

Lemma extended_patternless c p :
  let none (l : list Issue) := Forall (fun i => pattern i = None) l in
  none (RouteDebugger.checkQueryClientCreation c p [])
  /\ none (RouteDebugger.checkContextPlacement c p [])
  /\ none (RouteDebugger.checkBlockedNavigation c p [])
  /\ none (RouteDebugger.checkActivityContext c p [])
  /\ none (RouteDebugger.checkMemoization c p [])
  /\ none (RouteDebugger.checkAsyncWrapper c p [])
  /\ none (RouteDebugger.checkShellPatterns c p [])
  /\ none (RouteDebugger.checkPerformancePatterns c p []).
Proof.
  cbv zeta.
  split; [unfold RouteDebugger.checkQueryClientCreation; rule_cases;
          repeat constructor|].
  split; [unfold RouteDebugger.checkContextPlacement; rule_cases;
          repeat constructor|].
  split; [unfold RouteDebugger.checkBlockedNavigation; rule_cases;
          repeat constructor|].
  split; [unfold RouteDebugger.checkActivityContext; rule_cases;
          repeat constructor|].
  split; [unfold RouteDebugger.checkMemoization; rule_cases;
          repeat constructor|].
  split; [unfold RouteDebugger.checkAsyncWrapper; rule_cases;
          repeat constructor|].
  split; [unfold RouteDebugger.checkShellPatterns; rule_cases;
          repeat constructor|].
  unfold RouteDebugger.checkPerformancePatterns,
    RouteDebugger.performancePatterns. cbn [fold_left].
  destruct (RegExp_test (literal consoleLog_re false true) c) as [[] ?];
    destruct (RegExp_test (literal debugger_re false true) c) as [[] ?];
    destruct (RegExp_test (literal jsonClone_re false true) c) as [[] ?];
    cbn [fst app]; repeat constructor.
Qed.

(** X27.  Escaping changes no pattern that the report shows.  The only
    issues with a pattern are those of dynamic route generation; their
    pattern is the first match of the pattern of that check, which begins
    with routes.map and holds none of the characters that escapeHtml
    replaces. *)
Theorem issue_patterns_need_no_escaping
    (content filePath : text) (i : Issue) (t : text) :
  i ∈ RouteDebugger.runChecks content filePath ->
  pattern i = Some t ->
  type i = "dynamic-route-generation"
  /\ startsWith t (str "routes.map") = true
  /\ escapeHtml t = t.
Proof.
  intros Hi Hp.
  destruct (extended_patternless content filePath)
    as (N2 & N3 & N4 & N5 & N6 & N7 & N8 & N9).
  rewrite Forall_forall in N2, N3, N4, N5, N6, N7, N8, N9.
  rewrite extended_runChecks_parts, !elem_of_app in Hi.
  destruct Hi as [H|[H|[H|[H|[H|[H|[H|[H|H]]]]]]]];
    try (exfalso;
         first [ apply N2 in H | apply N3 in H | apply N4 in H
               | apply N5 in H | apply N6 in H | apply N7 in H
               | apply N8 in H | apply N9 in H ];
         congruence).
  unfold RouteDebugger.checkDynamicRouteGeneration in H. cbv zeta in H.
  unfold String_match in H. cbn [global literal ignoreCase source] in H.
  destruct (matchAll false routesMap_re 0 content) as [|m0 ms] eqn:E;
    [by apply elem_of_nil in H|].
  apply list_elem_of_singleton in H. subst i. cbn [pattern head] in Hp.
  injection Hp as ->. split; [reflexivity|].
  apply matchAll_head in E as (s' & rest & Hm & ->).
  apply match_here_rest in Hm. unfold routesMap_re in Hm. cbn [seqs] in Hm.
  inversion Hm as [| | |r1 r2 u0 u1 u2 H1 H2| | | | | | |]; subst.
  apply Matches_Lit in H1. subst.
  apply plain_matches in H2; [|reflexivity].
  destruct H2 as (u & -> & Fu).
  replace (length (str "routes.map" ++ u ++ rest) - length rest)
    with (length (str "routes.map" ++ u))
    by (rewrite !length_app; lia).
  rewrite app_assoc, take_app_length. split.
  - apply startsWith_app. by exists u.
  - apply escapeHtml_plain. apply Forall_app. split; [|exact Fu].
    repeat constructor.
Qed.

Lemma issue_patterns_need_no_escaping_witness :
  let content := str "routes.map(({ path, Component }) => null)" in
  let t := str "routes.map(({ path, Component })" in
  let i := dynamic_issue (str "routes.jsx") t
             (Some "Wrap routes array in useMemo to prevent recreation") in
  i ∈ RouteDebugger.runChecks content (str "routes.jsx")
  /\ pattern i = Some t
  /\ type i = "dynamic-route-generation"
  /\ startsWith t (str "routes.map") = true
  /\ escapeHtml t = t.
Proof.
  cbv zeta.
  assert (H : dynamic_issue (str "routes.jsx")
                (str "routes.map(({ path, Component })")
                (Some "Wrap routes array in useMemo to prevent recreation")
              ∈ RouteDebugger.runChecks
                  (str "routes.map(({ path, Component }) => null)")
                  (str "routes.jsx")).
  { vm_compute. left. }
  split; [exact H|]. split; [reflexivity|].
  apply (issue_patterns_need_no_escaping _ _ _ _ H). reflexivity.
Defined.

(** ** The exit status of the simple front end *)

Lemma simple_parse_fold_target env args : forall st,
  snd (fold_left (RouteAnalyzerCli.parse_arg env) args st)
  = match last (positional args) with
    | Some a => resolve env a
    | None => snd st
    end.
Proof.
  induction args as [|a args IH]; intros st; [done|].
  cbn [fold_left]. rewrite IH. unfold positional. cbn [List.filter].
  destruct (startsWith a (str "-")) eqn:E; cbn [negb].
  - by rewrite simple_parse_arg_flag.
  - rewrite simple_parse_arg_positional by exact E. cbn [snd].
    fold (positional args).
    destruct (positional args) as [|b l]; [done|].
    rewrite last_cons_cons.
    destruct (last (b :: l)) eqn:L; [done|].
    by apply last_None in L.
Qed.

Lemma simple_parse_fold_flag_values env args : forall st,
  let o := fst (fold_left (RouteAnalyzerCli.parse_arg env) args st) in
  help o = help (fst st) || has_flag [str "--help"; str "-h"] args
  /\ json o = json (fst st) || has_flag [str "--json"; str "-j"] args.
Proof.
  induction args as [|a args IH]; intros [o t]; cbv zeta.
  - simpl. by rewrite !orb_false_r.
  - cbn [fold_left]. destruct (IH (RouteAnalyzerCli.parse_arg env (o, t) a))
      as [-> ->].
    unfold has_flag, array_includes. cbn [existsb fst].
    rewrite !orb_false_r. unfold RouteAnalyzerCli.parse_arg.
    destruct (text_eqb a (str "--help")) eqn:E1.
    { apply text_eqb_eq in E1. subst a. cbn [orb fst help json].
      split; [by rewrite orb_true_r | reflexivity]. }
    destruct (text_eqb a (str "-h")) eqn:E2.
    { apply text_eqb_eq in E2. subst a. cbn [orb fst help json].
      split; [by rewrite orb_true_r | reflexivity]. }
    cbn [orb].
    destruct (text_eqb a (str "--verbose") || text_eqb a (str "-v")) eqn:E3.
    { apply orb_true_iff in E3 as [E3|E3]; apply text_eqb_eq in E3; subst a;
        by split. }
    destruct (text_eqb a (str "--json") || text_eqb a (str "-j")) eqn:E4.
    { cbn [fst help json]. split; [reflexivity | by rewrite orb_true_r]. }
    by destruct (negb (startsWith a (str "-"))).
Qed.

Lemma flat_map_nonempty {A B} (f : A -> list B) l :
  (0 <? length (flat_map f l)) = existsb (fun x => 0 <? length (f x)) l.
Proof.
  induction l as [|x l IH]; [done|].
  cbn [flat_map existsb]. rewrite length_app, <- IH.
  destruct (f x); simpl; [done|]. reflexivity.
Qed.

(** X28.  How the simple front end ends, read off its arguments and the
    tree.  Its target is its last argument that does not start with a dash,
    resolved, or the working directory.  Its status is 0 when --help or -h
    is given; otherwise 1 when the target does not exist; otherwise 0 when
    --json or -j is given; otherwise 1 exactly when the checks find an
    issue in one of the candidate files below the target. *)
Theorem simple_exit_status (env : Env) (args : list text) :
  let targetPath := snd (RouteAnalyzerCli.parse env args) in
  targetPath
  = match last (positional args) with
    | Some a => resolve env a
    | None => cwd env
    end
  /\ RouteAnalyzerCli.exitCode (RouteAnalyzerCli.main env args)
     = if has_flag [str "--help"; str "-h"] args then 0
       else if negb (existsSync env targetPath) then 1
       else if has_flag [str "--json"; str "-j"] args then 0
       else if existsb (has_issues simple_file_issues)
                 (walk_files (at_path env targetPath))
            then 1 else 0.
Proof.
  cbv zeta. split.
  - unfold RouteAnalyzerCli.parse. apply simple_parse_fold_target.
  - unfold RouteAnalyzerCli.main.
    pose proof (simple_parse_fold_flag_values env args
                  (mkOptions false false false None false, cwd env)) as F.
    cbv zeta in F. fold (RouteAnalyzerCli.parse env args) in F.
    destruct (RouteAnalyzerCli.parse env args) as [o t].
    cbn [fst snd help json orb] in *. destruct F as [<- <-].
    destruct (help o); [reflexivity|].
    destruct (existsSync env t); [|reflexivity].
    cbn [negb RouteAnalyzerCli.exitCode].
    destruct (json o); [reflexivity|]. cbn [negb andb].
    destruct (simple_run_walked (at_path env t)) as (-> & _).
    cbn [issues new_Analyzer app]. by rewrite flat_map_nonempty.
Qed.
